(** * Frame transport protocol: packet codec, frame server and frame readers

    A shallow embedding of
    - [src/comm_protocol/Packet.py], module [CommProtocol];
    - [raspberry_communication_protocol/Packet.py], module
      [RaspberryProtocol];
    - [src/comm_protocol/server/FrameTCPServerRequestHandler.py], module
      [Server];
    - [pattern_tracking/proper/logic/video/VideoReader.py], module [Reader];
    - [pattern_tracking/utils.py], module [Utils];
    together with the pieces of the Python runtime, of [struct], of
    [queue], of NumPy and of the CRC libraries that this code calls. *)

From Stdlib Require Import ZArith List Lia Bool.
From Stdlib Require Import Strings.Byte.
Import ListNotations.
Local Open Scope Z_scope.

(* ===================================================================== *)
(** ** Python runtime: exceptions, bytes, integers *)
(* ===================================================================== *)

Module Py.

(** The exceptions the modelled code can raise. *)
Inductive exn : Type :=
| StructError      (* struct.error *)
| OverflowError    (* int.to_bytes on a value that does not fit *)
| ValueError       (* int('', 2), ndarray.reshape, np.frombuffer, Enum lookup *)
| TypeError        (* unpacking None *)
| AttributeError   (* attribute access on None *)
| IndexError       (* subscript out of range *)
| IOError.         (* a video feed that does not open *)

(** A Python call either returns a value or raises. *)
Inductive outcome (A : Type) : Type :=
| Return (a : A)
| Raise (e : exn).
Arguments Return {A} a.
Arguments Raise {A} e.

Definition bind {A B} (c : outcome A) (k : A -> outcome B) : outcome B :=
  match c with
  | Return a => k a
  | Raise e => Raise e
  end.

Notation "x <- c ;; k" := (bind c (fun x => k))
  (at level 61, c at next level, right associativity).

(** *** Bytes *)

Definition Z_of_byte (b : byte) : Z := Z.of_N (Byte.to_N b).

Definition byte_of_Z (z : Z) : byte :=
  match Byte.of_N (Z.to_N (z mod 256)) with
  | Some b => b
  | None => x00
  end.

(** Python slice [l[i:j]] for [0 <= i <= j]. *)
Definition slice {A} (l : list A) (i j : nat) : list A :=
  firstn (j - i) (skipn i l).

(** Python slice [l[i:]]. *)
Definition slice_from {A} (l : list A) (i : nat) : list A := skipn i l.

(** *** [int.to_bytes] and [int.from_bytes] *)

Inductive byteorder : Type := Little | Big.

(** The [k] low-order bytes of [n], least significant first. *)
Fixpoint le_bytes (k : nat) (n : Z) : list byte :=
  match k with
  | O => []
  | S k' => byte_of_Z n :: le_bytes k' (n / 256)
  end.

Fixpoint le_value (bs : list byte) : Z :=
  match bs with
  | [] => 0
  | b :: r => Z_of_byte b + 256 * le_value r
  end.

Definition ordered (order : byteorder) (bs : list byte) : list byte :=
  match order with
  | Little => bs
  | Big => rev bs
  end.

(** [n.to_bytes(len, order)]: OverflowError unless [0 <= n < 256**len]. *)
Definition int_to_bytes (n : Z) (len : nat) (order : byteorder)
  : outcome (list byte) :=
  if (0 <=? n) && (n <? 256 ^ Z.of_nat len)
  then Return (ordered order (le_bytes len n))
  else Raise OverflowError.

(** [int.from_bytes(data, order)], unsigned; the empty string gives 0. *)
Definition int_from_bytes (data : list byte) (order : byteorder) : Z :=
  le_value (ordered order data).

(** *** [bin] and [int(s, 2)] *)

(** Binary digits of a positive number, most significant first. *)
Fixpoint pos_bits (p : positive) (acc : list bool) : list bool :=
  match p with
  | xH => true :: acc
  | xO q => pos_bits q (false :: acc)
  | xI q => pos_bits q (true :: acc)
  end.

(** [bin(n)[2:]] for [n >= 0]: the digits of [n] without leading zeros,
    the single digit 0 for [n = 0]. *)
Definition bin_digits (n : Z) : list bool :=
  match n with
  | Zpos p => pos_bits p []
  | _ => [false]
  end.

Definition bits_value (s : list bool) : Z :=
  fold_left (fun acc (b : bool) => 2 * acc + (if b then 1 else 0)) s 0.

(** [int(s, 2)] on a string of binary digits: ValueError on the empty
    string. *)
Definition int_base2 (s : list bool) : outcome Z :=
  match s with
  | [] => Raise ValueError
  | _ => Return (bits_value s)
  end.

(** [min(range(n), key=k)] style selection: the first element of the
    sequence whose key is minimal. *)
Fixpoint min_by {A} (key : A -> Z) (cur : A) (rest : list A) : A :=
  match rest with
  | [] => cur
  | x :: r => if key x <? key cur then min_by key x r else min_by key cur r
  end.

(** The buffer with bit [k] of the byte at [offset] inverted. *)
Definition flip_bit (buf : list byte) (offset k : nat) : list byte :=
  match nth_error buf offset with
  | Some b =>
      firstn offset buf
        ++ byte_of_Z (Z.lxor (Z_of_byte b) (2 ^ Z.of_nat k))
        :: skipn (S offset) buf
  | None => buf
  end.

End Py.

(* ===================================================================== *)
(** ** The [struct] module, for the formats the packet code builds *)
(* ===================================================================== *)

Module Struct.
Import Py.

(** One item of a format string. ["2H"] is two [H] items; ["ns"] is one
    string item of [n] bytes; ["1c"] is one [c] item. *)
Inductive item : Type :=
| s_ (n : nat)   (* bytes of length n *)
| c_             (* bytes of length 1 *)
| I_             (* unsigned 32-bit *)
| H_.            (* unsigned 16-bit *)

(** A Python value passed to [pack] or returned by [unpack]. *)
Inductive value : Type :=
| VBytes (bs : list byte)
| VInt (n : Z).

Definition item_size (f : item) : nat :=
  match f with
  | s_ n => n
  | c_ => 1
  | I_ => 4
  | H_ => 2
  end.

(** [struct.calcsize] in the standard-size modes ["<"] and ["!"]: no
    padding. *)
Definition calcsize (fmt : list item) : nat :=
  fold_right (fun f acc => (item_size f + acc)%nat) O fmt.

(** A string argument shorter than its field is padded with null bytes, a
    longer one is truncated. *)
Definition fit (n : nat) (bs : list byte) : list byte :=
  firstn n (bs ++ repeat x00 n).

Definition pack_uint (order : byteorder) (len : nat) (n : Z)
  : outcome (list byte) :=
  if (0 <=? n) && (n <? 256 ^ Z.of_nat len)
  then Return (ordered order (le_bytes len n))
  else Raise StructError.

Definition pack_item (order : byteorder) (f : item) (v : value)
  : outcome (list byte) :=
  match f, v with
  | s_ n, VBytes bs => Return (fit n bs)
  | c_, VBytes [b] => Return [b]
  | I_, VInt n => pack_uint order 4 n
  | H_, VInt n => pack_uint order 2 n
  | _, _ => Raise StructError
  end.

Fixpoint pack_items (order : byteorder) (fmt : list item) (vs : list value)
  : outcome (list byte) :=
  match fmt, vs with
  | [], [] => Return []
  | f :: fmt', v :: vs' =>
      bs <- pack_item order f v ;;
      rest <- pack_items order fmt' vs' ;;
      Return (bs ++ rest)
  | _, _ => Raise StructError
  end.

(** [struct.pack(fmt, *vs)]: the number of arguments is checked before any
    of them is converted. *)
Definition pack (order : byteorder) (fmt : list item) (vs : list value)
  : outcome (list byte) :=
  if Nat.eqb (length fmt) (length vs)
  then pack_items order fmt vs
  else Raise StructError.

Definition unpack_item (order : byteorder) (f : item) (bs : list byte)
  : value :=
  match f with
  | s_ _ | c_ => VBytes bs
  | I_ | H_ => VInt (int_from_bytes bs order)
  end.

Fixpoint unpack_items (order : byteorder) (fmt : list item) (buf : list byte)
  : list value :=
  match fmt with
  | [] => []
  | f :: fmt' =>
      unpack_item order f (firstn (item_size f) buf)
        :: unpack_items order fmt' (skipn (item_size f) buf)
  end.

(** [struct.unpack(fmt, buf)]: struct.error unless the buffer has exactly
    [calcsize(fmt)] bytes. *)
Definition unpack (order : byteorder) (fmt : list item) (buf : list byte)
  : outcome (list value) :=
  if Nat.eqb (length buf) (calcsize fmt)
  then Return (unpack_items order fmt buf)
  else Raise StructError.

(** A value that its field holds without padding or truncation. *)
Definition exact (f : item) (v : value) : Prop :=
  match f, v with
  | s_ n, VBytes bs => length bs = n
  | _, _ => True
  end.

End Struct.

(* ===================================================================== *)
(** ** Checksums *)
(* ===================================================================== *)

Module Crc.
Import Py.

(** [fastcrc.crc16.arc]: CRC-16/ARC, polynomial 0x8005 processed reflected
    (0xA001), initial value 0, no final xor. *)
Definition arc_bit (crc : Z) : Z :=
  if Z.odd crc
  then Z.lxor (Z.shiftr crc 1) 0xA001
  else Z.shiftr crc 1.

Definition arc_byte (crc : Z) (b : byte) : Z :=
  Nat.iter 8 arc_bit (Z.lxor crc (Z_of_byte b)).

Definition arc (data : list byte) : Z := fold_left arc_byte data 0.

(** The values of the 16-bit shift register. *)
Definition word16 (c : Z) : Prop := 0 <= c < 2 ^ 16.

(** The step [arc_bit] undone: the top bit of its result tells whether the
    polynomial was xored in. *)
Definition arc_unbit (r : Z) : Z :=
  if r <? 2 ^ 15 then 2 * r else 2 * Z.lxor r 0xA001 + 1.

(** [crc.Calculator(crc.Crc16.CCITT.value).checksum]: polynomial 0x1021,
    initial value 0, most significant bit first, no final xor. *)
Definition ccitt_bit (crc : Z) : Z :=
  if Z.testbit crc 15
  then Z.lxor (Z.land (Z.shiftl crc 1) 0xFFFF) 0x1021
  else Z.land (Z.shiftl crc 1) 0xFFFF.

Definition ccitt_byte (crc : Z) (b : byte) : Z :=
  Nat.iter 8 ccitt_bit (Z.lxor crc (Z.shiftl (Z_of_byte b) 8)).

Definition ccitt (data : list byte) : Z := fold_left ccitt_byte data 0.

End Crc.

(* ===================================================================== *)
(** ** NumPy arrays, as far as the packet code uses them *)
(* ===================================================================== *)

Module Np.
Import Py.

(** The element types the packet code meets: the four of the newer
    protocol, and [int64], NumPy's default integer [int] where a C long has
    64 bits, which the older decoder uses. *)
Inductive dtype : Type := uint8 | int32 | int64 | float32 | float64.

Definition itemsize (d : dtype) : nat :=
  match d with
  | uint8 => 1
  | int32 => 4
  | int64 => 8
  | float32 => 4
  | float64 => 8
  end.

(** An array is its shape, its element type and its elements as raw bytes
    in row-major order, which is what [tobytes] returns and [frombuffer]
    reads. *)
Record ndarray : Type := mk_ndarray {
  shape : list Z;
  dtype_of : dtype;
  buffer : list byte
}.

Definition prod (dims : list Z) : Z := fold_right Z.mul 1 dims.

(** [a.size]: number of elements. *)
Definition size (a : ndarray) : Z := prod (shape a).

(** The invariant NumPy maintains between shape and storage. *)
Definition consistent (a : ndarray) : Prop :=
  Forall (fun d => 0 <= d) (shape a) /\
  Z.of_nat (length (buffer a)) = size a * Z.of_nat (itemsize (dtype_of a)).

Definition tobytes (a : ndarray) : list byte := buffer a.

Fixpoint shape_eqb (s t : list Z) : bool :=
  match s, t with
  | [], [] => true
  | x :: s', y :: t' => (x =? y) && shape_eqb s' t'
  | _, _ => false
  end.

(** [np.frombuffer(buf, dtype=d)]: a one-dimensional array over the whole
    buffer; ValueError when the length is not a multiple of the element
    size. *)
Definition frombuffer (buf : list byte) (d : dtype) : outcome ndarray :=
  if Nat.eqb (Nat.modulo (length buf) (itemsize d)) 0
  then Return (mk_ndarray [Z.of_nat (Nat.div (length buf) (itemsize d))] d buf)
  else Raise ValueError.

(** [a.reshape(newshape)] for non-negative dimensions: ValueError when the
    number of elements changes. *)
Definition reshape (a : ndarray) (newshape : list Z) : outcome ndarray :=
  if prod newshape =? size a
  then Return (mk_ndarray newshape (dtype_of a) (buffer a))
  else Raise ValueError.

(** *** Element values and [==]

    An element is decoded (little-endian storage) to the number it denotes.
    [==] compares the denoted numbers; a NaN differs from everything, also
    from itself. (Between an [int64] array and a floating-point one NumPy
    rounds before comparing; the packet code never compares such a pair.) *)
Inductive scalar : Type :=
| NaN
| Inf (negative : bool)
| Dyadic (m e : Z).       (* m * 2^e, m odd, or m = 0 and e = 0 *)

Fixpoint strip (p : positive) (e : Z) : positive * Z :=
  match p with
  | xO q => strip q (e + 1)
  | _ => (p, e)
  end.

Definition dyadic (m e : Z) : scalar :=
  match m with
  | Z0 => Dyadic 0 0
  | Zpos p => let (q, e') := strip p e in Dyadic (Zpos q) e'
  | Zneg p => let (q, e') := strip p e in Dyadic (Zneg q) e'
  end.

(** IEEE 754 binary interchange format with [ebits] exponent bits and
    [mbits] fraction bits, from its bit pattern [u]. *)
Definition ieee (ebits mbits : Z) (u : Z) : scalar :=
  let negative := Z.testbit u (ebits + mbits) in
  let ex := Z.land (Z.shiftr u mbits) (2 ^ ebits - 1) in
  let frac := Z.land u (2 ^ mbits - 1) in
  let bias := 2 ^ (ebits - 1) - 1 in
  if ex =? 2 ^ ebits - 1
  then (if frac =? 0 then Inf negative else NaN)
  else
    let m := if ex =? 0 then frac else 2 ^ mbits + frac in
    let e := (if ex =? 0 then 1 else ex) - bias - mbits in
    dyadic (if negative then - m else m) e.

Definition decode (d : dtype) (bs : list byte) : scalar :=
  let u := le_value bs in
  match d with
  | uint8 => dyadic u 0
  | int32 => dyadic (if u <? 2 ^ 31 then u else u - 2 ^ 32) 0
  | int64 => dyadic (if u <? 2 ^ 63 then u else u - 2 ^ 64) 0
  | float32 => ieee 8 23 u
  | float64 => ieee 11 52 u
  end.

Definition scalar_eqb (x y : scalar) : bool :=
  match x, y with
  | Inf a, Inf b => Bool.eqb a b
  | Dyadic m e, Dyadic m' e' => (m =? m') && (e =? e')
  | _, _ => false
  end.

(** The first [n] groups of [k] bytes. *)
Fixpoint chunks (n k : nat) (bs : list byte) : list (list byte) :=
  match n with
  | O => []
  | S n' => firstn k bs :: chunks n' k (skipn k bs)
  end.

Definition elements (a : ndarray) : list scalar :=
  map (decode (dtype_of a))
      (chunks (Z.to_nat (size a)) (itemsize (dtype_of a)) (buffer a)).

(** [(a == b).all()] for two arrays of the same shape. *)
Definition eq_all (a b : ndarray) : bool :=
  forallb (fun xy => scalar_eqb (fst xy) (snd xy))
          (combine (elements a) (elements b)).

Definition is_nan (x : scalar) : bool :=
  match x with
  | NaN => true
  | _ => false
  end.

(** No element of the array is a NaN. *)
Definition no_nan (a : ndarray) : bool :=
  forallb (fun x => negb (is_nan x)) (elements a).

End Np.

(* ===================================================================== *)
(** ** [src/comm_protocol/Packet.py] *)
(* ===================================================================== *)

Module CommProtocol.
Import Py Np.

(** Modelled from the spec: the enumeration [PacketType] of
    [src/comm_protocol/PacketType.py], which is not among the sources. The
    packet type is encoded in 2 bits, [OK=0], [FRAME=1], [REQUEST=2],
    [HALT=3]. *)
Inductive PacketType : Type := OK | FRAME | REQUEST | HALT.

(** [t.value] *)
Definition PacketType_value (t : PacketType) : Z :=
  match t with
  | OK => 0
  | FRAME => 1
  | REQUEST => 2
  | HALT => 3
  end.

(** [PacketType(v)]: the member with that value, ValueError when there is
    none. *)
Definition PacketType_of_value (v : Z) : outcome PacketType :=
  match v with
  | 0 => Return OK
  | 1 => Return FRAME
  | 2 => Return REQUEST
  | 3 => Return HALT
  | _ => Raise ValueError
  end.

Definition PacketType_eqb (s t : PacketType) : bool :=
  PacketType_value s =? PacketType_value t.

(** Modelled from the spec: the enumeration [PacketDataType] of
    [src/comm_protocol/PacketDataType.py], which is not among the sources.
    The payload element type is a tag from a closed set of four, encoded in
    2 bits, [U8=0], [I32=1], [F32=2], [F64=3]. The packet code names the
    member [U8_INT]. *)
Inductive PacketDataType : Type := U8_INT | I32_INT | F32_FLOAT | F64_FLOAT.

(** The 2-bit form that [serialize] ors into the header byte. *)
Definition bin_form (d : PacketDataType) : Z :=
  match d with
  | U8_INT => 0
  | I32_INT => 1
  | F32_FLOAT => 2
  | F64_FLOAT => 3
  end.

(** [member.value.type_]: the NumPy element type. *)
Definition type_ (d : PacketDataType) : dtype :=
  match d with
  | U8_INT => uint8
  | I32_INT => int32
  | F32_FLOAT => float32
  | F64_FLOAT => float64
  end.

(** [PacketDataType.from_dtype(payload.dtype)]; an element type outside the
    closed set has no tag, which is taken to raise ValueError. *)
Definition from_dtype (d : dtype) : outcome PacketDataType :=
  match d with
  | uint8 => Return U8_INT
  | int32 => Return I32_INT
  | float32 => Return F32_FLOAT
  | float64 => Return F64_FLOAT
  | int64 => Raise ValueError
  end.

(** [PacketDataType.from_bin_form(v)] *)
Definition from_bin_form (v : Z) : outcome PacketDataType :=
  match v with
  | 0 => Return U8_INT
  | 1 => Return I32_INT
  | 2 => Return F32_FLOAT
  | 3 => Return F64_FLOAT
  | _ => Raise ValueError
  end.

(** *** Class constants *)

Definition BYTE_ORDER : byteorder := Little.
Definition PROTOCOL_VER : Z := 2.                       (* 0b10 *)
Definition START_MAGIC_WORD : list byte := [x49; x4e; x55].       (* b"INU" *)
Definition END_MAGIC_WORD : list byte := [x4e; x45; x4b; x4f].    (* b"NEKO" *)
Definition LEN_START_MAGIC_WORD : nat := length START_MAGIC_WORD.
Definition LEN_PROVER_PTYPE_CCOUNT_DTYPE : nat := 1.
Definition BIT_LEN_PROTOCOL_VER : nat := 2.
Definition BIT_LEN_PACKET_TYPE : nat := 2.
Definition BIT_LEN_CHANNEL_COUNT : nat := 2.
Definition BIT_LEN_PAYLOAD_DTYPE : nat := 2.
Definition LEN_FRAME_NUMBER : nat := 4.
Definition LEN_FRAME_XY_SHAPE : nat := 4.
Definition LEN_PAYLOAD_LENGTH : nat := 4.
Definition LEN_PAYLOAD_CRC : nat := 2.
Definition LEN_END_MAGIC_WORD : nat := length END_MAGIC_WORD.

Definition PAYLOAD_LEN_IDX : nat :=
  (LEN_START_MAGIC_WORD + LEN_PROVER_PTYPE_CCOUNT_DTYPE
   + LEN_FRAME_NUMBER + LEN_FRAME_XY_SHAPE)%nat.

(** ["<" "3s" "1c" "I" "2H" "I"] *)
Definition PACKING_FORMAT_START : list Struct.item :=
  [Struct.s_ LEN_START_MAGIC_WORD]
    ++ repeat Struct.c_ LEN_PROVER_PTYPE_CCOUNT_DTYPE
    ++ [Struct.I_]
    ++ repeat Struct.H_ (Nat.div LEN_FRAME_XY_SHAPE 2)
    ++ [Struct.I_].

(** ["H" "4s"] *)
Definition PACKING_FORMAT_END : list Struct.item :=
  [Struct.H_; Struct.s_ LEN_END_MAGIC_WORD].

(** ["%ss" % payload_length] *)
Definition compute_payload_ser_format (payload_length : nat)
  : list Struct.item :=
  [Struct.s_ payload_length].

Definition bytes_to_int (data : list byte) : Z :=
  int_from_bytes data BYTE_ORDER.

(** *** The packet object *)

Record Packet : Type := mk_Packet {
  frame_number : Z;
  packet_type : PacketType;
  payload_dtype : PacketDataType;
  frame_shape : list Z;
  frame_channel_count : Z;
  payload : ndarray;
  payload_crc : Z
}.

(** [Packet.compute_crc] with [CRC_COMPUTER = fastcrc.crc16] *)
Definition compute_crc_of (payload : ndarray) : Z := Crc.arc (tobytes payload).

(** [Packet.__init__]. The attribute [frame_channel_count] is assigned for
    the shape [(0,)] (None stands for "not assigned") and then assigned
    again, for every shape, by the statement that follows. *)
Definition init (frame_number : Z) (packet_type : PacketType)
  (payload : ndarray) : outcome Packet :=
  payload_dtype <- from_dtype (dtype_of payload) ;;
  let frame_shape :=
    if shape_eqb (shape payload) [0]
    then [0; 0]
    else firstn 2 (shape payload) in
  let frame_channel_count : option Z :=
    if shape_eqb (shape payload) [0] then Some 0 else None in
  let frame_channel_count :=
    if (length (shape payload) <=? 2)%nat
    then 1
    else nth 2 (shape payload) 0 in
  Return (mk_Packet frame_number packet_type payload_dtype frame_shape
            frame_channel_count payload (compute_crc_of payload)).

Definition payload_length (p : Packet) : nat := length (tobytes (payload p)).

Definition is_valid (p : Packet) : bool :=
  (payload_crc p =? Crc.arc (tobytes (payload p))) && (0 <=? frame_number p).

(** The right-hand side of [==]: a packet or None. *)
Inductive pyobj : Type :=
| PyNone
| PyPacket (p : Packet).

(** [Packet.__eq__] *)
Definition eq (self : Packet) (other : pyobj) : bool :=
  match other with
  | PyNone => false
  | PyPacket other =>
      (frame_number self =? frame_number other)
      && PacketType_eqb (packet_type self) (packet_type other)
      && (payload_crc self =? payload_crc other)
      && shape_eqb (shape (payload self)) (shape (payload other))
      && eq_all (payload self) (payload other)
  end.

(** [PROTOCOL_VER << 6 | packet_type.value << 4 | frame_channel_count << 2
    | payload_dtype] *)
Definition header_byte (packet_type_value frame_channel_count payload_dtype : Z)
  : Z :=
  Z.lor (Z.lor (Z.lor (Z.shiftl PROTOCOL_VER 6)
                      (Z.shiftl packet_type_value 4))
               (Z.shiftl frame_channel_count 2))
        payload_dtype.

(** [Packet.serialize] *)
Definition serialize (p : Packet) : outcome (list byte) :=
  let proto_ptype_channelcount :=
    header_byte (PacketType_value (packet_type p)) (frame_channel_count p)
      (bin_form (payload_dtype p)) in
  proto_ptype_channelcount_bytes <-
    int_to_bytes proto_ptype_channelcount 1 BYTE_ORDER ;;
  let actual_payload_length := payload_length p in
  let actual_payload_length_format :=
    compute_payload_ser_format actual_payload_length in
  Struct.pack Little
    (PACKING_FORMAT_START ++ actual_payload_length_format
       ++ PACKING_FORMAT_END)
    ([Struct.VBytes START_MAGIC_WORD;
      Struct.VBytes proto_ptype_channelcount_bytes;
      Struct.VInt (frame_number p)]
       ++ map Struct.VInt (firstn 2 (frame_shape p))
       ++ [Struct.VInt (Z.of_nat (payload_length p));
           Struct.VBytes (tobytes (payload p));
           Struct.VInt (payload_crc p);
           Struct.VBytes END_MAGIC_WORD]).

(** [Packet.placeholder] *)
Definition placeholder : outcome Packet :=
  init 0 OK (mk_ndarray [0] (type_ U8_INT) []).

(** What [deserialize] has in its local variables when it reaches the
    comment "check if payload crc is valid". *)
Record decoded : Type := mk_decoded {
  d_packet_type : PacketType;
  d_frame_channel_count : Z;
  d_frame_number : Z;
  d_shape : list Z;
  d_payload : ndarray;
  d_payload_dtype : PacketDataType;
  d_payload_bin : list byte;
  d_payload_crc : Z
}.

(** [Packet.deserialize] from its first statement to the reshape of the
    payload. [Return None] is the bare [return] of the version check. *)
Definition deserialize_fields (raw_packet : list byte)
  : outcome (option decoded) :=
  let payload_length :=
    bytes_to_int
      (slice raw_packet PAYLOAD_LEN_IDX
         (PAYLOAD_LEN_IDX + LEN_PAYLOAD_LENGTH)) in
  let payload_length_format :=
    compute_payload_ser_format (Z.to_nat payload_length) in
  let format :=
    PACKING_FORMAT_START ++ payload_length_format ++ PACKING_FORMAT_END in
  packed_data <- Struct.unpack Little format raw_packet ;;
  match packed_data with
  | [_; Struct.VBytes prover_ptype_ccount; Struct.VInt frame_number;
     Struct.VInt frame_x_shape; Struct.VInt frame_y_shape; _;
     Struct.VBytes payload_bin; Struct.VInt payload_crc; _] =>
      let prover_ptype_ccount := bytes_to_int prover_ptype_ccount in
      let prover_ptype_ccount_pldtype_bin := bin_digits prover_ptype_ccount in
      proto_ver <-
        int_base2
          (slice prover_ptype_ccount_pldtype_bin 0 BIT_LEN_PROTOCOL_VER) ;;
      if negb (proto_ver =? PROTOCOL_VER) then Return None else
      packet_type_v <-
        int_base2
          (slice prover_ptype_ccount_pldtype_bin BIT_LEN_PROTOCOL_VER
             (BIT_LEN_PROTOCOL_VER + BIT_LEN_PACKET_TYPE)) ;;
      packet_type <- PacketType_of_value packet_type_v ;;
      frame_channel_count <-
        int_base2
          (slice prover_ptype_ccount_pldtype_bin
             (BIT_LEN_PROTOCOL_VER + BIT_LEN_PACKET_TYPE)
             (BIT_LEN_PROTOCOL_VER + BIT_LEN_PACKET_TYPE
              + BIT_LEN_CHANNEL_COUNT)) ;;
      payload_dtype_v <-
        int_base2
          (slice_from prover_ptype_ccount_pldtype_bin
             (BIT_LEN_PROTOCOL_VER + BIT_LEN_PACKET_TYPE
              + BIT_LEN_CHANNEL_COUNT)) ;;
      payload_dtype <- from_bin_form payload_dtype_v ;;
      payload <- frombuffer payload_bin (type_ payload_dtype) ;;
      let shape := [frame_x_shape; frame_y_shape; frame_channel_count] in
      let shape := if frame_channel_count =? 1 then firstn 2 shape else shape in
      payload <- reshape payload shape ;;
      Return (Some (mk_decoded packet_type frame_channel_count frame_number
                      shape payload payload_dtype payload_bin payload_crc))
  | _ => Raise StructError
  end.

(** [Packet.deserialize] from the CRC check to the end. *)
Definition deserialize_checked (d : decoded) : outcome (option Packet) :=
  if negb (d_payload_crc d =? Crc.arc (d_payload_bin d)) then Return None else
  deserialized <- placeholder ;;
  Return
    (Some (mk_Packet (d_frame_number d) (d_packet_type d) (d_payload_dtype d)
             (d_shape d) (d_frame_channel_count d) (d_payload d)
             (d_payload_crc d))).

(** [Packet.deserialize]: a packet, or None on a protocol version or CRC
    mismatch. *)
Definition deserialize (raw_packet : list byte) : outcome (option Packet) :=
  fields <- deserialize_fields raw_packet ;;
  match fields with
  | None => Return None
  | Some d => deserialize_checked d
  end.

(** *** Vocabulary for the properties of the codec *)

(** The wire layout: start word, header byte, frame number, the two
    dimensions, payload length, payload, CRC, end word. *)
Definition wire (header frame_number x y : Z) (payload_bin : list byte)
  (crc : Z) : list byte :=
  START_MAGIC_WORD
    ++ [byte_of_Z header]
    ++ le_bytes 4 frame_number
    ++ le_bytes 2 x
    ++ le_bytes 2 y
    ++ le_bytes 4 (Z.of_nat (length payload_bin))
    ++ payload_bin
    ++ le_bytes 2 crc
    ++ END_MAGIC_WORD.

(** The format and the values that [serialize] hands to [struct.pack]. *)
Definition packet_format (payload_length : nat) : list Struct.item :=
  PACKING_FORMAT_START ++ compute_payload_ser_format payload_length
    ++ PACKING_FORMAT_END.

Definition packet_values (header frame_number x y : Z)
  (payload_bin : list byte) (crc : Z) : list Struct.value :=
  [Struct.VBytes START_MAGIC_WORD; Struct.VBytes [byte_of_Z header];
   Struct.VInt frame_number; Struct.VInt x; Struct.VInt y;
   Struct.VInt (Z.of_nat (length payload_bin)); Struct.VBytes payload_bin;
   Struct.VInt crc; Struct.VBytes END_MAGIC_WORD].

(** The shape [deserialize] gives the payload: the channel axis is dropped
    when the channel count is 1. *)
Definition decoded_shape (x y c : Z) : list Z :=
  if c =? 1 then [x; y] else [x; y; c].

(** The payload length a buffer declares, and the payload bytes and the
    CRC it then holds. *)
Definition stored_payload_length (raw : list byte) : nat :=
  Z.to_nat (bytes_to_int (slice raw 12 16)).

Definition payload_bytes (raw : list byte) : list byte :=
  slice raw 16 (16 + stored_payload_length raw).

Definition stored_crc (raw : list byte) : Z :=
  bytes_to_int
    (slice raw (16 + stored_payload_length raw)
       (18 + stored_payload_length raw)).

(** The version check of [deserialize] on a header byte: the first two
    binary digits of the byte, read as a number, differ from the protocol
    version. *)
Definition version_rejected (header : Z) : bool :=
  match int_base2 (slice (bin_digits header) 0 BIT_LEN_PROTOCOL_VER) with
  | Return v => negb (v =? PROTOCOL_VER)
  | Raise _ => false
  end.

Definition dimension (d : Z) : bool := (0 <=? d) && (d <? 2 ^ 16).

Definition shape_ok (s : list Z) : bool :=
  match s with
  | [h; w] => dimension h && dimension w
  | [h; w; c] => dimension h && dimension w && (0 <=? c) && (c <=? 3)
  | _ => false
  end.

Definition supported (d : dtype) : bool :=
  match d with
  | int64 => false
  | _ => true
  end.

(** The arguments of a well-formed packet: a frame number of 32 bits, and a
    payload of a supported element type with two dimensions, or three the
    last of which is a channel count of at most 3, each of the first two on
    16 bits, whose bytes agree with its shape and are fewer than 2^32. *)
Definition well_formed (frame_number : Z) (payload : ndarray) : bool :=
  (0 <=? frame_number) && (frame_number <? 2 ^ 32)
  && supported (dtype_of payload)
  && shape_ok (shape payload)
  && (Z.of_nat (length (buffer payload))
      =? size payload * Z.of_nat (itemsize (dtype_of payload)))
  && (Z.of_nat (length (buffer payload)) <? 2 ^ 32).

(** A payload of shape [(h, w, 1)]. *)
Definition single_channel_3d (payload : ndarray) : bool :=
  match shape payload with
  | [_; _; c] => c =? 1
  | _ => false
  end.

(** [Packet.deserialize(p.serialize()) == p] for
    [p = Packet(frame_number, packet_type, payload)]. When [deserialize]
    returns None, Python evaluates the comparison as [p.__eq__(None)]. *)
Definition roundtrip_eq (frame_number : Z) (packet_type : PacketType)
  (payload : ndarray) : outcome bool :=
  p <- init frame_number packet_type payload ;;
  raw <- serialize p ;;
  q <- deserialize raw ;;
  match q with
  | Some q => Return (eq q (PyPacket p))
  | None => Return (eq p PyNone)
  end.

(** The statements of [deserialize] that follow the unpacking, up to the
    reshape of the payload, as a function of the unpacked header byte,
    frame number, dimensions, payload bytes and CRC. *)
Definition decode_unpacked (prover_ptype_ccount : list byte)
  (frame_number frame_x_shape frame_y_shape : Z) (payload_bin : list byte)
  (payload_crc : Z) : outcome (option decoded) :=
  let prover_ptype_ccount := bytes_to_int prover_ptype_ccount in
  let prover_ptype_ccount_pldtype_bin := bin_digits prover_ptype_ccount in
  proto_ver <-
    int_base2
      (slice prover_ptype_ccount_pldtype_bin 0 BIT_LEN_PROTOCOL_VER) ;;
  if negb (proto_ver =? PROTOCOL_VER) then Return None else
  packet_type_v <-
    int_base2
      (slice prover_ptype_ccount_pldtype_bin BIT_LEN_PROTOCOL_VER
         (BIT_LEN_PROTOCOL_VER + BIT_LEN_PACKET_TYPE)) ;;
  packet_type <- PacketType_of_value packet_type_v ;;
  frame_channel_count <-
    int_base2
      (slice prover_ptype_ccount_pldtype_bin
         (BIT_LEN_PROTOCOL_VER + BIT_LEN_PACKET_TYPE)
         (BIT_LEN_PROTOCOL_VER + BIT_LEN_PACKET_TYPE
          + BIT_LEN_CHANNEL_COUNT)) ;;
  payload_dtype_v <-
    int_base2
      (slice_from prover_ptype_ccount_pldtype_bin
         (BIT_LEN_PROTOCOL_VER + BIT_LEN_PACKET_TYPE
          + BIT_LEN_CHANNEL_COUNT)) ;;
  payload_dtype <- from_bin_form payload_dtype_v ;;
  payload <- frombuffer payload_bin (type_ payload_dtype) ;;
  let shape := [frame_x_shape; frame_y_shape; frame_channel_count] in
  let shape := if frame_channel_count =? 1 then firstn 2 shape else shape in
  payload <- reshape payload shape ;;
  Return (Some (mk_decoded packet_type frame_channel_count frame_number
                  shape payload payload_dtype payload_bin payload_crc)).

(** With four channels the channel count spills into the lower bit of the
    packet type: the header byte is that of a packet without channels, of
    type FRAME (for OK and FRAME) or HALT (for REQUEST and HALT). *)
Definition spilled (t : PacketType) : PacketType :=
  match t with
  | OK | FRAME => FRAME
  | REQUEST | HALT => HALT
  end.

(** [Packet(frame_number, PacketType.FRAME, image).serialize()], as the
    server sends a queue item. *)
Definition frame_bytes (item : Z * ndarray) : outcome (list byte) :=
  p <- init (fst item) FRAME (snd item) ;;
  serialize p.

End CommProtocol.

(* ===================================================================== *)
(** ** [raspberry_communication_protocol/Packet.py], the older codec *)
(* ===================================================================== *)

Module RaspberryProtocol.
Import Py Np.

(** Modelled from the spec: the enumeration [PacketType] of
    [raspberry_communication_protocol/PacketType.py], which is not among
    the sources; four members encoded in 2 bits as in the newer protocol. *)
Inductive PacketType : Type := OK | FRAME | REQUEST | HALT.

Definition PacketType_value (t : PacketType) : Z :=
  match t with
  | OK => 0
  | FRAME => 1
  | REQUEST => 2
  | HALT => 3
  end.

Definition PacketType_of_value (v : Z) : outcome PacketType :=
  match v with
  | 0 => Return OK
  | 1 => Return FRAME
  | 2 => Return REQUEST
  | 3 => Return HALT
  | _ => Raise ValueError
  end.

(** The attribute [packet_type] holds an enumeration member after
    [__init__] and the member's name after [deserialize]. *)
Inductive packet_type_attr : Type :=
| Member (t : PacketType)
| Name (t : PacketType).

(** Python [==] between two such values: a member never equals a string. *)
Definition packet_type_attr_eqb (a b : packet_type_attr) : bool :=
  match a, b with
  | Member s, Member t | Name s, Name t =>
      PacketType_value s =? PacketType_value t
  | _, _ => false
  end.

Definition BYTE_ORDER : byteorder := Big.
Definition PROTOCOL_VER : Z := 2.
Definition START_MAGIC_WORD : list byte := [x69; x6e; x75].       (* b"inu" *)
Definition END_MAGIC_WORD : list byte := [x6e; x65; x6b; x6f].    (* b"neko" *)
Definition LEN_START_MAGIC_WORD : nat := length START_MAGIC_WORD.
Definition LEN_PROVER_PTYPE_CCOUNT : nat := 1.
Definition BIT_LEN_PROTOCOL_VER : nat := 2.
Definition BIT_LEN_PACKET_TYPE : nat := 2.
Definition BIT_LEN_CHANNEL_COUNT : nat := 2.
Definition LEN_FRAME_NUMBER : nat := 4.
Definition LEN_FRAME_XY_SHAPE : nat := 4.
Definition LEN_PAYLOAD_LENGTH : nat := 4.
Definition LEN_PAYLOAD_CRC : nat := 2.
Definition LEN_END_MAGIC_WORD : nat := length END_MAGIC_WORD.

Definition PAYLOAD_LEN_IDX : nat :=
  (LEN_START_MAGIC_WORD + LEN_PROVER_PTYPE_CCOUNT
   + LEN_FRAME_NUMBER + LEN_FRAME_XY_SHAPE)%nat.

(** ["!" "3s" "1c" "I" "2H" "I"] *)
Definition PACKING_FORMAT_START : list Struct.item :=
  [Struct.s_ LEN_START_MAGIC_WORD]
    ++ repeat Struct.c_ LEN_PROVER_PTYPE_CCOUNT
    ++ [Struct.I_]
    ++ repeat Struct.H_ (Nat.div LEN_FRAME_XY_SHAPE 2)
    ++ [Struct.I_].

(** ["2s" "4s"] *)
Definition PACKING_FORMAT_END : list Struct.item :=
  [Struct.s_ LEN_PAYLOAD_CRC; Struct.s_ LEN_END_MAGIC_WORD].

Definition compute_payload_ser_format (payload_length : nat)
  : list Struct.item :=
  [Struct.s_ payload_length].

Definition bytes_to_int (data : list byte) : Z :=
  int_from_bytes data BYTE_ORDER.

(** [dtype=int]: NumPy's default integer. *)
Definition int_ : dtype := int64.

Record Packet : Type := mk_Packet {
  frame_number : Z;
  packet_type : packet_type_attr;
  frame_shape : list Z;
  frame_channel_count : Z;
  payload : ndarray;
  payload_crc : Z
}.

(** [Packet.compute_crc] with
    [CRC_COMPUTER = crc.Calculator(crc.Crc16.CCITT.value)] *)
Definition compute_crc_of (payload : ndarray) : Z :=
  Crc.ccitt (tobytes payload).

(** [Packet.__init__] *)
Definition init (frame_number : Z) (packet_type : PacketType)
  (payload : ndarray) : Packet :=
  let frame_shape := firstn 2 (shape payload) in
  let frame_channel_count :=
    if (length (shape payload) <=? 2)%nat
    then 1
    else nth 2 (shape payload) 0 in
  mk_Packet frame_number (Member packet_type) frame_shape frame_channel_count
    payload (compute_crc_of payload).

Definition payload_length (p : Packet) : nat := length (tobytes (payload p)).

(** [Packet.serialize]; the header byte is only built from a member. *)
Definition serialize (p : Packet) : outcome (list byte) :=
  match packet_type p with
  | Name _ => Raise AttributeError            (* str has no .value *)
  | Member t =>
      let proto_ptype_channelcount :=
        Z.lor (Z.lor (Z.shiftl PROTOCOL_VER 6)
                     (Z.shiftl (PacketType_value t) 4))
              (Z.shiftl (frame_channel_count p) 2) in
      proto_ptype_channelcount_bytes <-
        int_to_bytes proto_ptype_channelcount 1 Big ;;
      let actual_payload_length := payload_length p in
      let actual_payload_length_format :=
        compute_payload_ser_format actual_payload_length in
      crc_bytes <- int_to_bytes (payload_crc p) LEN_PAYLOAD_CRC Little ;;
      Struct.pack Big
        (PACKING_FORMAT_START ++ actual_payload_length_format
           ++ PACKING_FORMAT_END)
        ([Struct.VBytes START_MAGIC_WORD;
          Struct.VBytes proto_ptype_channelcount_bytes;
          Struct.VInt (frame_number p)]
           ++ map Struct.VInt (firstn 2 (frame_shape p))
           ++ [Struct.VInt (Z.of_nat (payload_length p));
               Struct.VBytes (tobytes (payload p));
               Struct.VBytes crc_bytes;
               Struct.VBytes END_MAGIC_WORD])
  end.

(** [Packet.placeholder]: [np.array(())] is an empty array of float64. *)
Definition placeholder : Packet :=
  init (-1) OK (mk_ndarray [0] float64 []).

(** The local variables of [deserialize] at the comment "check if payload
    crc is valid". *)
Record decoded : Type := mk_decoded {
  d_packet_type : PacketType;
  d_frame_channel_count : Z;
  d_frame_number : Z;
  d_shape : list Z;
  d_payload : ndarray;
  d_payload_bin : list byte;
  d_payload_crc : Z
}.

(** [Packet.deserialize] from its first statement to the reshape of the
    payload (the [print] of the unpacked tuple left out). *)
Definition deserialize_fields (raw_packet : list byte)
  : outcome (option decoded) :=
  let payload_length :=
    bytes_to_int
      (slice raw_packet PAYLOAD_LEN_IDX
         (PAYLOAD_LEN_IDX + LEN_PAYLOAD_LENGTH)) in
  let payload_length_format :=
    compute_payload_ser_format (Z.to_nat payload_length) in
  let format :=
    PACKING_FORMAT_START ++ payload_length_format ++ PACKING_FORMAT_END in
  packed_data <- Struct.unpack Big format raw_packet ;;
  match packed_data with
  | [_; Struct.VBytes prover_ptype_ccount; Struct.VInt frame_number;
     Struct.VInt frame_x_shape; Struct.VInt frame_y_shape; _;
     Struct.VBytes payload_bin; Struct.VBytes payload_crc; _] =>
      let prover_ptype_ccount := bytes_to_int prover_ptype_ccount in
      let payload_crc := bytes_to_int payload_crc in
      let prover_ptype_ccount_bin := bin_digits prover_ptype_ccount in
      proto_ver <-
        int_base2 (slice prover_ptype_ccount_bin 0 BIT_LEN_PROTOCOL_VER) ;;
      if negb (proto_ver =? PROTOCOL_VER) then Return None else
      packet_type_v <-
        int_base2
          (slice prover_ptype_ccount_bin BIT_LEN_PROTOCOL_VER
             (BIT_LEN_PROTOCOL_VER + BIT_LEN_PACKET_TYPE)) ;;
      packet_type <- PacketType_of_value packet_type_v ;;
      frame_channel_count <-
        int_base2
          (slice prover_ptype_ccount_bin
             (BIT_LEN_PROTOCOL_VER + BIT_LEN_PACKET_TYPE)
             (BIT_LEN_PROTOCOL_VER + BIT_LEN_PACKET_TYPE
              + BIT_LEN_CHANNEL_COUNT)) ;;
      payload <- frombuffer payload_bin int_ ;;
      let shape := [frame_x_shape; frame_y_shape; frame_channel_count] in
      payload <- reshape payload shape ;;
      Return (Some (mk_decoded packet_type frame_channel_count frame_number
                      shape payload payload_bin payload_crc))
  | _ => Raise StructError
  end.

(** [Packet.deserialize] from the CRC check to the end. *)
Definition deserialize_checked (d : decoded) : option Packet :=
  if d_payload_crc d =? Crc.ccitt (d_payload_bin d) then None else
  let deserialized := placeholder in
  Some (mk_Packet (d_frame_number d) (Name (d_packet_type d))
          (d_shape d) (d_frame_channel_count d) (d_payload d)
          (payload_crc deserialized)).

Definition deserialize (raw_packet : list byte) : outcome (option Packet) :=
  fields <- deserialize_fields raw_packet ;;
  match fields with
  | None => Return None
  | Some d => Return (deserialize_checked d)
  end.

(** The payload length a buffer declares, and the payload bytes and the
    CRC it then holds, as this decoder reads them. *)
Definition stored_payload_length (raw : list byte) : nat :=
  Z.to_nat (bytes_to_int (slice raw 12 16)).

Definition payload_bytes (raw : list byte) : list byte :=
  slice raw 16 (16 + stored_payload_length raw).

Definition stored_crc (raw : list byte) : Z :=
  bytes_to_int
    (slice raw (16 + stored_payload_length raw)
       (18 + stored_payload_length raw)).

(** [PROTOCOL_VER << 6 | packet_type.value << 4 | frame_channel_count << 2],
    the header byte of [serialize]. *)
Definition header_byte (packet_type_value frame_channel_count : Z) : Z :=
  Z.lor (Z.lor (Z.shiftl PROTOCOL_VER 6) (Z.shiftl packet_type_value 4))
        (Z.shiftl frame_channel_count 2).

(** The layout [serialize] writes: multi-byte integers most significant
    byte first, except the CRC, least significant byte first. *)
Definition wire (header frame_number x y : Z) (payload_bin : list byte)
  (crc : Z) : list byte :=
  START_MAGIC_WORD
    ++ [byte_of_Z header]
    ++ rev (le_bytes 4 frame_number)
    ++ rev (le_bytes 2 x)
    ++ rev (le_bytes 2 y)
    ++ rev (le_bytes 4 (Z.of_nat (length payload_bin)))
    ++ payload_bin
    ++ le_bytes 2 crc
    ++ END_MAGIC_WORD.

Definition packet_format (payload_length : nat) : list Struct.item :=
  PACKING_FORMAT_START ++ compute_payload_ser_format payload_length
    ++ PACKING_FORMAT_END.

Definition packet_values (header frame_number x y : Z)
  (payload_bin : list byte) (crc : Z) : list Struct.value :=
  [Struct.VBytes START_MAGIC_WORD; Struct.VBytes [byte_of_Z header];
   Struct.VInt frame_number; Struct.VInt x; Struct.VInt y;
   Struct.VInt (Z.of_nat (length payload_bin)); Struct.VBytes payload_bin;
   Struct.VBytes (le_bytes 2 crc); Struct.VBytes END_MAGIC_WORD].

(** A CRC that [serialize] wrote least significant byte first, as
    [deserialize] reads it, most significant byte first. *)
Definition crc_as_read (crc : Z) : Z := bytes_to_int (le_bytes 2 crc).

Definition dimension (d : Z) : bool := (0 <=? d) && (d <? 2 ^ 16).

(** The dimensions and the channel count [__init__] derives from a shape of
    two or three dimensions. *)
Definition dims_of (s : list Z) : option (Z * Z * Z) :=
  match s with
  | [h; w] => Some (h, w, 1)
  | [h; w; c] => Some (h, w, c)
  | _ => None
  end.

(** The arguments this codec can carry: a frame number of 32 bits and a
    payload of two dimensions, or three with at most 3 channels, the first
    two on 16 bits, of 8 bytes per element and fewer than 2^32 bytes. *)
Definition well_formed (frame_number : Z) (payload : ndarray) : bool :=
  (0 <=? frame_number) && (frame_number <? 2 ^ 32)
  && match dims_of (shape payload) with
     | Some (h, w, c) =>
         dimension h && dimension w && (0 <=? c) && (c <=? 3)
         && (Z.of_nat (length (buffer payload)) =? h * w * c * 8)
     | None => false
     end
  && (Z.of_nat (length (buffer payload)) <? 2 ^ 32).

(** The packet [deserialize] builds from the fields it has read. *)
Definition decoded_packet (frame_number : Z) (t : PacketType) (h w c : Z)
  (payload_bin : list byte) : Packet :=
  mk_Packet frame_number (Name t) [h; w; c] c
    (mk_ndarray [h; w; c] int_ payload_bin) (payload_crc placeholder).

End RaspberryProtocol.

(* ===================================================================== *)
(** ** [src/comm_protocol/server/FrameTCPServerRequestHandler.py] *)
(* ===================================================================== *)

Module Server.
Import Py Np CommProtocol.

(** An item of the frames queue: [(frame_number, image)]. *)
Definition item : Type := (Z * ndarray)%type.

(** The attributes of [FrameTCPServer] the handler touches, and what the
    handler has written to its connection: one entry per [sendall]. *)
Record server : Type := mk_server {
  frames_queue : list item;                 (* head = next item out *)
  halt_server_event : bool;
  current_data_to_send : option item;
  socket_closed : bool;
  sent : list (list byte)
}.

Definition set_current (c : option item) (s : server) : server :=
  mk_server (frames_queue s) (halt_server_event s) c (socket_closed s)
    (sent s).

Definition set_queue (q : list item) (s : server) : server :=
  mk_server q (halt_server_event s) (current_data_to_send s)
    (socket_closed s) (sent s).

Definition set_halt (h : bool) (s : server) : server :=
  mk_server (frames_queue s) h (current_data_to_send s) (socket_closed s)
    (sent s).

Definition close_socket (s : server) : server :=
  mk_server (frames_queue s) (halt_server_event s) (current_data_to_send s)
    true (sent s).

Definition sendall (data : list byte) (s : server) : server :=
  mk_server (frames_queue s) (halt_server_event s) (current_data_to_send s)
    (socket_closed s) (sent s ++ [data]).

(** What the other threads do while the handler waits on an empty queue,
    one entry per wait: the producer puts an item, or the wait of
    [get(block=True, timeout=1)] and the following [sleep(1)] pass with the
    queue still empty and the halt event as given. *)
Inductive wait : Type :=
| Arrives (i : item)
| TimesOut (halt_raised : bool).

(** [_send_current_data] *)
Definition _send_current_data (s : server) : outcome server :=
  match current_data_to_send s with
  | None => Raise TypeError                 (* cannot unpack None *)
  | Some (frame_number, image) =>
      packet <- init frame_number FRAME image ;;
      data <- serialize packet ;;
      Return (sendall data s)
  end.

(** The loop of [_update_new_data_to_send], entered with
    [current_data_to_send = None]. The result is None when the handler is
    still waiting at the end of the schedule. *)
Fixpoint acquire (s : server) (env : list wait)
  : option (server * list wait) :=
  match frames_queue s with
  | i :: q => Some (set_current (Some i) (set_queue q s), env)
  | [] =>
      match env with
      | [] => None
      | Arrives i :: env' => Some (set_current (Some i) s, env')
      | TimesOut h :: env' =>
          let s := set_halt (halt_server_event s || h) s in
          if halt_server_event s
          then Some (s, env')                                     (* break *)
          else acquire s env'
      end
  end.

(** [_update_new_data_to_send]: the new state, what is left of the schedule
    and the returned flag. *)
Definition _update_new_data_to_send (s : server) (env : list wait)
  : option (server * list wait * bool) :=
  match acquire (set_current None s) env with
  | None => None
  | Some (s', env') =>
      Some (s', env',
            match current_data_to_send s' with
            | Some _ => true
            | None => false
            end)
  end.

(** How one turn of the loop of [handle] ends. *)
Inductive control : Type :=
| Continue        (* back to the top of [while True] *)
| Break           (* HALT: the handler returns *)
| Waiting.        (* blocked on the queue at the end of the schedule *)

(** The body of the loop of [handle] from "Deserializing packet" on, for
    the bytes [data + rest_data] of one framed request. *)
Definition dispatch (raw : list byte) (s : server) (env : list wait)
  : outcome (server * list wait * control) :=
  deserialized <- deserialize raw ;;
  match deserialized with
  | None => Raise AttributeError            (* None has no packet_type *)
  | Some deserialized =>
      match packet_type deserialized with
      | OK =>
          match _update_new_data_to_send s env with
          | None => Return (set_current None s, [], Waiting)
          | Some (s', env', true) =>
              s'' <- _send_current_data s' ;;
              Return (s'', env', Continue)
          | Some (s', env', false) => Return (s', env', Continue)
          end
      | REQUEST =>
          s' <- _send_current_data s ;;
          Return (s', env, Continue)
      | HALT => Return (close_socket s, env, Break)
      | FRAME => Return (s, env, Continue)
      end
  end.

(** What [PacketHandler] (not among the sources) hands to one turn of the
    loop: no start word, no end word, or the bytes of a framed request. *)
Inductive inbound : Type :=
| NoStartWord
| NoEndWord
| Framed (raw : list byte).

(** [handle] over the requests that arrive on the connection. *)
Fixpoint handle (reqs : list inbound) (s : server) (env : list wait)
  : outcome (server * control) :=
  match reqs with
  | [] => Return (s, Continue)
  | NoStartWord :: reqs' | NoEndWord :: reqs' => handle reqs' s env
  | Framed raw :: reqs' =>
      r <- dispatch raw s env ;;
      match r with
      | (s', env', Continue) => handle reqs' s' env'
      | (s', _, c) => Return (s', c)
      end
  end.

(** *** Vocabulary for the properties of the handler *)

(** A framed request that decodes to a packet of type OK. *)
Definition is_ok_request (raw : list byte) : Prop :=
  exists q, deserialize raw = Return (Some q) /\ packet_type q = OK.

(** What the handler keeps from one state to a later one: the queue only
    loses items at its head, the sent data only grows, a raised halt event
    stays raised, the socket stays as it is. *)
Definition follows (s s' : server) : Prop :=
  (exists k, frames_queue s' = skipn k (frames_queue s))
  /\ (exists new, sent s' = sent s ++ new)
  /\ (halt_server_event s = true -> halt_server_event s' = true)
  /\ socket_closed s' = socket_closed s.

End Server.

(* ===================================================================== *)
(** ** [pattern_tracking/proper/logic/video/VideoReader.py] *)
(* ===================================================================== *)

Module Reader.
Import Py Np.

Definition frame : Type := ndarray.

(** What [cv.VideoCapture(feed_origin)] finds behind a feed origin: whether
    it opens, and the frames it then delivers. *)
Record origin : Type := mk_origin {
  opens : bool;
  content : list frame
}.

(** A [cv.VideoCapture]. *)
Record capture : Type := mk_capture {
  source : list frame;       (* all frames, from position 0 *)
  remaining : list frame;    (* frames from the current position on *)
  opened : bool
}.

Definition VideoCapture (o : origin) : capture :=
  mk_capture (content o) (content o) (opens o).

Definition isOpened (c : capture) : bool := opened c.

(** [c.read()]: [(ret, frame)] and the capture advanced. *)
Definition read (c : capture) : option frame * capture :=
  match remaining c with
  | [] => (None, c)
  | f :: r => (Some f, mk_capture (source c) r (opened c))
  end.

(** [c.set(cv.CAP_PROP_POS_MSEC, 0)] *)
Definition rewind (c : capture) : capture :=
  mk_capture (source c) (source c) (opened c).

Definition release (c : capture) : capture :=
  mk_capture (source c) (remaining c) false.

(** The two events, as the reader thread observes them: the value that the
    [n]-th call of [is_set] returns. They are set by other threads. *)
Record signals : Type := mk_signals {
  halt_is_set : nat -> bool;
  reset_is_set : nat -> bool
}.

(** *** [queue.Queue] *)

(** An item of the frames queue: [(frame_id, frame)]. *)
Definition item : Type := Z * frame.

(** A [queue.Queue(maxsize)] and the items it holds, oldest first. The
    queue is bounded when [maxsize] is positive. *)
Record Queue : Type := mk_Queue {
  maxsize : Z;
  items : list item
}.

Definition qsize (q : Queue) : Z := Z.of_nat (length (items q)).

(** The test [put] waits on: [maxsize > 0] and [qsize() >= maxsize]. *)
Definition no_room (q : Queue) : bool :=
  (0 <? maxsize q) && (maxsize q <=? qsize q).

(** The other threads take [n] items off the queue. *)
Definition taken_off (n : nat) (q : Queue) : Queue :=
  mk_Queue (maxsize q) (skipn n (items q)).

(** What the threads that read the queue do, as a thread that puts sees
    it: [taken n] is the number of items they take off the queue between
    the return of the previous [put] and the return of the [put] that
    follows [n] earlier ones. *)
Definition consumer : Type := nat -> nat.

(** [q.put(i)], blocking and without a timeout, while the other threads
    take [n] items: the item is appended as soon as the queue has room;
    [None] when the call does not return, the queue being full with no
    item taken. *)
Definition Queue_put (i : item) (n : nat) (q : Queue) : option Queue :=
  let q := taken_off n q in
  if no_room q then None
  else Some (mk_Queue (maxsize q) (items q ++ [i])).

(** *** The reader *)

(** What the threads of a reader do that others can see: an item handed
    over by a [put] that has returned, and the video set back to its
    start. *)
Inductive event : Type :=
  | Put (i : item)
  | Rewound.

(** The reader object. [_is_video] is read by [_run] and assigned by
    [change_feed]; its first value and [_frames_queue], made from
    [max_frames_in_queue], come from [AbstractFrameProvider], which is not
    among the sources. [trace] lists the events of the threads of this
    reader, oldest first. *)
Record reader : Type := mk_reader {
  _video_feed : capture;
  _is_video : bool;
  _loop : bool;
  _frames_shape : list Z;
  _frames_queue : Queue;
  trace : list event;
  clock : nat                 (* calls of [is_set] so far *)
}.

Definition put_items (e : event) : list item :=
  match e with
  | Put i => [i]
  | Rewound => []
  end.

(** The items handed to [_frames_queue.put], oldest first. *)
Definition puts (r : reader) : list item := flat_map put_items (trace r).

Definition with_feed (c : capture) (r : reader) : reader :=
  mk_reader c (_is_video r) (_loop r) (_frames_shape r) (_frames_queue r)
    (trace r) (clock r).

Definition tick (r : reader) : reader :=
  mk_reader (_video_feed r) (_is_video r) (_loop r) (_frames_shape r)
    (_frames_queue r) (trace r) (S (clock r)).

(** [self._frames_queue.put(i)]: [None] when the call does not return. *)
Definition put (i : item) (taken : consumer) (r : reader) : option reader :=
  match Queue_put i (taken (length (puts r))) (_frames_queue r) with
  | Some q =>
      Some (mk_reader (_video_feed r) (_is_video r) (_loop r)
              (_frames_shape r) q (trace r ++ [Put i]) (clock r))
  | None => None
  end.

(** [self._video_feed.set(cv.CAP_PROP_POS_MSEC, 0)] *)
Definition rewound (r : reader) : reader :=
  mk_reader (rewind (_video_feed r)) (_is_video r) (_loop r)
    (_frames_shape r) (_frames_queue r) (trace r ++ [Rewound]) (clock r).

(** [not self._halt_event.is_set() and not self._reset_event.is_set()],
    evaluated left to right. *)
Definition may_continue (w : signals) (r : reader) : bool * reader :=
  if halt_is_set w (clock r) then (false, tick r)
  else if reset_is_set w (S (clock r)) then (false, tick (tick r))
  else (true, tick (tick r)).

(** The inner [while] of [_run]; [n] bounds its turns and is taken at least
    as large as the number of frames left. The result is the reader and
    [true] when the thread has left the loop, [false] when it stays in a
    [put] that does not return. *)
Fixpoint read_frames (n : nat) (w : signals) (taken : consumer)
  (frame_id : Z) (r : reader) : reader * bool :=
  match n with
  | O => (r, true)
  | S n' =>
      if isOpened (_video_feed r) then
        let (go, r) := may_continue w r in
        if go then
          match read (_video_feed r) with
          | (None, c) => (with_feed c r, true)                  (* break *)
          | (Some f, c) =>
              match put (frame_id, f) taken (with_feed c r) with
              | Some r => read_frames n' w taken (frame_id + 1) r
              | None => (with_feed c r, false)
              end
          end
        else (r, true)
      else (r, true)
  end.

(** Where a thread is. *)
Inductive status : Type :=
  | Finished                  (* the function has returned *)
  | Running                   (* still in its loop *)
  | Blocked.                  (* in a [put] that does not return *)

(** [_run]; [passes] bounds the turns of the outer [while]. The result is
    the reader as the thread leaves it, with [Finished] when the thread
    has finished, [Running] when it is still running after that many
    passes and [Blocked] when a [put] does not return. *)
Fixpoint _run (passes : nat) (w : signals) (taken : consumer) (r : reader)
  : reader * status :=
  match passes with
  | O => (r, Running)
  | S passes' =>
      let frame_id := 0 in
      match
        read_frames (S (length (remaining (_video_feed r)))) w taken
          frame_id r
      with
      | (r, false) => (r, Blocked)
      | (r, true) =>
          if _loop r then
            let (go, r) := may_continue w r in
            if go
            then _run passes' w taken (rewound r)
            else (with_feed (release (_video_feed r)) r, Finished)
          else (with_feed (release (_video_feed r)) r, Finished)
      end
  end.

(** [_initialize_reader] *)
Definition _initialize_reader (feed_origin : origin) (r : reader)
  : outcome reader :=
  let c := VideoCapture feed_origin in
  if isOpened c then Return (with_feed c r) else Raise IOError.

(** [change_feed], called on a reader whose thread has been started with
    [_run]: [old] is the schedule under which that thread runs until
    [join] returns (the reset event is set in it from the call on), [new]
    the schedule of the thread started at the end. [None] when [join]
    does not return. *)
Definition change_feed (passes : nat) (old new : signals) (taken : consumer)
  (r : reader) (feed_origin : origin) (is_video loop_video : bool)
  : outcome (option (reader * status)) :=
  match _run passes old taken r with
  | (r, Finished) =>
      r <- _initialize_reader feed_origin r ;;
      let r := mk_reader (_video_feed r) is_video loop_video
                 (_frames_shape r) (_frames_queue r) (trace r) 0 in
      Return (Some (_run passes new taken r))
  | (_, _) => Return None                                (* join blocks *)
  end.

(** *** Vocabulary for the properties of the reader *)

(** The frames [fs] numbered [frame_id], [frame_id + 1], ... *)
Fixpoint numbered (frame_id : Z) (fs : list frame) : list item :=
  match fs with
  | [] => []
  | f :: fs' => (frame_id, f) :: numbered (frame_id + 1) fs'
  end.

(** The numbers 0, 1, 2, ... in this order. *)
Definition counts_from_zero (ns : list Z) : Prop :=
  forall i : nat, (i < length ns)%nat -> nth i ns 0 = Z.of_nat i.

(** Each number is one more than the one before it. *)
Fixpoint steps_by_one (ns : list Z) : bool :=
  match ns with
  | a :: (b :: _) as rest => (b =? a + 1) && steps_by_one rest
  | _ => true
  end.

Definition frame_numbers (items : list item) : list Z :=
  map fst items.

(** The events of passes over the frames [segs], one list of frames for
    each pass: the frames of a pass are put with the numbers 0, 1, 2, ...,
    and the video is set back between two passes. *)
Fixpoint passes_trace (segs : list (list frame)) : list event :=
  match segs with
  | [] => []
  | s :: rest =>
      map Put (numbered 0 s)
        ++ match rest with
           | [] => []
           | _ :: _ => Rewound :: passes_trace rest
           end
  end.

(** [s] is the beginning of [l]. *)
Definition begins (l s : list frame) : Prop :=
  exists k : nat, s = firstn k l.

(** Signals that no [is_set] ever observes. *)
Definition quiet : signals := mk_signals (fun _ => false) (fun _ => false).

(** The reset event observed from the [n]-th call of [is_set] on. *)
Definition reset_from (n : nat) : signals :=
  mk_signals (fun _ => false) (fun k => Nat.leb n k).

(** No thread takes anything off the queue. *)
Definition nobody : consumer := fun _ => 0%nat.

(** For each [put], one item is taken off the queue. *)
Definition one_each : consumer := fun _ => 1%nat.

(** No [put] has to wait for ever: the queue is unbounded, or it holds no
    more than its bound and at least one item is taken off it for each
    [put]. *)
Definition keeps_up (taken : consumer) (q : Queue) : Prop :=
  maxsize q <= 0
  \/ (qsize q <= maxsize q /\ forall n : nat, (1 <= taken n)%nat).

(** [VideoReader.__init__] on the object [base] as
    [AbstractFrameProvider.__init__] leaves it: the feed is opened and its
    first frame is read for its shape; AttributeError when there is no
    first frame ([None] has no [shape]). *)
Definition init (base : reader) (feed_origin : origin)
  (is_video loop_video : bool) : outcome reader :=
  let r :=
    mk_reader (_video_feed base) (_is_video base) (loop_video && is_video)
      (_frames_shape base) (_frames_queue base) (trace base) (clock base) in
  r <- _initialize_reader feed_origin r ;;
  match read (_video_feed r) with
  | (Some f, c) =>
      Return (mk_reader c (_is_video r) (_loop r) (shape f)
                (_frames_queue r) (trace r) (clock r))
  | (None, _) => Raise AttributeError
  end.

(** [get_shape] *)
Definition get_shape (r : reader) : list Z := _frames_shape r.

(** An event that every call of [is_set] from the [k]-th on finds set. *)
Definition stays_set (is_set : nat -> bool) (k : nat) : Prop :=
  forall n : nat, (k <= n)%nat -> is_set n = true.

End Reader.

(* ===================================================================== *)
(** ** [pattern_tracking/utils.py] *)
(* ===================================================================== *)

Module Utils.
Import Py.

(** [pt[i]] on a one-dimensional array. *)
Definition getitem (pt : list Z) (i : nat) : outcome Z :=
  match nth_error pt i with
  | Some v => Return v
  | None => Raise IndexError
  end.

(** [normalize_region] *)
Definition normalize_region (pt1 pt2 : list Z) : outcome (list (list Z)) :=
  x1 <- getitem pt1 0 ;;
  x2 <- getitem pt2 0 ;;
  let x_coords := [x1; x2] in
  y1 <- getitem pt1 1 ;;
  y2 <- getitem pt2 1 ;;
  let y_coords := [y1; y2] in
  let min_x_index := min_by (fun i => nth i x_coords 0) 0%nat [1%nat] in
  let min_x := nth min_x_index x_coords 0 in
  let max_x := nth (Nat.modulo (min_x_index + 1) 2) x_coords 0 in
  let min_y_index := min_by (fun i => nth i y_coords 0) 0%nat [1%nat] in
  let min_y := nth min_y_index y_coords 0 in
  let max_y := nth (Nat.modulo (min_y_index + 1) 2) y_coords 0 in
  Return [[min_x; min_y]; [max_x; max_y]].

(** An image as the functions of this file see it: the first two
    dimensions of its shape, and its elements by row and column (an
    element is a pixel, with all its channels). *)
Record image (A : Type) : Type := mk_image {
  height : Z;                 (* shape[0] *)
  width : Z;                  (* shape[1] *)
  at_ : Z -> Z -> A
}.
Arguments mk_image {A} height width at_.
Arguments height {A} i.
Arguments width {A} i.
Arguments at_ {A} i row col.

(** Where an end [i] of a slice falls in a sequence of length [n]: an index
    below 0 counts from the end, and the result is clipped to the
    sequence. *)
Definition slice_bound (n i : Z) : Z :=
  if i <? 0 then Z.max (i + n) 0 else Z.min i n.

(** [img[y0:y1, x0:x1]] *)
Definition crop {A} (img : image A) (y0 y1 x0 x1 : Z) : image A :=
  let top := slice_bound (height img) y0 in
  let bottom := slice_bound (height img) y1 in
  let left := slice_bound (width img) x0 in
  let right := slice_bound (width img) x1 in
  mk_image (Z.max (bottom - top) 0) (Z.max (right - left) 0)
    (fun row col => at_ img (top + row) (left + col)).

(** [get_roi] *)
Definition get_roi {A} (img : image A) (x w y h : Z) : image A :=
  let x_edge := x + w in
  let y_edge := y + h in
  let x := if x <? 0 then 0 else x in
  let y := if y <? 0 then 0 else y in
  let x_edge := if width img <? x_edge then width img else x_edge in
  let y_edge := if height img <? y_edge then height img else y_edge in
  crop img y y_edge x x_edge.

(** The state of [video_reader]: the capture, the queue
    [w_read_frames_q], the items handed to its [put], the halt event as
    this function has set it, and the number of calls of [is_set]. *)
Record reading : Type := mk_reading {
  video : Reader.capture;
  w_read_frames_q : Reader.Queue;
  written : list Reader.item;
  halt_set : bool;
  observed : nat
}.

(** The [while] of [video_reader]; [n] bounds its turns and is taken larger
    than the number of frames left. [halt_is_set k] is what the [k]-th call
    of [halt_event.is_set()] returns, and [taken] what the readers of the
    queue do. The result is the state and [true] when the loop is left,
    [false] when a [put] does not return. *)
Fixpoint video_reader_loop (n : nat) (halt_is_set : nat -> bool)
  (taken : Reader.consumer) (frame_id : Z) (s : reading) : reading * bool :=
  match n with
  | O => (s, true)
  | S n' =>
      if Reader.isOpened (video s) then
        if halt_is_set (observed s) then
          (mk_reading (video s) (w_read_frames_q s) (written s) (halt_set s)
             (S (observed s)), true)
        else
          match Reader.read (video s) with
          | (None, c) =>
              (mk_reading c (w_read_frames_q s) (written s) (halt_set s)
                 (S (observed s)), true)
          | (Some f, c) =>
              match
                Reader.Queue_put (frame_id, f) (taken (length (written s)))
                  (w_read_frames_q s)
              with
              | Some q =>
                  video_reader_loop n' halt_is_set taken (frame_id + 1)
                    (mk_reading c q (written s ++ [(frame_id, f)])
                       (halt_set s) (S (observed s)))
              | None =>
                  (mk_reading c (w_read_frames_q s) (written s) (halt_set s)
                     (S (observed s)), false)
              end
          end
      else (s, true)
  end.

(** [video_reader]: the loop from frame number 0, then [halt_event.set()].
    The result is the state and [true] when the function returns, [false]
    when it stays in a [put]. *)
Definition video_reader (video : Reader.capture)
  (w_read_frames_q : Reader.Queue) (halt_is_set : nat -> bool)
  (taken : Reader.consumer) : reading * bool :=
  match
    video_reader_loop (S (length (Reader.remaining video))) halt_is_set
      taken 0 (mk_reading video w_read_frames_q [] false 0)
  with
  | (s, true) =>
      (mk_reading (Utils.video s) (Utils.w_read_frames_q s) (written s) true
         (observed s), true)
  | (s, false) => (s, false)
  end.

End Utils.

(* ===================================================================== *)
(** ** Concrete packets and buffers *)
(* ===================================================================== *)

Module Scenario.
Import Py Np.

(** Scenario S1: a 2 x 2 x 3 array of uint8, all elements 4. *)
Definition S1_payload : ndarray := mk_ndarray [2; 2; 3] uint8 (repeat x04 12).

(** The 34 bytes that scenario S1 announces for frame number 0xFA: header
    byte A4, CRC bytes A3 4F. *)
Definition S1_announced : list byte :=
  [x49; x4e; x55; xa4; xfa; x00; x00; x00; x02; x00; x02; x00;
   x0c; x00; x00; x00]
    ++ repeat x04 12 ++ [xa3; x4f; x4e; x45; x4b; x4f].

(** The 34 bytes [serialize] produces: header byte 9C, CRC bytes 60 6F. *)
Definition S1_bytes : list byte :=
  [x49; x4e; x55; x9c; xfa; x00; x00; x00; x02; x00; x02; x00;
   x0c; x00; x00; x00]
    ++ repeat x04 12 ++ [x60; x6f; x4e; x45; x4b; x4f].

(** The packet [Packet(0xFA, PacketType.FRAME, S1_payload)]. *)
Definition S1_packet : CommProtocol.Packet :=
  CommProtocol.mk_Packet 0xFA CommProtocol.FRAME CommProtocol.U8_INT [2; 2] 3
    S1_payload 0x6F60.

(** The packet [deserialize] returns for the 34 bytes of [S1_bytes]: its
    frame shape has the three dimensions of the payload. *)
Definition S1_decoded : CommProtocol.Packet :=
  CommProtocol.mk_Packet 0xFA CommProtocol.FRAME CommProtocol.U8_INT
    [2; 2; 3] 3 S1_payload 0x6F60.

(** Scenario S2: [np.array((), dtype=np.uint8)], of shape [(0,)]. *)
Definition empty_payload : ndarray := mk_ndarray [0] uint8 [].

(** A 1 x 1 x 1 array of uint8. *)
Definition pixel_payload : ndarray := mk_ndarray [1; 1; 1] uint8 [x00].

(** The encoding of the empty OK packet with the two version bits of its
    header byte changed from 10 to 01: 0x84 becomes 0x44. *)
Definition version_01_buffer : list byte :=
  [x49; x4e; x55; x44] ++ repeat x00 14 ++ [x4e; x45; x4b; x4f].

(** As above with the version bits 11: 0xC4. *)
Definition version_11_buffer : list byte :=
  [x49; x4e; x55; xc4] ++ repeat x00 14 ++ [x4e; x45; x4b; x4f].

(** A video file of two frames, and a reader on it that loops. *)
Definition two_frames : Reader.origin :=
  Reader.mk_origin true
    [mk_ndarray [1; 1] uint8 [x07]; mk_ndarray [1; 1] uint8 [x08]].

Definition looping_reader : Reader.reader :=
  Reader.mk_reader (Reader.VideoCapture two_frames) true true [1; 1]
    (Reader.mk_Queue 30 []) [] 0.

(** The same reader without looping. *)
Definition plain_reader : Reader.reader :=
  Reader.mk_reader (Reader.VideoCapture two_frames) true false [1; 1]
    (Reader.mk_Queue 30 []) [] 0.

(** The same reader with a queue of one place. *)
Definition narrow_reader : Reader.reader :=
  Reader.mk_reader (Reader.VideoCapture two_frames) true false [1; 1]
    (Reader.mk_Queue 1 []) [] 0.

(** The plain reader after [change_feed] to the same file, when the reset
    event is observed by the fourth call of [is_set] of the running thread,
    nothing stops the new thread and nothing is taken off the queue. *)
Definition after_change_feed : Reader.reader :=
  Eval vm_compute in
    match
      Reader.change_feed 5 (Reader.reset_from 3) Reader.quiet Reader.nobody
        plain_reader two_frames true false
    with
    | Return (Some (r, _)) => r
    | _ => plain_reader
    end.

(** A buffer that declares a payload of 0 bytes and holds 1 byte between
    the header and the CRC. *)
Definition overlong_buffer : list byte :=
  [x49; x4e; x55; x84] ++ repeat x00 12 ++ [x04; x00; x00]
    ++ [x4e; x45; x4b; x4f].

(** The older wire layout of an OK packet without payload and with the CRC
    of the empty string, 0. *)
Definition old_empty_buffer : list byte :=
  [x69; x6e; x75; x80] ++ repeat x00 14 ++ [x6e; x65; x6b; x6f].

(** The same with a stored CRC of 1, which is not the CRC of its payload. *)
Definition old_wrong_crc_buffer : list byte :=
  [x69; x6e; x75; x80] ++ repeat x00 12 ++ [x00; x01]
    ++ [x6e; x65; x6b; x6f].

(** Requests without payload, as a client sends them: OK, REQUEST, HALT. *)
Definition ok_request : list byte :=
  [x49; x4e; x55; x84] ++ repeat x00 14 ++ [x4e; x45; x4b; x4f].

Definition request_request : list byte :=
  [x49; x4e; x55; xa4] ++ repeat x00 14 ++ [x4e; x45; x4b; x4f].

Definition halt_request : list byte :=
  [x49; x4e; x55; xb4] ++ repeat x00 14 ++ [x4e; x45; x4b; x4f].

(** A 1 x 1 image of uint8. *)
Definition pixel (v : byte) : ndarray := mk_ndarray [1; 1] uint8 [v].

(** Scenario S4: a server with two frames queued and nothing sent yet. *)
Definition S4_server : Server.server :=
  Server.mk_server [(0, pixel x07); (1, pixel x08)] false None false [].


End Scenario.

(* ===================================================================== *)
(** * Properties *)
(* ===================================================================== *)

(** ** Bytes and integers *)

Module PyFacts.
Import Py.

Lemma Z_of_byte_range (b : byte) : 0 <= Z_of_byte b < 256.
Proof.
  unfold Z_of_byte. pose proof (Byte.to_N_bounded b). lia.
Qed.

Lemma byte_of_Z_of_byte (b : byte) : byte_of_Z (Z_of_byte b) = b.
Proof.
  unfold byte_of_Z. pose proof (Z_of_byte_range b) as R.
  rewrite Z.mod_small by exact R.
  unfold Z_of_byte. rewrite N2Z.id, Byte.of_to_N. reflexivity.
Qed.

Lemma Z_of_byte_of_Z (z : Z) : Z_of_byte (byte_of_Z z) = z mod 256.
Proof.
  unfold byte_of_Z, Z_of_byte.
  pose proof (Z.mod_pos_bound z 256 ltac:(lia)) as R.
  destruct (Byte.of_N (Z.to_N (z mod 256))) as [b|] eqn:E.
  - apply Byte.to_of_N in E. rewrite E. lia.
  - apply Byte.of_N_None_iff in E. lia.
Qed.

Lemma Z_of_byte_inj (a b : byte) : Z_of_byte a = Z_of_byte b -> a = b.
Proof.
  intro H. rewrite <- (byte_of_Z_of_byte a), <- (byte_of_Z_of_byte b).
  now rewrite H.
Qed.

Lemma length_le_bytes (k : nat) (n : Z) : length (le_bytes k n) = k.
Proof.
  revert n. induction k as [|k IH]; intro n; simpl; [reflexivity|].
  now rewrite IH.
Qed.

Lemma le_value_le_bytes (k : nat) (n : Z) :
  le_value (le_bytes k n) = n mod 256 ^ Z.of_nat k.
Proof.
  revert n. induction k as [|k IH]; intro n.
  - simpl. now rewrite Z.mod_1_r.
  - cbn [le_bytes le_value]. rewrite IH, Z_of_byte_of_Z.
    rewrite Nat2Z.inj_succ, Z.pow_succ_r by lia.
    rewrite (Z.rem_mul_r n 256 (256 ^ Z.of_nat k)) by lia.
    reflexivity.
Qed.

Lemma le_value_range (bs : list byte) :
  0 <= le_value bs < 256 ^ Z.of_nat (length bs).
Proof.
  induction bs as [|b r IH].
  - simpl. lia.
  - cbn [le_value length]. rewrite Nat2Z.inj_succ, Z.pow_succ_r by lia.
    pose proof (Z_of_byte_range b). lia.
Qed.

Lemma int_from_bytes_ordered (order : byteorder) (bs : list byte) :
  int_from_bytes (ordered order bs) order = le_value bs.
Proof.
  unfold int_from_bytes. destruct order; simpl; [reflexivity|].
  now rewrite rev_involutive.
Qed.

Lemma length_ordered (order : byteorder) (bs : list byte) :
  length (ordered order bs) = length bs.
Proof. destruct order; simpl; [reflexivity | apply length_rev]. Qed.

Lemma int_from_bytes_range (order : byteorder) (bs : list byte) :
  0 <= int_from_bytes bs order < 256 ^ Z.of_nat (length bs).
Proof.
  unfold int_from_bytes.
  rewrite <- (length_ordered order bs). apply le_value_range.
Qed.

End PyFacts.

(** ** [struct]: what is packed is what is unpacked *)

Module StructFacts.
Import Py PyFacts Struct.

Lemma fit_exact (n : nat) (bs : list byte) : length bs = n -> fit n bs = bs.
Proof.
  intros <-. unfold fit. rewrite firstn_app, Nat.sub_diag, firstn_all.
  simpl. apply app_nil_r.
Qed.

Lemma pack_uint_inv (order : byteorder) (len : nat) (n : Z) (bs : list byte) :
  pack_uint order len n = Return bs ->
  length bs = len /\ int_from_bytes bs order = n.
Proof.
  unfold pack_uint.
  destruct ((0 <=? n) && (n <? 256 ^ Z.of_nat len)) eqn:R; [|discriminate].
  intro H. injection H as <-.
  apply andb_true_iff in R. destruct R as [R1 R2].
  rewrite length_ordered, length_le_bytes, int_from_bytes_ordered,
    le_value_le_bytes.
  split; [reflexivity|]. apply Z.mod_small. lia.
Qed.

Lemma pack_item_inv (order : byteorder) (f : item) (v : value)
  (bs : list byte) :
  exact f v -> pack_item order f v = Return bs ->
  length bs = item_size f /\ unpack_item order f bs = v.
Proof.
  destruct f as [n| | |], v as [cs|m]; simpl; try discriminate.
  - intros E H. injection H as <-. rewrite (fit_exact _ _ E). auto.
  - intros _. destruct cs as [|c [|? ?]]; try discriminate.
    intro H. injection H as <-. auto.
  - intros _ H. apply pack_uint_inv in H. destruct H as [L V].
    now rewrite V.
  - intros _ H. apply pack_uint_inv in H. destruct H as [L V].
    now rewrite V.
Qed.

Lemma pack_items_inv (order : byteorder) (fmt : list item) :
  forall (vs : list value) (bs : list byte),
    Forall2 exact fmt vs -> pack_items order fmt vs = Return bs ->
    length bs = calcsize fmt /\ unpack_items order fmt bs = vs.
Proof.
  induction fmt as [|f fmt IH]; intros vs bs E H.
  - inversion E; subst. simpl in H. injection H as <-. auto.
  - inversion E as [|f' v fmt' vs' Ev Evs]; subst. simpl in H.
    destruct (pack_item order f v) as [b|] eqn:P; [|discriminate].
    destruct (pack_items order fmt vs') as [rest|] eqn:Q; [|discriminate].
    simpl in H. injection H as <-.
    destruct (pack_item_inv _ _ _ _ Ev P) as [Lb Ub].
    destruct (IH _ _ Evs Q) as [Lr Ur].
    split.
    + rewrite length_app, Lb, Lr. reflexivity.
    + cbn [unpack_items]. rewrite <- Lb.
      rewrite firstn_app, Nat.sub_diag, firstn_all. simpl.
      rewrite app_nil_r, skipn_app, Nat.sub_diag, skipn_all. simpl.
      now rewrite Ub, Ur.
Qed.

(** Unpacking the result of a successful [pack] of exact values gives the
    values back. *)
Lemma unpack_pack (order : byteorder) (fmt : list item) (vs : list value)
  (bs : list byte) :
  Forall2 exact fmt vs -> pack order fmt vs = Return bs ->
  unpack order fmt bs = Return vs.
Proof.
  unfold pack, unpack. intros E H.
  destruct (Nat.eqb (length fmt) (length vs)); [|discriminate].
  destruct (pack_items_inv _ _ _ _ E H) as [L U].
  now rewrite L, Nat.eqb_refl, U.
Qed.

Lemma length_pack (order : byteorder) (fmt : list item) (vs : list value)
  (bs : list byte) :
  Forall2 exact fmt vs -> pack order fmt vs = Return bs ->
  length bs = calcsize fmt.
Proof.
  unfold pack. intros E H.
  destruct (Nat.eqb (length fmt) (length vs)); [|discriminate].
  now destruct (pack_items_inv _ _ _ _ E H).
Qed.

End StructFacts.

(** ** CRC-16/ARC: range, and detection of a changed byte *)

Module CrcFacts.
Import Py PyFacts Crc.

Lemma lxor_range (n a b : Z) :
  0 <= n -> 0 <= a < 2 ^ n -> 0 <= b < 2 ^ n -> 0 <= Z.lxor a b < 2 ^ n.
Proof.
  intros Hn Ha Hb. split; [apply Z.lxor_nonneg; lia|].
  destruct (Z.eq_dec a 0) as [->|Na]; [now rewrite Z.lxor_0_l|].
  destruct (Z.eq_dec b 0) as [->|Nb]; [now rewrite Z.lxor_0_r|].
  destruct (Z.eq_dec (Z.lxor a b) 0) as [->|Nx]; [lia|].
  assert (0 <= Z.lxor a b) by (apply Z.lxor_nonneg; lia).
  apply Z.log2_lt_pow2; [lia|].
  pose proof (Z.log2_lxor a b ltac:(lia) ltac:(lia)) as L.
  assert (Z.log2 a < n) by (apply Z.log2_lt_pow2; lia).
  assert (Z.log2 b < n) by (apply Z.log2_lt_pow2; lia).
  lia.
Qed.

Lemma testbit_small (a n : Z) : 0 <= a < 2 ^ n -> Z.testbit a n = false.
Proof.
  intros [H0 H1]. destruct (Z.eq_dec a 0) as [->|N]; [apply Z.bits_0|].
  destruct (Z.lt_ge_cases n 0) as [Hn|Hn]; [now apply Z.testbit_neg_r|].
  apply Z.bits_above_log2; [lia|]. apply Z.log2_lt_pow2; lia.
Qed.

Lemma testbit_large (a n : Z) :
  0 <= n -> 0 <= a -> Z.testbit a n = true -> 2 ^ n <= a.
Proof.
  intros Hn Ha T. destruct (Z.lt_ge_cases a (2 ^ n)) as [L|L]; [|exact L].
  rewrite testbit_small in T by lia. discriminate.
Qed.

Lemma shiftr1_range (c : Z) : word16 c -> 0 <= Z.shiftr c 1 < 2 ^ 15.
Proof.
  unfold word16. intro H. rewrite Z.shiftr_div_pow2 by lia.
  change (2 ^ 1) with 2. change (2 ^ 16) with 65536 in H.
  change (2 ^ 15) with 32768.
  split; [apply Z.div_pos; lia | apply Z.div_lt_upper_bound; lia].
Qed.

Lemma arc_bit_range (c : Z) : word16 c -> word16 (arc_bit c).
Proof.
  intro H. pose proof (shiftr1_range c H) as S. unfold arc_bit, word16.
  destruct (Z.odd c).
  - apply lxor_range; [lia | | vm_compute; split; [discriminate|reflexivity]].
    change (2 ^ 16) with 65536. change (2 ^ 15) with 32768 in S. lia.
  - change (2 ^ 16) with 65536. change (2 ^ 15) with 32768 in S. lia.
Qed.

Lemma arc_unbit_bit (c : Z) : word16 c -> arc_unbit (arc_bit c) = c.
Proof.
  intro H. pose proof (shiftr1_range c H) as S.
  unfold arc_bit, arc_unbit.
  assert (D : Z.shiftr c 1 = c / 2)
    by (rewrite Z.shiftr_div_pow2 by lia; reflexivity).
  pose proof (Zdiv2_odd_eqn c) as E. rewrite Z.div2_div in E.
  destruct (Z.odd c) eqn:O.
  - assert (T : Z.testbit (Z.lxor (Z.shiftr c 1) 0xA001) 15 = true).
    { rewrite Z.lxor_spec, (testbit_small _ 15 S). reflexivity. }
    assert (N : 0 <= Z.lxor (Z.shiftr c 1) 0xA001)
      by (apply Z.lxor_nonneg; lia).
    pose proof (testbit_large _ 15 ltac:(lia) N T) as G.
    destruct (Z.ltb_spec (Z.lxor (Z.shiftr c 1) 0xA001) (2 ^ 15)); [lia|].
    rewrite Z.lxor_assoc, Z.lxor_nilpotent, Z.lxor_0_r, D. lia.
  - destruct (Z.ltb_spec (Z.shiftr c 1) (2 ^ 15)); [|lia].
    rewrite D. lia.
Qed.

Lemma arc_bit_inj (c d : Z) :
  word16 c -> word16 d -> arc_bit c = arc_bit d -> c = d.
Proof.
  intros Hc Hd E.
  rewrite <- (arc_unbit_bit c Hc), <- (arc_unbit_bit d Hd). now rewrite E.
Qed.

Lemma iter_arc_bit_range (n : nat) (c : Z) :
  word16 c -> word16 (Nat.iter n arc_bit c).
Proof.
  intro H. induction n as [|n IH]; simpl; [exact H|].
  now apply arc_bit_range.
Qed.

Lemma iter_arc_bit_inj (n : nat) (c d : Z) :
  word16 c -> word16 d ->
  Nat.iter n arc_bit c = Nat.iter n arc_bit d -> c = d.
Proof.
  intros Hc Hd. induction n as [|n IH]; simpl; [auto|].
  intro E. apply IH. apply arc_bit_inj; auto using iter_arc_bit_range.
Qed.

Lemma byte_word16 (b : byte) : word16 (Z_of_byte b).
Proof.
  pose proof (Z_of_byte_range b). unfold word16.
  change (2 ^ 16) with 65536. lia.
Qed.

Lemma xor_byte_range (c : Z) (b : byte) :
  word16 c -> word16 (Z.lxor c (Z_of_byte b)).
Proof.
  intro H. apply lxor_range; [lia | exact H | apply byte_word16].
Qed.

Lemma arc_byte_range (c : Z) (b : byte) : word16 c -> word16 (arc_byte c b).
Proof.
  intro H. unfold arc_byte. apply iter_arc_bit_range.
  now apply xor_byte_range.
Qed.

(** Two different registers stay different after the same byte. *)
Lemma arc_byte_inj_state (c d : Z) (b : byte) :
  word16 c -> word16 d -> arc_byte c b = arc_byte d b -> c = d.
Proof.
  intros Hc Hd E. unfold arc_byte in E.
  apply iter_arc_bit_inj in E; auto using xor_byte_range.
  apply (f_equal (fun x => Z.lxor x (Z_of_byte b))) in E.
  now rewrite !Z.lxor_assoc, !Z.lxor_nilpotent, !Z.lxor_0_r in E.
Qed.

(** Two different bytes take the same register to different registers. *)
Lemma arc_byte_inj_byte (c : Z) (a b : byte) :
  word16 c -> arc_byte c a = arc_byte c b -> a = b.
Proof.
  intros Hc E. unfold arc_byte in E.
  apply iter_arc_bit_inj in E; auto using xor_byte_range.
  apply Z_of_byte_inj.
  apply (f_equal (Z.lxor c)) in E.
  now rewrite <- !Z.lxor_assoc, !Z.lxor_nilpotent, !Z.lxor_0_l in E.
Qed.

Lemma fold_arc_range (data : list byte) (c : Z) :
  word16 c -> word16 (fold_left arc_byte data c).
Proof.
  revert c. induction data as [|b r IH]; intros c H; simpl; [exact H|].
  apply IH. now apply arc_byte_range.
Qed.

Lemma fold_arc_inj (data : list byte) (c d : Z) :
  word16 c -> word16 d ->
  fold_left arc_byte data c = fold_left arc_byte data d -> c = d.
Proof.
  revert c d. induction data as [|b r IH]; intros c d Hc Hd; simpl; [auto|].
  intro E. apply IH in E; auto using arc_byte_range.
  now apply arc_byte_inj_state in E.
Qed.

Lemma arc_range (data : list byte) : 0 <= arc data < 2 ^ 16.
Proof.
  apply fold_arc_range. unfold word16. change (2 ^ 16) with 65536. lia.
Qed.

(** CRC-16/ARC tells two messages apart that differ in exactly one byte. *)
Lemma arc_detects (pre post : list byte) (a b : byte) :
  a <> b -> arc (pre ++ a :: post) <> arc (pre ++ b :: post).
Proof.
  intros N E. unfold arc in E. rewrite !fold_left_app in E. simpl in E.
  assert (W : word16 (fold_left arc_byte pre 0)).
  { apply fold_arc_range. unfold word16. change (2 ^ 16) with 65536. lia. }
  apply fold_arc_inj in E; auto using arc_byte_range.
  now apply arc_byte_inj_byte in E.
Qed.

End CrcFacts.

(** ** The codec of [src/comm_protocol] *)

Module CodecFacts.
Import Py PyFacts Struct StructFacts Crc CrcFacts Np CommProtocol.
Import Scenario.

Lemma pack_uint_ok (order : byteorder) (len : nat) (n : Z) :
  0 <= n < 256 ^ Z.of_nat len ->
  pack_uint order len n = Return (ordered order (le_bytes len n)).
Proof.
  intro R. unfold pack_uint.
  destruct (Z.leb_spec 0 n); [|lia].
  destruct (Z.ltb_spec n (256 ^ Z.of_nat len)); [|lia].
  reflexivity.
Qed.

Lemma packet_values_exact header frame_number x y payload_bin crc :
  Forall2 exact (packet_format (length payload_bin))
    (packet_values header frame_number x y payload_bin crc).
Proof.
  unfold packet_format, packet_values. cbn.
  repeat constructor.
Qed.

Lemma pack_wire header frame_number x y payload_bin crc :
  0 <= frame_number < 2 ^ 32 ->
  0 <= x < 2 ^ 16 -> 0 <= y < 2 ^ 16 ->
  Z.of_nat (length payload_bin) < 2 ^ 32 ->
  0 <= crc < 2 ^ 16 ->
  pack Little (packet_format (length payload_bin))
    (packet_values header frame_number x y payload_bin crc)
  = Return (wire header frame_number x y payload_bin crc).
Proof.
  intros Hn Hx Hy Hl Hc.
  unfold pack, packet_format, packet_values, wire.
  cbn [PACKING_FORMAT_START PACKING_FORMAT_END compute_payload_ser_format
       LEN_START_MAGIC_WORD LEN_END_MAGIC_WORD LEN_PROVER_PTYPE_CCOUNT_DTYPE
       LEN_FRAME_XY_SHAPE START_MAGIC_WORD END_MAGIC_WORD
       Nat.div Nat.divmod fst repeat app length Nat.eqb
       pack_items pack_item bind].
  rewrite (pack_uint_ok Little 4 frame_number) by (cbn; lia).
  rewrite (pack_uint_ok Little 2 x) by (cbn; lia).
  rewrite (pack_uint_ok Little 2 y) by (cbn; lia).
  rewrite (pack_uint_ok Little 4 (Z.of_nat (length payload_bin)))
    by (cbn; lia).
  rewrite (pack_uint_ok Little 2 crc) by (cbn; lia).
  rewrite (fit_exact (length payload_bin) payload_bin eq_refl).
  cbn [bind ordered fit firstn app repeat].
  rewrite app_nil_r. reflexivity.
Qed.

Lemma length_wire header frame_number x y payload_bin crc :
  length (wire header frame_number x y payload_bin crc)
  = (22 + length payload_bin)%nat.
Proof.
  unfold wire. rewrite !length_app, !length_le_bytes.
  cbn [START_MAGIC_WORD END_MAGIC_WORD length]. lia.
Qed.

Lemma stored_payload_length_wire header frame_number x y payload_bin crc :
  Z.of_nat (length payload_bin) < 2 ^ 32 ->
  stored_payload_length (wire header frame_number x y payload_bin crc)
  = length payload_bin.
Proof.
  intro Hl. unfold stored_payload_length, wire, slice.
  cbn [START_MAGIC_WORD le_bytes app skipn Nat.sub firstn].
  change (bytes_to_int ?l) with (le_value l).
  match goal with
  | |- Z.to_nat (le_value ?l) = _ =>
      change l with (le_bytes 4 (Z.of_nat (length payload_bin)))
  end.
  rewrite le_value_le_bytes, Z.mod_small by (cbn; lia).
  apply Nat2Z.id.
Qed.

Lemma payload_bytes_wire header frame_number x y payload_bin crc :
  Z.of_nat (length payload_bin) < 2 ^ 32 ->
  payload_bytes (wire header frame_number x y payload_bin crc) = payload_bin.
Proof.
  intro Hl. unfold payload_bytes.
  rewrite stored_payload_length_wire by exact Hl.
  unfold wire, slice.
  cbn [START_MAGIC_WORD le_bytes app skipn].
  replace (16 + length payload_bin - 16)%nat with (length payload_bin) by lia.
  rewrite firstn_app, Nat.sub_diag, firstn_all. simpl. apply app_nil_r.
Qed.

Lemma bytes_to_int_single (z : Z) :
  0 <= z < 256 -> bytes_to_int [byte_of_Z z] = z.
Proof.
  intro R. unfold bytes_to_int, int_from_bytes.
  cbn [BYTE_ORDER ordered le_value].
  rewrite Z_of_byte_of_Z, Z.mod_small; lia.
Qed.

Lemma frombuffer_reshape (payload_bin : list byte) (d : dtype) (sh : list Z) :
  Z.of_nat (length payload_bin) = prod sh * Z.of_nat (itemsize d) ->
  exists a,
    frombuffer payload_bin d = Return a
    /\ reshape a sh = Return (mk_ndarray sh d payload_bin).
Proof.
  intro H. unfold frombuffer.
  assert (P : (0 < itemsize d)%nat) by (destruct d; cbn; lia).
  assert (M : Nat.modulo (length payload_bin) (itemsize d) = 0%nat).
  { apply Nat2Z.inj. rewrite Nat2Z.inj_mod, H. apply Z.mod_mul. lia. }
  rewrite M. cbn [Nat.eqb]. eexists. split; [reflexivity|].
  unfold reshape, size. cbn [shape prod fold_right dtype_of buffer].
  rewrite Nat2Z.inj_div, H, Z.div_mul by lia.
  fold (prod sh). rewrite Z.mul_1_r, Z.eqb_refl. reflexivity.
Qed.

Lemma channel_cases (c : Z) : 0 <= c <= 3 -> c = 0 \/ c = 1 \/ c = 2 \/ c = 3.
Proof. lia. Qed.

Lemma header_byte_range (t : PacketType) (c : Z) (d : PacketDataType) :
  0 <= c <= 3 ->
  128 <= header_byte (PacketType_value t) c (bin_form d) < 192.
Proof.
  intro H.
  destruct (channel_cases c H) as [-> | [-> | [-> | ->]]];
    destruct t, d; vm_compute; split; congruence.
Qed.

Lemma parse_header (t : PacketType) (c : Z) (d : PacketDataType) :
  0 <= c <= 3 ->
  let s := bin_digits (header_byte (PacketType_value t) c (bin_form d)) in
  int_base2 (slice s 0 BIT_LEN_PROTOCOL_VER) = Return PROTOCOL_VER
  /\ int_base2
       (slice s BIT_LEN_PROTOCOL_VER
          (BIT_LEN_PROTOCOL_VER + BIT_LEN_PACKET_TYPE))
     = Return (PacketType_value t)
  /\ int_base2
       (slice s (BIT_LEN_PROTOCOL_VER + BIT_LEN_PACKET_TYPE)
          (BIT_LEN_PROTOCOL_VER + BIT_LEN_PACKET_TYPE
           + BIT_LEN_CHANNEL_COUNT))
     = Return c
  /\ int_base2
       (slice_from s
          (BIT_LEN_PROTOCOL_VER + BIT_LEN_PACKET_TYPE
           + BIT_LEN_CHANNEL_COUNT))
     = Return (bin_form d).
Proof.
  intro H.
  destruct (channel_cases c H) as [-> | [-> | [-> | ->]]];
    destruct t, d; vm_compute; repeat split.
Qed.

Lemma PacketType_of_value_value (t : PacketType) :
  PacketType_of_value (PacketType_value t) = Return t.
Proof. destruct t; reflexivity. Qed.

Lemma from_bin_form_bin_form (d : PacketDataType) :
  from_bin_form (bin_form d) = Return d.
Proof. destruct d; reflexivity. Qed.

Lemma deserialize_fields_wire (t : PacketType) (c : Z) (d : PacketDataType)
  (frame_number x y : Z) (payload_bin : list byte) (crc : Z) :
  0 <= c <= 3 ->
  0 <= frame_number < 2 ^ 32 ->
  0 <= x < 2 ^ 16 -> 0 <= y < 2 ^ 16 ->
  Z.of_nat (length payload_bin) < 2 ^ 32 ->
  0 <= crc < 2 ^ 16 ->
  Z.of_nat (length payload_bin)
  = prod (decoded_shape x y c) * Z.of_nat (itemsize (type_ d)) ->
  deserialize_fields
    (wire (header_byte (PacketType_value t) c (bin_form d))
       frame_number x y payload_bin crc)
  = Return
      (Some
         (mk_decoded t c frame_number (decoded_shape x y c)
            (mk_ndarray (decoded_shape x y c) (type_ d) payload_bin)
            d payload_bin crc)).
Proof.
  intros Hc Hn Hx Hy Hl Hcrc Hsize.
  set (hb := header_byte (PacketType_value t) c (bin_form d)).
  unfold deserialize_fields.
  change (Z.to_nat
            (bytes_to_int
               (slice ?r PAYLOAD_LEN_IDX
                  (PAYLOAD_LEN_IDX + LEN_PAYLOAD_LENGTH))))
    with (stored_payload_length r).
  rewrite stored_payload_length_wire by exact Hl.
  fold (packet_format (length payload_bin)).
  rewrite (unpack_pack Little _ _ _
             (packet_values_exact hb frame_number x y payload_bin crc)
             (pack_wire hb frame_number x y payload_bin crc Hn Hx Hy Hl Hcrc)).
  unfold packet_values. cbn [bind].
  rewrite bytes_to_int_single
    by (pose proof (header_byte_range t c d Hc); subst hb; lia).
  destruct (parse_header t c d Hc) as (P1 & P2 & P3 & P4).
  cbv zeta in P1, P2, P3, P4. fold hb in P1, P2, P3, P4.
  rewrite P1. cbn [bind]. rewrite Z.eqb_refl. cbn [negb].
  rewrite P2. cbn [bind]. rewrite PacketType_of_value_value. cbn [bind].
  rewrite P3. cbn [bind]. rewrite P4. cbn [bind].
  rewrite from_bin_form_bin_form. cbn [bind].
  change (if c =? 1 then firstn 2 [x; y; c] else [x; y; c])
    with (decoded_shape x y c).
  destruct (frombuffer_reshape payload_bin (type_ d) _ Hsize) as (a & F & R).
  rewrite F. cbn [bind]. rewrite R. reflexivity.
Qed.

Lemma placeholder_returns : exists p, placeholder = Return p.
Proof. eexists. reflexivity. Qed.

(** What [deserialize] does with a buffer in the wire layout. *)
Lemma deserialize_wire (t : PacketType) (c : Z) (d : PacketDataType)
  (frame_number x y : Z) (payload_bin : list byte) (crc : Z) :
  0 <= c <= 3 ->
  0 <= frame_number < 2 ^ 32 ->
  0 <= x < 2 ^ 16 -> 0 <= y < 2 ^ 16 ->
  Z.of_nat (length payload_bin) < 2 ^ 32 ->
  0 <= crc < 2 ^ 16 ->
  Z.of_nat (length payload_bin)
  = prod (decoded_shape x y c) * Z.of_nat (itemsize (type_ d)) ->
  deserialize
    (wire (header_byte (PacketType_value t) c (bin_form d))
       frame_number x y payload_bin crc)
  = if crc =? arc payload_bin
    then Return
           (Some
              (mk_Packet frame_number t d (decoded_shape x y c) c
                 (mk_ndarray (decoded_shape x y c) (type_ d) payload_bin)
                 crc))
    else Return None.
Proof.
  intros Hc Hn Hx Hy Hl Hcrc Hsize. unfold deserialize.
  rewrite deserialize_fields_wire by assumption.
  cbn [bind]. unfold deserialize_checked.
  cbn [d_payload_crc d_payload_bin d_frame_number d_packet_type
       d_payload_dtype d_shape d_frame_channel_count d_payload].
  destruct (crc =? arc payload_bin); [|reflexivity].
  destruct placeholder_returns as [p ->]. reflexivity.
Qed.


Lemma well_formed_inv (frame_number : Z) (payload : ndarray) :
  well_formed frame_number payload = true ->
  exists h w c,
    0 <= frame_number < 2 ^ 32
    /\ supported (dtype_of payload) = true
    /\ 0 <= h < 2 ^ 16 /\ 0 <= w < 2 ^ 16 /\ 0 <= c <= 3
    /\ (shape payload = [h; w] /\ c = 1 \/ shape payload = [h; w; c])
    /\ Z.of_nat (length (buffer payload))
       = h * w * c * Z.of_nat (itemsize (dtype_of payload))
    /\ Z.of_nat (length (buffer payload)) < 2 ^ 32.
Proof.
  unfold well_formed, size. intro H.
  repeat (apply andb_true_iff in H; destruct H as [H ?]).
  destruct (shape payload) as [|h [|w [|c [|? ?]]]] eqn:S;
    try discriminate; unfold shape_ok, dimension in *;
    repeat match goal with
           | H : _ && _ = true |- _ => apply andb_true_iff in H; destruct H
           end.
  - exists h, w, 1. cbn [prod fold_right] in *. repeat split; auto; lia.
  - exists h, w, c. cbn [prod fold_right] in *. repeat split; auto; lia.
Qed.

Lemma from_dtype_supported (d : dtype) :
  supported d = true ->
  exists pd, from_dtype d = Return pd /\ type_ pd = d.
Proof.
  destruct d; try discriminate; intros _; eexists; split; reflexivity.
Qed.

Lemma prod_decoded_shape (x y c : Z) : prod (decoded_shape x y c) = x * y * c.
Proof.
  unfold decoded_shape. destruct (Z.eqb_spec c 1) as [->|N];
    cbn [prod fold_right]; lia.
Qed.

(** What [serialize] produces for a packet whose fields fit the layout. *)
Lemma serialize_packet (frame_number : Z) (t : PacketType)
  (pd : PacketDataType) (h w c : Z) (payload : ndarray) (crc : Z) :
  0 <= frame_number < 2 ^ 32 ->
  0 <= h < 2 ^ 16 -> 0 <= w < 2 ^ 16 -> 0 <= c <= 3 ->
  Z.of_nat (length (buffer payload)) < 2 ^ 32 ->
  0 <= crc < 2 ^ 16 ->
  serialize (mk_Packet frame_number t pd [h; w] c payload crc)
  = Return (wire (header_byte (PacketType_value t) c (bin_form pd))
              frame_number h w (buffer payload) crc).
Proof.
  intros Hn Hh Hw Hc Hl Hcrc. unfold serialize.
  cbn [packet_type frame_channel_count payload_dtype
       CommProtocol.frame_number frame_shape CommProtocol.payload
       payload_crc payload_length tobytes].
  pose proof (header_byte_range t c pd Hc) as Hb.
  unfold int_to_bytes.
  destruct (Z.leb_spec 0 (header_byte (PacketType_value t) c (bin_form pd)));
    [|lia].
  destruct (Z.ltb_spec (header_byte (PacketType_value t) c (bin_form pd))
              (256 ^ Z.of_nat 1)); [|cbn in *; lia].
  cbn [andb bind BYTE_ORDER ordered le_bytes firstn map app].
  apply (pack_wire _ frame_number h w (buffer payload) crc Hn Hh Hw Hl Hcrc).
Qed.

(** What [serialize] produces for a packet made by [init] from well-formed
    arguments. *)
Lemma serialize_init (frame_number : Z) (t : PacketType) (payload : ndarray) :
  well_formed frame_number payload = true ->
  exists h w c pd,
    0 <= frame_number < 2 ^ 32
    /\ 0 <= h < 2 ^ 16 /\ 0 <= w < 2 ^ 16 /\ 0 <= c <= 3
    /\ (shape payload = [h; w] /\ c = 1 \/ shape payload = [h; w; c])
    /\ type_ pd = dtype_of payload
    /\ Z.of_nat (length (buffer payload))
       = h * w * c * Z.of_nat (itemsize (dtype_of payload))
    /\ Z.of_nat (length (buffer payload)) < 2 ^ 32
    /\ init frame_number t payload
       = Return (mk_Packet frame_number t pd [h; w] c payload
                   (arc (buffer payload)))
    /\ serialize (mk_Packet frame_number t pd [h; w] c payload
                    (arc (buffer payload)))
       = Return (wire (header_byte (PacketType_value t) c (bin_form pd))
                   frame_number h w (buffer payload) (arc (buffer payload))).
Proof.
  intro WF.
  destruct (well_formed_inv _ _ WF)
    as (h & w & c & Hn & Hs & Hh & Hw & Hc & Hshape & Hlen & Hl).
  destruct (from_dtype_supported _ Hs) as (pd & Hpd & Ht).
  exists h, w, c, pd. repeat (split; [assumption|]).
  split.
  - unfold init. rewrite Hpd. cbn [bind].
    destruct Hshape as [[-> ->] | ->];
      cbn [shape_eqb length Nat.leb nth firstn].
    + destruct (h =? 0); reflexivity.
    + destruct (h =? 0); reflexivity.
  - apply serialize_packet; auto using arc_range.
Qed.

Lemma shape_eqb_refl (s : list Z) : shape_eqb s s = true.
Proof.
  induction s as [|x s IH]; cbn [shape_eqb]; [reflexivity|].
  now rewrite Z.eqb_refl, IH.
Qed.

Lemma scalar_eqb_refl (x : scalar) : is_nan x = false -> scalar_eqb x x = true.
Proof.
  destruct x as [|b|m e]; cbn; [discriminate| |]; intros _.
  - apply eqb_reflx.
  - now rewrite !Z.eqb_refl.
Qed.

Lemma eq_all_refl (a : ndarray) : no_nan a = true -> eq_all a a = true.
Proof.
  unfold no_nan, eq_all. induction (elements a) as [|x l IH]; cbn;
    [reflexivity|].
  intro H. apply andb_true_iff in H. destruct H as [Hx Hl].
  apply negb_true_iff in Hx. now rewrite (scalar_eqb_refl x Hx), IH.
Qed.

Lemma PacketType_eqb_refl (t : PacketType) : PacketType_eqb t t = true.
Proof. unfold PacketType_eqb. apply Z.eqb_refl. Qed.

(** C1, amended. For well-formed arguments (a frame number of 32 bits, a
    payload of one of the four element types with two dimensions, or three
    with at most 3 channels, each of the first two dimensions on 16 bits,
    fewer than 2^32 bytes) and a payload without NaN,
    [deserialize(serialize(p))] returns a packet [q]; the payload of [q] is
    2-dimensional when the channel count of [p] is 1; and [q == p] holds
    exactly when the payload was not given with shape [(h, w, 1)]. *)
Theorem packet_roundtrip (frame_number : Z) (t : PacketType)
  (payload : ndarray) :
  well_formed frame_number payload = true ->
  no_nan payload = true ->
  exists p raw q,
    init frame_number t payload = Return p
    /\ serialize p = Return raw
    /\ deserialize raw = Return (Some q)
    /\ (frame_channel_count p = 1 ->
        length (shape (CommProtocol.payload q)) = 2%nat)
    /\ eq q (PyPacket p) = negb (single_channel_3d payload).
Proof.
  intros WF NN.
  destruct (serialize_init frame_number t payload WF)
    as (h & w & c & pd & Hn & Hh & Hw & Hc & Hshape & Ht & Hlen & Hl & I & S).
  eexists _, _, _. split; [exact I|]. split; [exact S|].
  assert (Hsize : Z.of_nat (length (buffer payload))
                  = prod (decoded_shape h w c)
                    * Z.of_nat (itemsize (type_ pd)))
    by (rewrite prod_decoded_shape, Ht; exact Hlen).
  rewrite (deserialize_wire t c pd frame_number h w (buffer payload)
             (arc (buffer payload)) Hc Hn Hh Hw Hl (arc_range _) Hsize).
  rewrite Z.eqb_refl. split; [reflexivity|].
  cbn [frame_channel_count CommProtocol.payload shape]. split.
  - intros ->. reflexivity.
  - unfold eq.
    cbn [CommProtocol.frame_number packet_type payload_crc
         CommProtocol.payload shape].
    rewrite !Z.eqb_refl, PacketType_eqb_refl. cbn [andb].
    unfold single_channel_3d.
    destruct payload as [sh dt buf]. cbn [shape dtype_of buffer] in *.
    destruct Hshape as [[-> ->] | ->].
    + cbn [decoded_shape Z.eqb negb]. change (1 =? 1) with true. cbv iota.
      rewrite shape_eqb_refl, Ht. cbn [andb]. now apply eq_all_refl.
    + unfold decoded_shape. destruct (Z.eqb_spec c 1) as [->|N].
      * cbn [shape_eqb negb]. now rewrite !Z.eqb_refl.
      * rewrite shape_eqb_refl, Ht. cbn [andb negb]. now apply eq_all_refl.
Qed.

(** C1, witness: the packet of scenario S1. *)
Lemma packet_roundtrip_witness :
  well_formed 0xFA S1_payload = true
  /\ no_nan S1_payload = true
  /\ exists p raw q,
      init 0xFA FRAME S1_payload = Return p
      /\ serialize p = Return raw
      /\ deserialize raw = Return (Some q)
      /\ (frame_channel_count p = 1 ->
          length (shape (CommProtocol.payload q)) = 2%nat)
      /\ eq q (PyPacket p) = negb (single_channel_3d S1_payload).
Proof.
  split; [reflexivity|]. split; [reflexivity|].
  apply (packet_roundtrip 0xFA FRAME S1_payload); reflexivity.
Defined.

(** C1, counterexample: for a payload of shape [(1, 1, 1)] the comparison
    [deserialize(serialize(p)) == p] is False: the payload comes back with
    shape [(1, 1)]. *)
Lemma roundtrip_single_channel_3d_fails :
  well_formed 0 pixel_payload = true
  /\ no_nan pixel_payload = true
  /\ roundtrip_eq 0 FRAME pixel_payload = Return false.
Proof. repeat split. Qed.

Lemma flip_bit_app (pre l post : list byte) (i k : nat) :
  (i < length l)%nat ->
  flip_bit (pre ++ l ++ post) (length pre + i) k
  = pre ++ flip_bit l i k ++ post.
Proof.
  intro H. unfold flip_bit.
  rewrite nth_error_app2 by lia.
  replace (length pre + i - length pre)%nat with i by lia.
  rewrite nth_error_app1 by exact H.
  destruct (nth_error l i) as [b|] eqn:E.
  - rewrite firstn_app, firstn_all2 by lia.
    replace (length pre + i - length pre)%nat with i by lia.
    rewrite firstn_app, (proj2 (Nat.sub_0_le i (length l))) by lia.
    cbn [firstn]. rewrite app_nil_r.
    rewrite skipn_app, skipn_all2 by lia.
    replace (S (length pre + i) - length pre)%nat with (S i) by lia.
    rewrite skipn_app, (proj2 (Nat.sub_0_le (S i) (length l))) by lia.
    cbn [skipn app]. rewrite <- !app_assoc. reflexivity.
  - apply nth_error_None in E. lia.
Qed.

Lemma length_flip_bit (l : list byte) (i k : nat) :
  length (flip_bit l i k) = length l.
Proof.
  unfold flip_bit. destruct (nth_error l i) as [b|] eqn:E; [|reflexivity].
  assert (i < length l)%nat by (apply nth_error_Some; congruence).
  rewrite length_app. cbn [length]. rewrite length_firstn, length_skipn. lia.
Qed.

Lemma flipped_byte_differs (b : byte) (k : nat) :
  (k < 8)%nat -> byte_of_Z (Z.lxor (Z_of_byte b) (2 ^ Z.of_nat k)) <> b.
Proof.
  intros Hk E. apply (f_equal Z_of_byte) in E.
  rewrite Z_of_byte_of_Z in E.
  pose proof (Z_of_byte_range b) as R.
  assert (P : 0 <= 2 ^ Z.of_nat k < 2 ^ 8).
  { split; [apply Z.pow_nonneg; lia|]. apply Z.pow_lt_mono_r; lia. }
  pose proof (lxor_range 8 (Z_of_byte b) (2 ^ Z.of_nat k) ltac:(lia)
                ltac:(change (2 ^ 8) with 256; lia) P) as X.
  change (2 ^ 8) with 256 in X. rewrite Z.mod_small in E by lia.
  apply (f_equal (Z.lxor (Z_of_byte b))) in E.
  rewrite <- Z.lxor_assoc, !Z.lxor_nilpotent, Z.lxor_0_l in E.
  pose proof (Z.pow_pos_nonneg 2 (Z.of_nat k) ltac:(lia) ltac:(lia)). lia.
Qed.

(** Inverting one bit of a message changes its CRC-16/ARC. *)
Lemma arc_flip_bit (l : list byte) (i k : nat) :
  (i < length l)%nat -> (k < 8)%nat -> arc l <> arc (flip_bit l i k).
Proof.
  intros Hi Hk. unfold flip_bit.
  destruct (nth_error l i) as [b|] eqn:E;
    [|apply nth_error_None in E; lia].
  rewrite <- (firstn_skipn i l) at 1.
  assert (S : skipn i l = b :: skipn (S i) l).
  { clear Hi. revert i E. induction l as [|a l IH]; intros [|i] E;
      try discriminate.
    - cbn in E. injection E as ->. reflexivity.
    - cbn in E. cbn [skipn]. rewrite (IH i E). reflexivity. }
  rewrite S. apply arc_detects. intro N. symmetry in N.
  now apply flipped_byte_differs in N.
Qed.

Lemma wire_split header frame_number x y payload_bin crc :
  wire header frame_number x y payload_bin crc
  = (START_MAGIC_WORD ++ [byte_of_Z header] ++ le_bytes 4 frame_number
       ++ le_bytes 2 x ++ le_bytes 2 y
       ++ le_bytes 4 (Z.of_nat (length payload_bin)))
      ++ payload_bin ++ (le_bytes 2 crc ++ END_MAGIC_WORD).
Proof. unfold wire. rewrite <- !app_assoc. reflexivity. Qed.

Lemma flip_bit_wire header frame_number x y payload_bin crc (i k : nat) :
  (i < length payload_bin)%nat ->
  flip_bit (wire header frame_number x y payload_bin crc) (16 + i) k
  = wire header frame_number x y (flip_bit payload_bin i k) crc.
Proof.
  intro H. rewrite !wire_split, length_flip_bit.
  set (pre := START_MAGIC_WORD ++ _).
  change (16 + i)%nat with (length pre + i)%nat.
  apply (flip_bit_app pre payload_bin _ i k H).
Qed.

(** C4. For a packet made from well-formed arguments, inverting any one bit
    of any byte of the payload region (offsets 16 .. 16+L-1) of its
    serialization makes [deserialize] return None, the result of its CRC
    check. *)
Theorem crc_detects_bit_flip (frame_number : Z) (t : PacketType)
  (payload : ndarray) (p : Packet) (raw : list byte) (i k : nat) :
  well_formed frame_number payload = true ->
  init frame_number t payload = Return p ->
  serialize p = Return raw ->
  (i < length (buffer payload))%nat ->
  (k < 8)%nat ->
  deserialize (flip_bit raw (16 + i) k) = Return None.
Proof.
  intros WF I S Hi Hk.
  destruct (serialize_init frame_number t payload WF)
    as (h & w & c & pd & Hn & Hh & Hw & Hc & Hshape & Ht & Hlen & Hl & I'
        & S').
  rewrite I' in I. injection I as <-. rewrite S' in S. injection S as <-.
  rewrite flip_bit_wire by exact Hi.
  assert (Hl' : Z.of_nat (length (flip_bit (buffer payload) i k)) < 2 ^ 32)
    by now rewrite length_flip_bit.
  assert (Hsize : Z.of_nat (length (flip_bit (buffer payload) i k))
                  = prod (decoded_shape h w c)
                    * Z.of_nat (itemsize (type_ pd)))
    by now rewrite length_flip_bit, prod_decoded_shape, Ht.
  rewrite (deserialize_wire t c pd frame_number h w _ _ Hc Hn Hh Hw Hl'
             (arc_range _) Hsize).
  destruct (Z.eqb_spec (arc (buffer payload))
              (arc (flip_bit (buffer payload) i k))) as [E|N];
    [|reflexivity].
  now apply arc_flip_bit in E.
Qed.

(** C4, witness: bit 3 of payload byte 5 of the S1 bytes. *)
Lemma crc_detects_bit_flip_witness :
  deserialize (flip_bit S1_bytes (16 + 5) 3) = Return None.
Proof.
  apply (crc_detects_bit_flip 0xFA FRAME S1_payload S1_packet S1_bytes 5 3).
  - vm_compute. reflexivity.
  - vm_compute. reflexivity.
  - vm_compute. reflexivity.
  - vm_compute. lia.
  - lia.
Defined.

Lemma calcsize_packet_format (n : nat) :
  calcsize (packet_format n) = (22 + n)%nat.
Proof. unfold packet_format. cbn. lia. Qed.

Lemma deserialize_fields_length (raw : list byte) :
  length raw <> (22 + stored_payload_length raw)%nat ->
  deserialize_fields raw = Raise StructError.
Proof.
  intro N. unfold deserialize_fields.
  change (Z.to_nat
            (bytes_to_int
               (slice raw PAYLOAD_LEN_IDX
                  (PAYLOAD_LEN_IDX + LEN_PAYLOAD_LENGTH))))
    with (stored_payload_length raw).
  fold (packet_format (stored_payload_length raw)).
  unfold unpack. rewrite calcsize_packet_format.
  destruct (Nat.eqb_spec (length raw) (22 + stored_payload_length raw));
    [contradiction | reflexivity].
Qed.

(** C6, amended. For every buffer whose length is not 22 plus the payload
    length it declares, [deserialize] raises struct.error: it returns
    neither a packet nor None. *)
Theorem length_mismatch_raises (raw : list byte) :
  length raw <> (22 + stored_payload_length raw)%nat ->
  deserialize raw = Raise StructError.
Proof.
  intro N. unfold deserialize.
  now rewrite (deserialize_fields_length raw N).
Qed.

(** C6, witness: 23 bytes that declare an empty payload. *)
Lemma length_mismatch_raises_witness :
  length Scenario.overlong_buffer
  <> (22 + stored_payload_length Scenario.overlong_buffer)%nat
  /\ deserialize Scenario.overlong_buffer = Raise StructError.
Proof.
  split.
  - vm_compute. discriminate.
  - apply (length_mismatch_raises Scenario.overlong_buffer).
    vm_compute. discriminate.
Defined.

(** C6, counterexample: on a buffer of 23 bytes that declares an empty
    payload, [deserialize] does not return None. *)
Lemma length_mismatch_not_none :
  length Scenario.overlong_buffer = 23%nat
  /\ stored_payload_length Scenario.overlong_buffer = 0%nat
  /\ deserialize Scenario.overlong_buffer <> Return None.
Proof.
  repeat split. vm_compute. discriminate.
Qed.

(** The fields [deserialize] reads are the slices of the wire layout. *)
Lemma deserialize_fields_slices (raw : list byte) (d : decoded) :
  deserialize_fields raw = Return (Some d) ->
  d_payload_bin d = payload_bytes raw /\ d_payload_crc d = stored_crc raw.
Proof.
  unfold deserialize_fields.
  change (Z.to_nat
            (bytes_to_int
               (slice raw PAYLOAD_LEN_IDX
                  (PAYLOAD_LEN_IDX + LEN_PAYLOAD_LENGTH))))
    with (stored_payload_length raw).
  unfold unpack, payload_bytes, stored_crc, slice.
  set (L := stored_payload_length raw).
  destruct (Nat.eqb (length raw) _); [|discriminate].
  cbn [bind PACKING_FORMAT_START PACKING_FORMAT_END compute_payload_ser_format
       LEN_START_MAGIC_WORD LEN_END_MAGIC_WORD LEN_PROVER_PTYPE_CCOUNT_DTYPE
       LEN_FRAME_XY_SHAPE START_MAGIC_WORD END_MAGIC_WORD
       Nat.div Nat.divmod fst repeat app length
       unpack_items unpack_item item_size].
  rewrite !skipn_skipn.
  repeat match goal with
         | |- context [bind ?c _] =>
             destruct c eqn:?; cbn [bind]; try discriminate
         | |- context [if ?b then _ else _] =>
             destruct b eqn:?; try discriminate
         end.
  all: intro H; injection H as <-; cbn [d_payload_bin d_payload_crc].
  all: replace (16 + L - 16)%nat with L by lia.
  all: replace (18 + L - (16 + L))%nat with 2%nat by lia.
  all: split; [reflexivity|].
  all: change (int_from_bytes (firstn 2 (skipn (L + 16) raw)) Little
               = int_from_bytes (firstn 2 (skipn (16 + L) raw)) Little).
  all: now rewrite (Nat.add_comm L 16).
Qed.

Lemma old_deserialize_fields_slices (raw : list byte)
  (d : RaspberryProtocol.decoded) :
  RaspberryProtocol.deserialize_fields raw = Return (Some d) ->
  RaspberryProtocol.d_payload_bin d = RaspberryProtocol.payload_bytes raw
  /\ RaspberryProtocol.d_payload_crc d = RaspberryProtocol.stored_crc raw.
Proof.
  unfold RaspberryProtocol.deserialize_fields.
  change (Z.to_nat
            (RaspberryProtocol.bytes_to_int
               (slice raw RaspberryProtocol.PAYLOAD_LEN_IDX
                  (RaspberryProtocol.PAYLOAD_LEN_IDX
                   + RaspberryProtocol.LEN_PAYLOAD_LENGTH))))
    with (RaspberryProtocol.stored_payload_length raw).
  unfold unpack, RaspberryProtocol.payload_bytes,
    RaspberryProtocol.stored_crc, slice.
  set (L := RaspberryProtocol.stored_payload_length raw).
  destruct (Nat.eqb (length raw) _); [|discriminate].
  cbn [bind RaspberryProtocol.PACKING_FORMAT_START
       RaspberryProtocol.PACKING_FORMAT_END
       RaspberryProtocol.compute_payload_ser_format
       RaspberryProtocol.LEN_START_MAGIC_WORD
       RaspberryProtocol.LEN_END_MAGIC_WORD
       RaspberryProtocol.LEN_PROVER_PTYPE_CCOUNT
       RaspberryProtocol.LEN_FRAME_XY_SHAPE
       RaspberryProtocol.LEN_PAYLOAD_CRC
       RaspberryProtocol.START_MAGIC_WORD RaspberryProtocol.END_MAGIC_WORD
       Nat.div Nat.divmod fst repeat app length
       unpack_items unpack_item item_size].
  rewrite !skipn_skipn.
  repeat match goal with
         | |- context [bind ?c _] =>
             destruct c eqn:?; cbn [bind]; try discriminate
         | |- context [if ?b then _ else _] =>
             destruct b eqn:?; try discriminate
         end.
  all: intro H; injection H as <-;
    cbn [RaspberryProtocol.d_payload_bin RaspberryProtocol.d_payload_crc].
  all: replace (16 + L - 16)%nat with L by lia.
  all: replace (18 + L - (16 + L))%nat with 2%nat by lia.
  all: split; [reflexivity|].
  all: change (RaspberryProtocol.bytes_to_int
                 (firstn 2 (skipn (L + 16) raw))
               = RaspberryProtocol.bytes_to_int
                   (firstn 2 (skipn (16 + L) raw))).
  all: now rewrite (Nat.add_comm L 16).
Qed.

(** C7. For every buffer on which the older decoder reaches its CRC check,
    it returns None exactly when the stored CRC equals the checksum of the
    payload bytes, and a packet otherwise; for every buffer on which the
    newer decoder reaches its CRC check, it returns None exactly when the
    stored CRC differs from the CRC of the payload bytes, and a packet
    otherwise. *)
Theorem crc_check_polarity :
  (forall (raw : list byte) (d : RaspberryProtocol.decoded),
      RaspberryProtocol.deserialize_fields raw = Return (Some d) ->
      (RaspberryProtocol.deserialize raw = Return None
       <-> RaspberryProtocol.stored_crc raw
           = ccitt (RaspberryProtocol.payload_bytes raw))
      /\ (RaspberryProtocol.deserialize raw = Return None
          \/ exists p, RaspberryProtocol.deserialize raw = Return (Some p)))
  /\ (forall (raw : list byte) (d : decoded),
         deserialize_fields raw = Return (Some d) ->
         (deserialize raw = Return None
          <-> stored_crc raw <> arc (payload_bytes raw))
         /\ (deserialize raw = Return None
             \/ exists p, deserialize raw = Return (Some p))).
Proof.
  split; intros raw d F.
  - destruct (old_deserialize_fields_slices raw d F) as [<- <-].
    unfold RaspberryProtocol.deserialize. rewrite F. cbn [bind].
    unfold RaspberryProtocol.deserialize_checked.
    destruct (Z.eqb_spec (RaspberryProtocol.d_payload_crc d)
                (ccitt (RaspberryProtocol.d_payload_bin d))) as [E|N].
    + split; [tauto | now left].
    + split; [|right; eexists; reflexivity].
      split; [discriminate | contradiction].
  - destruct (deserialize_fields_slices raw d F) as [<- <-].
    unfold deserialize. rewrite F. cbn [bind].
    unfold deserialize_checked.
    destruct (Z.eqb_spec (d_payload_crc d) (arc (d_payload_bin d))) as [E|N];
      cbn [negb].
    + destruct placeholder_returns as [p ->]. cbn [bind].
      split; [|right; eexists; reflexivity].
      split; [discriminate | contradiction].
    + split; [tauto | now left].
Qed.

(** C7, witness: an older buffer with the right CRC, and the S1 bytes. *)
Lemma crc_check_polarity_witness :
  (RaspberryProtocol.deserialize Scenario.old_empty_buffer = Return None
   <-> RaspberryProtocol.stored_crc Scenario.old_empty_buffer
       = ccitt (RaspberryProtocol.payload_bytes Scenario.old_empty_buffer))
  /\ (deserialize Scenario.S1_bytes = Return None
      <-> stored_crc Scenario.S1_bytes
          <> arc (payload_bytes Scenario.S1_bytes)).
Proof.
  split.
  - eapply (proj1 crc_check_polarity Scenario.old_empty_buffer).
    vm_compute. reflexivity.
  - eapply (proj2 crc_check_polarity Scenario.S1_bytes).
    vm_compute. reflexivity.
Defined.

(** C2, amended. Serializing [Packet(0xFA, FRAME, 2x2x3 uint8 all 4)] yields
    the 34 bytes INU, header byte 9C, FA 00 00 00, 02 00 02 00, 0C 00 00 00,
    twelve bytes 04, CRC bytes 60 6F, NEKO; CRC-16/ARC of twelve bytes 04
    is 0x6F60. *)
Theorem S1_encoding :
  (p <- init 0xFA FRAME S1_payload ;; serialize p) = Return S1_bytes
  /\ length S1_bytes = 34%nat
  /\ nth 3 S1_bytes x00 = x9c
  /\ header_byte (PacketType_value FRAME) 3 (bin_form U8_INT) = 0x9C
  /\ arc (repeat x04 12) = 0x6F60.
Proof. repeat split. Qed.

(** C2, counterexample: the serialization is not the announced 34 bytes
    with header byte A4 and CRC bytes A3 4F. *)
Lemma S1_announced_bytes_differ :
  (p <- init 0xFA FRAME S1_payload ;; serialize p) <> Return S1_announced.
Proof. vm_compute. discriminate. Qed.

(** With three channels, bits 3..2 of the header byte are 11 whatever the
    values of the packet type and of the element type: it is never A4. *)
Lemma header_byte_three_channels (tv dv : Z) :
  0 <= tv <= 3 -> 0 <= dv <= 3 -> header_byte tv 3 dv <> 0xA4.
Proof.
  intros Ht Hd.
  destruct (channel_cases tv Ht) as [-> | [-> | [-> | ->]]];
    destruct (channel_cases dv Hd) as [-> | [-> | [-> | ->]]];
    vm_compute; discriminate.
Qed.

(** C3, the code at the failing input: the encoding of the empty OK packet
    with version bits 01 is not rejected; [deserialize] returns a packet
    with 2 channels. [bin] drops the leading zero of the header byte, and
    the two bits read as the version are bits 6 and 5. *)
Theorem deserialize_accepts_version_01 :
  Z.shiftr (Z_of_byte (nth 3 version_01_buffer x00)) 6 = 1
  /\ deserialize version_01_buffer
     = Return
         (Some (mk_Packet 0 OK U8_INT [0; 0; 2] 2
                  (mk_ndarray [0; 0; 2] uint8 []) 0)).
Proof. split; reflexivity. Qed.

Lemma deserialize_rejects_version_11 :
  deserialize version_11_buffer = Return None.
Proof. reflexivity. Qed.

(** The header bytes below 128 (version bits 00 or 01) that pass the
    version check are those whose binary digits start with 10: among them
    all of 64 .. 95, the bytes with version bits 01 and packet type OK or
    FRAME. *)
Lemma version_check_slip :
  filter (fun h => negb (version_rejected h)) (map Z.of_nat (seq 0 128))
  = map Z.of_nat
      (2%nat :: seq 4 2 ++ seq 8 4 ++ seq 16 8 ++ seq 32 16 ++ seq 64 32).
Proof. vm_compute. reflexivity. Qed.

(** Every header byte with version bits 11 is rejected, every one with
    version bits 10 passes. *)
Lemma version_check_11 :
  forallb version_rejected (map Z.of_nat (seq 192 64)) = true.
Proof. vm_compute. reflexivity. Qed.

Lemma version_check_10 :
  forallb (fun h => negb (version_rejected h)) (map Z.of_nat (seq 128 64))
  = true.
Proof. vm_compute. reflexivity. Qed.

(** C5, counterexample: the channel count of the empty packet is not 0, and
    [deserialize(serialize(p)) == p] is False. *)
Lemma empty_packet_not_as_announced :
  exists p,
    init 0 OK empty_payload = Return p
    /\ frame_channel_count p <> 0
    /\ roundtrip_eq 0 OK empty_payload = Return false.
Proof.
  eexists. split; [reflexivity|]. split; [|reflexivity].
  cbn. discriminate.
Qed.

(** C5, amended. A packet made from an empty uint8 payload of shape [(0,)]
    has frame shape (0, 0) and payload length 0; its CRC is CRC-16/ARC of
    the empty string, 0; it serializes to 22 bytes; [deserialize] of these
    returns a packet with the same frame number, type and CRC and an empty
    payload of another shape, so that the comparison with [p] is False. *)
Theorem empty_packet_codec (frame_number : Z) (t : PacketType) :
  0 <= frame_number < 2 ^ 32 ->
  exists p raw q,
    init frame_number t empty_payload = Return p
    /\ frame_shape p = [0; 0]
    /\ payload_length p = 0%nat
    /\ payload_crc p = arc []
    /\ arc [] = 0
    /\ serialize p = Return raw
    /\ length raw = 22%nat
    /\ deserialize raw = Return (Some q)
    /\ CommProtocol.frame_number q = frame_number
    /\ packet_type q = t
    /\ payload_crc q = 0
    /\ buffer (CommProtocol.payload q) = []
    /\ shape_eqb (shape (CommProtocol.payload q))
         (shape (CommProtocol.payload p)) = false
    /\ eq q (PyPacket p) = false.
Proof.
  intro Hn.
  assert (I : init frame_number t empty_payload
              = Return (mk_Packet frame_number t U8_INT [0; 0] 1
                          empty_payload 0)) by reflexivity.
  assert (S : serialize (mk_Packet frame_number t U8_INT [0; 0] 1
                           empty_payload 0)
              = Return (wire (header_byte (PacketType_value t) 1
                                (bin_form U8_INT))
                          frame_number 0 0 [] 0)).
  { apply (serialize_packet frame_number t U8_INT 0 0 1 empty_payload 0);
      cbn; lia. }
  assert (D : deserialize (wire (header_byte (PacketType_value t) 1
                                   (bin_form U8_INT))
                             frame_number 0 0 [] 0)
              = Return (Some (mk_Packet frame_number t U8_INT [0; 0] 1
                                (mk_ndarray [0; 0] uint8 []) 0))).
  { rewrite (deserialize_wire t 1 U8_INT frame_number 0 0 [] 0);
      cbn; try lia; reflexivity. }
  eexists _, _, _. split; [exact I|].
  repeat (split; [reflexivity|]).
  split; [exact S|]. split; [apply length_wire|]. split; [exact D|].
  repeat (split; [reflexivity|]).
  unfold eq. cbn [CommProtocol.payload shape empty_payload shape_eqb].
  now rewrite !andb_false_r.
Qed.

(** C5, witness: frame number 0, type OK. *)
Lemma empty_packet_codec_witness :
  0 <= 0 < 2 ^ 32
  /\ exists p raw q,
      init 0 OK empty_payload = Return p
      /\ frame_shape p = [0; 0]
      /\ payload_length p = 0%nat
      /\ payload_crc p = arc []
      /\ arc [] = 0
      /\ serialize p = Return raw
      /\ length raw = 22%nat
      /\ deserialize raw = Return (Some q)
      /\ CommProtocol.frame_number q = 0
      /\ packet_type q = OK
      /\ payload_crc q = 0
      /\ buffer (CommProtocol.payload q) = []
      /\ shape_eqb (shape (CommProtocol.payload q))
           (shape (CommProtocol.payload p)) = false
      /\ eq q (PyPacket p) = false.
Proof.
  split; [lia|]. apply (empty_packet_codec 0 OK). lia.
Defined.

End CodecFacts.

(** ** The request handler of the frame server *)

Module ServerFacts.
Import Py PyFacts Np CommProtocol CodecFacts Server Scenario.

Lemma acquire_nonempty (s : server) (env : list wait) (i : item)
  (rest : list item) :
  frames_queue s = i :: rest ->
  acquire s env = Some (set_current (Some i) (set_queue rest s), env).
Proof.
  intro Q. destruct env as [|w env]; cbn [acquire]; rewrite Q; reflexivity.
Qed.




(** Scenario S4: OK, REQUEST, HALT. The frame at the head of the queue is
    sent twice, the queue is advanced once and the socket is closed. *)
Lemma S4_request_response :
  exists data,
    handle [Framed ok_request; Framed request_request; Framed halt_request]
      S4_server []
    = Return (mk_server [(1, pixel x08)] false (Some (0, pixel x07)) true
                [data; data], Break).
Proof. eexists. reflexivity. Qed.

End ServerFacts.

(** ** The numbering of the frames a reader puts on its queue *)

Module ReaderFacts.
Import Py Np Reader Scenario.

Lemma may_continue_keeps (w : signals) (r : reader) :
  _video_feed (snd (may_continue w r)) = _video_feed r
  /\ _loop (snd (may_continue w r)) = _loop r
  /\ trace (snd (may_continue w r)) = trace r
  /\ _frames_queue (snd (may_continue w r)) = _frames_queue r.
Proof.
  unfold may_continue.
  destruct (halt_is_set w (clock r)); [repeat split|].
  destruct (reset_is_set w (S (clock r))); repeat split.
Qed.

(** A [put] that returns has added its item to the trace and changed the
    queue only. *)
Lemma put_returns (i : item) (taken : consumer) (r r' : reader) :
  put i taken r = Some r' ->
  _video_feed r' = _video_feed r
  /\ _loop r' = _loop r
  /\ trace r' = trace r ++ [Put i]
  /\ clock r' = clock r
  /\ Queue_put i (taken (length (puts r))) (_frames_queue r)
     = Some (_frames_queue r').
Proof.
  unfold put. destruct (Queue_put _ _ _) as [q|]; [|discriminate].
  intro H. injection H as <-. repeat split.
Qed.

Lemma puts_of_trace (r r' : reader) (l : list event) :
  trace r' = trace r ++ l -> puts r' = puts r ++ flat_map put_items l.
Proof. unfold puts. intros ->. apply flat_map_app. Qed.

Lemma put_items_Put (l : list item) : flat_map put_items (map Put l) = l.
Proof.
  induction l as [|i l IH]; [reflexivity|]. cbn. now rewrite IH.
Qed.

(** One pass of the inner loop puts a beginning of the frames that are
    left, numbered from [frame_id] on, and leaves [_loop] as it is. *)
Lemma read_frames_puts (n : nat) (w : signals) (taken : consumer) :
  forall (frame_id : Z) (r : reader),
    _loop (fst (read_frames n w taken frame_id r)) = _loop r
    /\ source (_video_feed (fst (read_frames n w taken frame_id r)))
       = source (_video_feed r)
    /\ exists k : nat,
        trace (fst (read_frames n w taken frame_id r))
        = trace r
            ++ map Put
                 (numbered frame_id (firstn k (remaining (_video_feed r)))).
Proof.
  induction n as [|n IH]; intros frame_id r.
  - cbn [read_frames fst]. repeat split. exists 0%nat. cbn.
    now rewrite app_nil_r.
  - cbn [read_frames].
    destruct (isOpened (_video_feed r));
      [|repeat split; exists 0%nat; cbn; now rewrite app_nil_r].
    destruct (may_continue_keeps w r) as (F & L & P & _).
    destruct (may_continue w r) as [go r0]. cbn [snd] in F, L, P.
    destruct go;
      [|cbn [fst]; rewrite L, F; repeat split; exists 0%nat; cbn;
        now rewrite P, app_nil_r].
    unfold read. rewrite F.
    destruct (remaining (_video_feed r)) as [|f rest] eqn:R.
    + cbn [fst with_feed _loop _video_feed trace]. rewrite L.
      repeat split. exists 0%nat. cbn. now rewrite P, app_nil_r.
    + set (c := mk_capture (source (_video_feed r)) rest
                  (opened (_video_feed r))).
      destruct (put (frame_id, f) taken (with_feed c r0)) as [r1|] eqn:Q.
      * apply put_returns in Q. destruct Q as (F1 & L1 & T1 & _).
        cbn [with_feed _video_feed _loop trace] in F1, L1, T1.
        destruct (IH (frame_id + 1) r1) as (L' & S' & k & P').
        rewrite L', S', P', L1, F1, T1, L, P.
        subst c. cbn [source remaining]. repeat split. exists (S k).
        cbn [firstn numbered map]. now rewrite <- app_assoc.
      * cbn [fst with_feed _loop _video_feed trace]. subst c.
        cbn [source]. rewrite L. repeat split. exists 0%nat. cbn.
        now rewrite P, app_nil_r.
Qed.

Lemma nth_numbered (fs : list frame) :
  forall (frame_id : Z) (i : nat),
    (i < length fs)%nat ->
    nth i (frame_numbers (numbered frame_id fs)) 0 = frame_id + Z.of_nat i.
Proof.
  induction fs as [|f fs IH]; intros frame_id i H; cbn [length] in H;
    [lia|].
  destruct i as [|i]; cbn [numbered frame_numbers map fst nth].
  - lia.
  - fold (frame_numbers (numbered (frame_id + 1) fs)).
    rewrite IH by lia. lia.
Qed.

Lemma length_numbered (fs : list frame) (frame_id : Z) :
  length (frame_numbers (numbered frame_id fs)) = length fs.
Proof.
  revert frame_id. induction fs as [|f fs IH]; intro frame_id;
    cbn [numbered frame_numbers map length]; [reflexivity|].
  fold (frame_numbers (numbered (frame_id + 1) fs)). now rewrite IH.
Qed.

(** The items of a pass have the numbers 0, 1, 2, ... *)
Lemma numbered_counts_from_zero (fs : list frame) :
  counts_from_zero (frame_numbers (numbered 0 fs)).
Proof.
  intros i H. rewrite length_numbered in H. now rewrite nth_numbered.
Qed.

Lemma passes_trace_cons (s first : list frame) (rest : list (list frame)) :
  passes_trace (s :: first :: rest)
  = map Put (numbered 0 s) ++ Rewound :: passes_trace (first :: rest).
Proof. reflexivity. Qed.

Lemma passes_trace_one (s : list frame) :
  passes_trace [s] = map Put (numbered 0 s).
Proof. cbn. apply app_nil_r. Qed.

(** What a run of [_run] adds to the trace, whatever the events and the
    readers of the queue: passes, the first one over the frames that are
    left and the others over the video from its start, with the video set
    back between two of them; a single pass when the reader does not
    loop. *)
Lemma run_trace (passes : nat) (w : signals) (taken : consumer) :
  forall r : reader,
    exists (first : list frame) (rest : list (list frame)),
      trace (fst (_run passes w taken r))
      = trace r ++ passes_trace (first :: rest)
      /\ begins (remaining (_video_feed r)) first
      /\ Forall (begins (source (_video_feed r))) rest
      /\ (_loop r = false -> rest = []).
Proof.
  induction passes as [|passes IH]; intro r.
  - exists [], []. cbn. rewrite app_nil_r. repeat split.
    + now exists 0%nat.
    + constructor.
  - cbn [_run].
    destruct (read_frames_puts (S (length (remaining (_video_feed r)))) w
                taken 0 r) as (L & S1 & k & P).
    destruct (read_frames _ w taken 0 r) as [r1 left].
    cbn [fst] in L, S1, P.
    assert (B : begins (remaining (_video_feed r))
                  (firstn k (remaining (_video_feed r))))
      by now exists k.
    destruct left.
    2:{ exists (firstn k (remaining (_video_feed r))), [].
        cbn [fst]. rewrite passes_trace_one. repeat split; auto. }
    rewrite L. destruct (_loop r) eqn:Lr.
    + destruct (may_continue_keeps w r1) as (F2 & L2 & P2 & _).
      destruct (may_continue w r1) as [go r2]. cbn [snd] in F2, L2, P2.
      destruct go.
      * destruct (IH (rewound r2)) as (first & rest & Q & B1 & B2 & _).
        cbn [rewound _video_feed rewind remaining source trace] in Q, B1, B2.
        rewrite F2, S1 in B1, B2. rewrite P2, P in Q.
        exists (firstn k (remaining (_video_feed r))), (first :: rest).
        rewrite Q, passes_trace_cons, <- !app_assoc.
        repeat split; auto. discriminate.
      * exists (firstn k (remaining (_video_feed r))), [].
        cbn [fst with_feed trace]. rewrite passes_trace_one, P2.
        repeat split; auto.
    + exists (firstn k (remaining (_video_feed r))), [].
      cbn [fst with_feed trace]. rewrite passes_trace_one.
      repeat split; auto.
Qed.

(** A [put] returns when the readers of the queue keep up, and they still
    keep up after it. *)
Lemma Queue_put_keeps_up (i : item) (taken : consumer) (n : nat)
  (q : Queue) :
  keeps_up taken q ->
  exists q', Queue_put i (taken n) q = Some q' /\ keeps_up taken q'.
Proof.
  unfold keeps_up, Queue_put, no_room, taken_off, qsize.
  cbn [maxsize items].
  intros [U | [B T]].
  - replace (0 <? maxsize q) with false by (symmetry; apply Z.ltb_ge; lia).
    cbn [andb]. eexists. split; [reflexivity|]. left. exact U.
  - pose proof (T n) as Tn.
    pose proof (length_skipn (taken n) (items q)) as LS.
    destruct (Z.ltb_spec 0 (maxsize q)) as [M|M]; cbn [andb].
    + destruct (Z.leb_spec (maxsize q)
                  (Z.of_nat (length (skipn (taken n) (items q)))))
        as [C|C]; [lia|].
      eexists. split; [reflexivity|]. right. cbn [maxsize items].
      split; [|exact T]. rewrite length_app. cbn [length]. lia.
    + eexists. split; [reflexivity|]. left. exact M.
Qed.

Lemma put_keeps_up (i : item) (taken : consumer) (r : reader) :
  keeps_up taken (_frames_queue r) ->
  exists r',
    put i taken r = Some r' /\ keeps_up taken (_frames_queue r').
Proof.
  intro K. unfold put.
  destruct (Queue_put_keeps_up i taken (length (puts r)) _ K)
    as (q' & -> & K').
  eexists. split; [reflexivity | exact K'].
Qed.

Lemma may_continue_quiet (r : reader) :
  may_continue quiet r = (true, tick (tick r)).
Proof. reflexivity. Qed.

(** With no event set and readers of the queue that keep up, the inner
    loop puts every frame that is left. *)
Lemma read_frames_quiet (taken : consumer) (n : nat) :
  forall (frame_id : Z) (r : reader),
    isOpened (_video_feed r) = true ->
    (length (remaining (_video_feed r)) < n)%nat ->
    keeps_up taken (_frames_queue r) ->
    exists r',
      read_frames n quiet taken frame_id r = (r', true)
      /\ trace r'
         = trace r ++ map Put (numbered frame_id (remaining (_video_feed r)))
      /\ remaining (_video_feed r') = []
      /\ source (_video_feed r') = source (_video_feed r)
      /\ opened (_video_feed r') = true
      /\ _loop r' = _loop r
      /\ keeps_up taken (_frames_queue r').
Proof.
  induction n as [|n IH]; intros frame_id r O L K; [lia|].
  cbn [read_frames]. rewrite O, may_continue_quiet.
  unfold read. cbn [tick _video_feed].
  destruct (remaining (_video_feed r)) as [|f rest] eqn:R.
  - eexists. split; [reflexivity|].
    cbn [with_feed trace _video_feed tick numbered map _loop _frames_queue].
    rewrite app_nil_r. unfold isOpened in O. auto 10.
  - cbn [length] in L.
    set (c := mk_capture (source (_video_feed r)) rest
                (opened (_video_feed r))).
    destruct (put_keeps_up (frame_id, f) taken
                (with_feed c (tick (tick r))) K) as (r1 & Q & K1).
    rewrite Q. apply put_returns in Q. destruct Q as (F1 & L1 & T1 & _).
    cbn [with_feed tick _video_feed _loop trace] in F1, L1, T1.
    destruct (IH (frame_id + 1) r1) as (r' & E & P & Rm & S & Op & Lp & K').
    + rewrite F1. exact O.
    + rewrite F1. subst c. cbn [remaining]. lia.
    + exact K1.
    + exists r'. split; [exact E|].
      rewrite P, Rm, S, Op, Lp, T1, F1, L1. subst c.
      cbn [remaining source numbered map]. rewrite <- app_assoc.
      auto 10.
Qed.

(** A looping reader that sees no event, with readers of the queue that
    keep up: after each pass the video is set back, and the pass that
    follows puts the whole video, numbered from 0 again. *)
Lemma looping_run_trace (taken : consumer) (passes : nat) :
  forall r : reader,
    _loop r = true ->
    isOpened (_video_feed r) = true ->
    keeps_up taken (_frames_queue r) ->
    _run (S passes) quiet taken r
    = (fst (_run (S passes) quiet taken r), Running)
    /\ trace (fst (_run (S passes) quiet taken r))
       = trace r
           ++ passes_trace
                (remaining (_video_feed r)
                   :: repeat (source (_video_feed r)) passes)
           ++ [Rewound].
Proof.
  induction passes as [|passes IH]; intros r L O K.
  - cbn [_run].
    destruct (read_frames_quiet taken
                (S (length (remaining (_video_feed r)))) 0 r O ltac:(lia) K)
      as (r1 & E & P & Rm & S & Op & Lp & K1).
    rewrite E, Lp, L, may_continue_quiet. cbn [fst].
    split; [reflexivity|].
    cbn [rewound tick trace repeat]. rewrite P, passes_trace_one.
    now rewrite <- app_assoc.
  - change (_run (S (S passes)) quiet taken r)
      with (match
              read_frames (S (length (remaining (_video_feed r)))) quiet
                taken 0 r
            with
            | (r, false) => (r, Blocked)
            | (r, true) =>
                if _loop r then
                  let (go, r) := may_continue quiet r in
                  if go
                  then _run (S passes) quiet taken (rewound r)
                  else (with_feed (release (_video_feed r)) r, Finished)
                else (with_feed (release (_video_feed r)) r, Finished)
            end).
    destruct (read_frames_quiet taken
                (S (length (remaining (_video_feed r)))) 0 r O ltac:(lia) K)
      as (r1 & E & P & Rm & S & Op & Lp & K1).
    rewrite E, Lp, L, may_continue_quiet.
    destruct (IH (rewound (tick (tick r1)))) as (E2 & T2).
    + cbn [rewound tick _loop]. now rewrite Lp.
    + cbn [rewound tick _video_feed rewind isOpened opened]. exact Op.
    + cbn [rewound tick _frames_queue]. exact K1.
    + split; [rewrite E2 at 1; reflexivity|].
      rewrite T2.
      cbn [rewound tick trace _video_feed rewind remaining source repeat].
      rewrite P, S, passes_trace_cons, <- !app_assoc. reflexivity.
Qed.

(** C9, amended. What a run of the reader thread adds to the trace,
    whatever the events and the readers of the queue, is a sequence of
    passes over the feed: the first one puts a beginning of the frames
    that are left and each other one a beginning of the video from its
    first frame, each pass with the numbers 0, 1, 2, ..., and the video is
    set back between two passes; without looping there is one pass only.
    A looping reader that nothing stops does restart: each of its passes
    puts all the frames, numbered from 0, and sets the video back. And
    what the thread started by [change_feed] adds after the joined thread
    is again a sequence of passes over the new feed, each numbered from
    0. *)
Theorem frame_numbers_restart_per_pass (passes : nat) (w old new : signals)
  (taken : consumer) (r : reader) (feed_origin : origin)
  (is_video loop_video : bool) :
  (exists (first : list frame) (rest : list (list frame)),
      trace (fst (_run passes w taken r))
      = trace r ++ passes_trace (first :: rest)
      /\ begins (remaining (_video_feed r)) first
      /\ Forall (begins (source (_video_feed r))) rest
      /\ (_loop r = false -> rest = []))
  /\ (_loop r = true ->
      isOpened (_video_feed r) = true ->
      keeps_up taken (_frames_queue r) ->
      trace (fst (_run (S passes) quiet taken r))
      = trace r
          ++ passes_trace
               (remaining (_video_feed r)
                  :: repeat (source (_video_feed r)) passes)
          ++ [Rewound])
  /\ (forall (r' : reader) (s : status),
         change_feed passes old new taken r feed_origin is_video loop_video
         = Return (Some (r', s)) ->
         exists (r1 : reader) (first : list frame)
                (rest : list (list frame)),
           _run passes old taken r = (r1, Finished)
           /\ trace r' = trace r1 ++ passes_trace (first :: rest)
           /\ begins (content feed_origin) first
           /\ Forall (begins (content feed_origin)) rest
           /\ (loop_video = false -> rest = [])).
Proof.
  split; [apply run_trace|]. split.
  - intros L O K. apply (looping_run_trace taken passes r L O K).
  - intros r' s. unfold change_feed.
    destruct (_run passes old taken r) as [r1 [| |]] eqn:R;
      try discriminate.
    unfold _initialize_reader.
    destruct (isOpened (VideoCapture feed_origin)); [|discriminate].
    cbn [bind with_feed _video_feed _frames_shape _frames_queue trace].
    set (r2 := mk_reader _ _ _ _ _ _ _).
    intro H. injection H as H.
    destruct (run_trace passes new taken r2)
      as (first & rest & P & B1 & B2 & L).
    rewrite H in P. cbn [fst] in P.
    exists r1, first, rest. repeat split; assumption.
Qed.

(** C9, witness: a looping reader of a two-frame file that nothing stops,
    and a feed change on a reader of that file. *)
Lemma frame_numbers_restart_per_pass_witness :
  trace (fst (_run 3 quiet one_each looping_reader))
  = trace looping_reader
      ++ passes_trace
           (remaining (_video_feed looping_reader)
              :: repeat (source (_video_feed looping_reader)) 2)
      ++ [Rewound]
  /\ exists (r1 : reader) (first : list frame) (rest : list (list frame)),
      _run 5 (reset_from 3) nobody plain_reader = (r1, Finished)
      /\ trace after_change_feed = trace r1 ++ passes_trace (first :: rest)
      /\ begins (content two_frames) first
      /\ Forall (begins (content two_frames)) rest
      /\ (false = false -> rest = []).
Proof.
  split.
  - apply (proj1 (proj2 (frame_numbers_restart_per_pass 2 quiet quiet quiet
                           one_each looping_reader two_frames true true))).
    + reflexivity.
    + reflexivity.
    + right. split; [vm_compute; discriminate | intro n; apply le_n].
  - apply (proj2 (proj2 (frame_numbers_restart_per_pass 5 quiet
                           (reset_from 3) quiet nobody plain_reader
                           two_frames true false))
             after_change_feed Finished).
    vm_compute. reflexivity.
Defined.

(** C9, counterexample: in one run, a looping reader on a video of two
    frames numbers its items 0, 1, 0, 1, 0, 1: the numbers restart while
    the same feed keeps producing. *)
Lemma looping_reader_restarts :
  frame_numbers (puts (fst (_run 3 quiet nobody looping_reader)))
  = [0; 1; 0; 1; 0; 1]
  /\ steps_by_one
       (frame_numbers (puts (fst (_run 3 quiet nobody looping_reader))))
     = false.
Proof. split; vm_compute; reflexivity. Qed.

(** After [change_feed] the numbers start at 0 again. *)
Lemma change_feed_restarts :
  change_feed 5 (reset_from 3) quiet nobody plain_reader two_frames true
    false
  = Return (Some (after_change_feed, Finished))
  /\ frame_numbers (puts after_change_feed) = [0; 0; 1].
Proof. split; vm_compute; reflexivity. Qed.

End ReaderFacts.

(** ** Regions *)

Module UtilsFacts.
Import Py Utils.

Lemma min_by_pair (x1 x2 : Z) :
  let x_coords := [x1; x2] in
  let i := min_by (fun i => nth i x_coords 0) 0%nat [1%nat] in
  nth i x_coords 0 = Z.min x1 x2
  /\ nth (Nat.modulo (i + 1) 2) x_coords 0 = Z.max x1 x2.
Proof.
  cbn [min_by nth]. destruct (Z.ltb_spec x2 x1); cbn; lia.
Qed.

(** C10. For two points of two coordinates, [normalize_region] returns the
    coordinate-wise minimum followed by the coordinate-wise maximum, and
    does so whatever the order of its arguments. *)
Theorem normalize_region_min_max (x1 y1 x2 y2 : Z) :
  normalize_region [x1; y1] [x2; y2]
  = Return [[Z.min x1 x2; Z.min y1 y2]; [Z.max x1 x2; Z.max y1 y2]]
  /\ normalize_region [x1; y1] [x2; y2] = normalize_region [x2; y2] [x1; y1].
Proof.
  assert (E : forall a b c d,
             normalize_region [a; b] [c; d]
             = Return [[Z.min a c; Z.min b d]; [Z.max a c; Z.max b d]]).
  { intros a b c d. unfold normalize_region. cbn [getitem nth_error bind].
    destruct (min_by_pair a c) as [-> ->].
    destruct (min_by_pair b d) as [-> ->]. reflexivity. }
  split; [apply E|].
  rewrite !E, (Z.min_comm x2 x1), (Z.min_comm y2 y1),
    (Z.max_comm x2 x1), (Z.max_comm y2 y1). reflexivity.
Qed.

(** A point with fewer than two coordinates makes the subscript fail. *)
Lemma normalize_region_short_point :
  normalize_region [3] [1; 2] = Raise IndexError.
Proof. reflexivity. Qed.

End UtilsFacts.

(* ===================================================================== *)
(** * Further properties of the code *)
(* ===================================================================== *)

(** ** The codec of [src/comm_protocol]: layout, validity, errors *)

Module CodecMore.
Import Py PyFacts Struct StructFacts Crc CrcFacts Np CommProtocol CodecFacts.
Import Scenario.

(** On a buffer of the right length [deserialize] works on these slices:
    header byte at offset 3, frame number at 4, dimensions at 8 and 10,
    payload at 16, CRC behind the payload. *)
Lemma deserialize_fields_slices_eq (raw : list byte) :
  length raw = (22 + stored_payload_length raw)%nat ->
  deserialize_fields raw
  = decode_unpacked (slice raw 3 4) (bytes_to_int (slice raw 4 8))
      (bytes_to_int (slice raw 8 10)) (bytes_to_int (slice raw 10 12))
      (payload_bytes raw) (stored_crc raw).
Proof.
  intro H. unfold deserialize_fields.
  change (Z.to_nat
            (bytes_to_int
               (slice raw PAYLOAD_LEN_IDX
                  (PAYLOAD_LEN_IDX + LEN_PAYLOAD_LENGTH))))
    with (stored_payload_length raw).
  unfold unpack, payload_bytes, stored_crc, slice.
  set (L := stored_payload_length raw) in *.
  fold (packet_format L). rewrite calcsize_packet_format, H, Nat.eqb_refl.
  unfold packet_format.
  cbn [bind PACKING_FORMAT_START PACKING_FORMAT_END compute_payload_ser_format
       LEN_START_MAGIC_WORD LEN_END_MAGIC_WORD LEN_PROVER_PTYPE_CCOUNT_DTYPE
       LEN_FRAME_XY_SHAPE START_MAGIC_WORD END_MAGIC_WORD
       Nat.div Nat.divmod fst repeat app length
       unpack_items unpack_item item_size].
  rewrite !skipn_skipn.
  replace (16 + L - 16)%nat with L by lia.
  replace (18 + L - (16 + L))%nat with 2%nat by lia.
  replace (L + (4 + 2 + 2 + 4 + 1 + 3))%nat with (16 + L)%nat by lia.
  reflexivity.
Qed.

Lemma bits_value_two (s : list bool) :
  (length s <= 2)%nat -> 0 <= bits_value s <= 3.
Proof.
  destruct s as [|a [|b [|c s]]]; cbn [length]; try lia; intros _;
    try destruct a; try destruct b; vm_compute; split; discriminate.
Qed.

Lemma int_base2_two (s : list bool) (i j : nat) (v : Z) :
  (j - i <= 2)%nat -> int_base2 (slice s i j) = Return v -> 0 <= v <= 3.
Proof.
  intros Hj H. unfold int_base2 in H.
  destruct (slice s i j) as [|b r] eqn:E; [discriminate|].
  injection H as <-. apply bits_value_two. rewrite <- E.
  unfold slice. rewrite length_firstn. lia.
Qed.

Lemma frombuffer_inv (buf : list byte) (d : dtype) (a : ndarray) :
  frombuffer buf d = Return a ->
  a = mk_ndarray [Z.of_nat (Nat.div (length buf) (itemsize d))] d buf
  /\ Nat.modulo (length buf) (itemsize d) = 0%nat.
Proof.
  unfold frombuffer.
  destruct (Nat.eqb_spec (Nat.modulo (length buf) (itemsize d)) 0);
    [|discriminate].
  intro H. injection H as <-. auto.
Qed.

Lemma reshape_inv (a b : ndarray) (sh : list Z) :
  reshape a sh = Return b ->
  b = mk_ndarray sh (dtype_of a) (buffer a) /\ prod sh = size a.
Proof.
  unfold reshape. destruct (Z.eqb_spec (prod sh) (size a)); [|discriminate].
  intro H. injection H as <-. auto.
Qed.

Lemma itemsize_pos (d : dtype) : (0 < itemsize d)%nat.
Proof. destruct d; cbn; lia. Qed.

(** What [decode_unpacked] returns when it returns fields. *)
Lemma decode_unpacked_inv (hb : list byte) (fn x y : Z) (pb : list byte)
  (crc : Z) (d : decoded) :
  decode_unpacked hb fn x y pb crc = Return (Some d) ->
  d_frame_number d = fn
  /\ d_payload_bin d = pb
  /\ d_payload_crc d = crc
  /\ 0 <= d_frame_channel_count d <= 3
  /\ d_shape d = decoded_shape x y (d_frame_channel_count d)
  /\ d_payload d = mk_ndarray (d_shape d) (type_ (d_payload_dtype d)) pb
  /\ Z.of_nat (length pb)
     = prod (d_shape d) * Z.of_nat (itemsize (type_ (d_payload_dtype d))).
Proof.
  unfold decode_unpacked.
  destruct (int_base2 (slice _ 0 BIT_LEN_PROTOCOL_VER)) as [v|];
    [|discriminate].
  cbn [bind]. destruct (negb (v =? PROTOCOL_VER)); [discriminate|].
  destruct (int_base2 (slice _ BIT_LEN_PROTOCOL_VER _)) as [tv|];
    [|discriminate].
  cbn [bind]. destruct (PacketType_of_value tv) as [t|]; [|discriminate].
  cbn [bind].
  destruct (int_base2 (slice _ (BIT_LEN_PROTOCOL_VER + BIT_LEN_PACKET_TYPE) _))
    as [c|] eqn:C; [|discriminate].
  cbn [bind]. destruct (int_base2 (slice_from _ _)) as [dv|]; [|discriminate].
  cbn [bind]. destruct (from_bin_form dv) as [pd|]; [|discriminate].
  cbn [bind]. destruct (frombuffer pb (type_ pd)) as [a|] eqn:F;
    [|discriminate].
  cbn [bind].
  change (if c =? 1 then firstn 2 [x; y; c] else [x; y; c])
    with (decoded_shape x y c).
  destruct (reshape a (decoded_shape x y c)) as [b|] eqn:R; [|discriminate].
  cbn [bind]. intro H. injection H as <-.
  cbn [d_frame_number d_payload_bin d_payload_crc d_frame_channel_count
       d_shape d_payload d_payload_dtype].
  apply int_base2_two in C; [|cbn; lia].
  apply frombuffer_inv in F. destruct F as [-> M].
  apply reshape_inv in R. destruct R as [-> P].
  cbn [dtype_of buffer] in *. repeat split; try lia.
  rewrite P. unfold size. cbn [shape prod fold_right].
  pose proof (itemsize_pos (type_ pd)) as I.
  pose proof (Nat.div_mod_eq (length pb) (itemsize (type_ pd))) as Q.
  rewrite M in Q. lia.
Qed.

Lemma deserialize_inv (raw : list byte) (p : Packet) :
  deserialize raw = Return (Some p) ->
  length raw = (22 + stored_payload_length raw)%nat
  /\ exists d,
      decode_unpacked (slice raw 3 4) (bytes_to_int (slice raw 4 8))
        (bytes_to_int (slice raw 8 10)) (bytes_to_int (slice raw 10 12))
        (payload_bytes raw) (stored_crc raw) = Return (Some d)
      /\ d_payload_crc d = arc (d_payload_bin d)
      /\ p = mk_Packet (d_frame_number d) (d_packet_type d)
               (d_payload_dtype d) (d_shape d) (d_frame_channel_count d)
               (d_payload d) (d_payload_crc d).
Proof.
  intro H.
  destruct (Nat.eq_dec (length raw) (22 + stored_payload_length raw))
    as [L|L].
  - split; [exact L|]. unfold deserialize in H.
    rewrite (deserialize_fields_slices_eq raw L) in H.
    destruct (decode_unpacked _ _ _ _ _ _) as [[d|]|]; try discriminate.
    cbn [bind] in H. unfold deserialize_checked in H.
    destruct (Z.eqb_spec (d_payload_crc d) (arc (d_payload_bin d)));
      [|discriminate].
    cbn [negb] in H. destruct placeholder_returns as [q Q].
    rewrite Q in H. cbn [bind] in H. injection H as <-.
    exists d. auto.
  - unfold deserialize in H. rewrite (deserialize_fields_length raw L) in H.
    discriminate.
Qed.

(** Every packet that [deserialize] returns is valid ([is_valid]): its CRC
    is the one stored in the buffer and is the CRC of its payload bytes,
    which are the payload bytes of the buffer; its frame number fits 32
    bits, it has at most 3 channels, the buffer is 22 bytes longer than its
    payload, and the payload has as many bytes as its shape and element
    type ask for. *)
Theorem deserialize_returns_valid (raw : list byte) (p : Packet) :
  deserialize raw = Return (Some p) ->
  is_valid p = true
  /\ 0 <= CommProtocol.frame_number p < 2 ^ 32
  /\ 0 <= frame_channel_count p <= 3
  /\ payload_crc p = stored_crc raw
  /\ tobytes (CommProtocol.payload p) = payload_bytes raw
  /\ length raw = (22 + payload_length p)%nat
  /\ consistent (CommProtocol.payload p).
Proof.
  intro H. destruct (deserialize_inv raw p H) as (L & d & D & C & ->).
  destruct (decode_unpacked_inv _ _ _ _ _ _ d D)
    as (Fn & Pb & Crc & Ch & Sh & Pl & Len).
  assert (R4 : 0 <= bytes_to_int (slice raw 4 8)
               < 256 ^ Z.of_nat (length (slice raw 4 8)))
    by apply (int_from_bytes_range Little).
  assert (Rx : 0 <= bytes_to_int (slice raw 8 10))
    by apply (int_from_bytes_range Little).
  assert (Ry : 0 <= bytes_to_int (slice raw 10 12))
    by apply (int_from_bytes_range Little).
  assert (L4 : (length (slice raw 4 8) <= 4)%nat)
    by (unfold slice; rewrite length_firstn; lia).
  assert (B : 256 ^ Z.of_nat (length (slice raw 4 8)) <= 2 ^ 32).
  { change (2 ^ 32) with (256 ^ 4). apply Z.pow_le_mono_r; lia. }
  assert (PL : length (payload_bytes raw) = stored_payload_length raw).
  { unfold payload_bytes, slice. rewrite length_firstn, length_skipn. lia. }
  unfold is_valid, payload_length, tobytes, consistent.
  cbn [CommProtocol.frame_number frame_channel_count payload_crc
       CommProtocol.payload].
  rewrite Pl. cbn [buffer shape dtype_of size].
  split.
  { rewrite C, Pb, Z.eqb_refl. cbn [andb]. apply Z.leb_le. lia. }
  split; [lia|]. split; [lia|]. split; [congruence|].
  split; [reflexivity|]. split; [lia|]. split.
  - rewrite Sh. unfold decoded_shape.
    destruct (d_frame_channel_count d =? 1); repeat constructor; lia.
  - unfold size. cbn [shape]. exact Len.
Qed.

Lemma deserialize_returns_valid_witness :
  is_valid S1_decoded = true
  /\ 0 <= CommProtocol.frame_number S1_decoded < 2 ^ 32
  /\ 0 <= frame_channel_count S1_decoded <= 3
  /\ payload_crc S1_decoded = stored_crc S1_bytes
  /\ tobytes (CommProtocol.payload S1_decoded) = payload_bytes S1_bytes
  /\ length S1_bytes = (22 + payload_length S1_decoded)%nat
  /\ consistent (CommProtocol.payload S1_decoded).
Proof.
  apply (deserialize_returns_valid S1_bytes S1_decoded).
  vm_compute. reflexivity.
Defined.

Lemma slice_inside (m body e : list byte) (i j : nat) :
  (length m <= i)%nat -> (i <= j)%nat -> (j <= length m + length body)%nat ->
  slice (m ++ body ++ e) i j = slice body (i - length m) (j - length m).
Proof.
  intros Hi Hij Hj. unfold slice.
  rewrite skipn_app, skipn_all2 by lia. cbn [app].
  rewrite skipn_app, firstn_app, length_skipn.
  replace (j - i - (length body - (i - length m)))%nat with 0%nat by lia.
  cbn [firstn]. rewrite app_nil_r. f_equal. lia.
Qed.

(** [deserialize] does not look at the magic words: the bytes at offsets
    0..2 and the last four bytes have no effect on its result. *)
Theorem deserialize_ignores_magic (m m' body e e' : list byte) :
  length m = 3%nat -> length m' = 3%nat ->
  length e = 4%nat -> length e' = 4%nat ->
  deserialize (m ++ body ++ e) = deserialize (m' ++ body ++ e').
Proof.
  intros Hm Hm' He He'.
  assert (Lme : length (m ++ body ++ e) = (7 + length body)%nat)
    by (rewrite !length_app; lia).
  assert (Lme' : length (m' ++ body ++ e') = (7 + length body)%nat)
    by (rewrite !length_app; lia).
  destruct (Nat.le_gt_cases 13 (length body)) as [Big|Small].
  - assert (S : forall i j, (3 <= i)%nat -> (i <= j)%nat ->
                  (j <= 3 + length body)%nat ->
                  slice (m ++ body ++ e) i j = slice (m' ++ body ++ e') i j).
    { intros i j Hi Hij Hj.
      rewrite !slice_inside by lia. now rewrite Hm, Hm'. }
    assert (SL : stored_payload_length (m ++ body ++ e)
                 = stored_payload_length (m' ++ body ++ e')).
    { unfold stored_payload_length. rewrite (S 12 16)%nat by lia.
      reflexivity. }
    destruct (Nat.eq_dec (length (m ++ body ++ e))
                (22 + stored_payload_length (m ++ body ++ e))) as [L|L].
    + assert (L' : length (m' ++ body ++ e')
                   = (22 + stored_payload_length (m' ++ body ++ e'))%nat)
        by lia.
      unfold deserialize.
      rewrite (deserialize_fields_slices_eq _ L).
      rewrite (deserialize_fields_slices_eq _ L').
      unfold payload_bytes, stored_crc. rewrite <- SL.
      set (n := stored_payload_length (m ++ body ++ e)) in *.
      rewrite (S 3 4)%nat, (S 4 8)%nat, (S 8 10)%nat, (S 10 12)%nat by lia.
      rewrite (S 16 (16 + n))%nat by lia.
      rewrite (S (16 + n) (18 + n))%nat by lia.
      reflexivity.
    + assert (L' : length (m' ++ body ++ e')
                   <> (22 + stored_payload_length (m' ++ body ++ e'))%nat)
        by lia.
      unfold deserialize.
      now rewrite (deserialize_fields_length _ L),
        (deserialize_fields_length _ L').
  - unfold deserialize.
    rewrite !deserialize_fields_length by lia. reflexivity.
Qed.

Lemma deserialize_ignores_magic_witness :
  deserialize ([x00; x00; x00] ++ skipn 3 (firstn 30 S1_bytes)
                 ++ [xff; xff; xff; xff])
  = deserialize S1_bytes.
Proof.
  apply (deserialize_ignores_magic [x00; x00; x00] [x49; x4e; x55]
           (skipn 3 (firstn 30 S1_bytes)) [xff; xff; xff; xff]
           [x4e; x45; x4b; x4f]); reflexivity.
Defined.

Lemma slice_one (raw : list byte) (i : nat) :
  (i < length raw)%nat -> slice raw i (S i) = [nth i raw x00].
Proof.
  intro H. unfold slice. replace (S i - i)%nat with 1%nat by lia.
  revert i H. induction raw as [|b raw IH]; intros i H; cbn [length] in H;
    [lia|].
  destruct i as [|i]; [reflexivity|]. cbn [skipn nth]. apply IH. lia.
Qed.

Lemma bytes_to_int_one (b : byte) : bytes_to_int [b] = Z_of_byte b.
Proof.
  unfold bytes_to_int, int_from_bytes. cbn [BYTE_ORDER ordered le_value]. lia.
Qed.

Lemma version_rejected_from_192 (hb : Z) :
  192 <= hb < 256 -> version_rejected hb = true.
Proof.
  intro H. pose proof version_check_11 as A.
  rewrite forallb_forall in A. apply A.
  apply in_map_iff. exists (Z.to_nat hb). split; [lia|].
  apply in_seq. lia.
Qed.

(** A buffer of the right length whose header byte has the version bits 11
    is rejected with None, whatever else it holds. *)
Theorem version_11_rejected (raw : list byte) :
  length raw = (22 + stored_payload_length raw)%nat ->
  192 <= Z_of_byte (nth 3 raw x00) ->
  deserialize raw = Return None.
Proof.
  intros L V. unfold deserialize.
  rewrite (deserialize_fields_slices_eq raw L).
  rewrite (slice_one raw 3) by lia.
  unfold decode_unpacked. rewrite bytes_to_int_one.
  pose proof (Z_of_byte_range (nth 3 raw x00)) as R.
  pose proof (version_rejected_from_192 _ (conj V (proj2 R))) as J.
  unfold version_rejected in J.
  destruct (int_base2 (slice (bin_digits (Z_of_byte (nth 3 raw x00))) 0
                         BIT_LEN_PROTOCOL_VER)) as [v|]; [|discriminate].
  cbn [bind]. rewrite J. reflexivity.
Qed.

Lemma version_11_rejected_witness :
  deserialize version_11_buffer = Return None.
Proof.
  apply (version_11_rejected version_11_buffer).
  - vm_compute. reflexivity.
  - vm_compute. discriminate.
Defined.

Lemma stored_crc_wire header frame_number x y payload_bin crc :
  Z.of_nat (length payload_bin) < 2 ^ 32 ->
  0 <= crc < 2 ^ 16 ->
  stored_crc (wire header frame_number x y payload_bin crc) = crc.
Proof.
  intros Hl Hc. unfold stored_crc.
  rewrite stored_payload_length_wire by exact Hl.
  rewrite wire_split. unfold slice.
  set (pre := START_MAGIC_WORD ++ _).
  assert (P : length pre = 16%nat)
    by (subst pre; rewrite !length_app, !length_le_bytes; reflexivity).
  replace (18 + length payload_bin - (16 + length payload_bin))%nat
    with 2%nat by lia.
  assert (Q : length (pre ++ payload_bin) = (16 + length payload_bin)%nat)
    by (rewrite length_app, P; lia).
  rewrite app_assoc, skipn_app, skipn_all2, Q, Nat.sub_diag by lia.
  cbn [app skipn le_bytes firstn END_MAGIC_WORD].
  change (bytes_to_int ?l) with (le_value l).
  change [byte_of_Z crc; byte_of_Z (crc / 256)] with (le_bytes 2 crc).
  rewrite le_value_le_bytes. apply Z.mod_small. cbn. lia.
Qed.

Lemma wire_frame_number header frame_number x y payload_bin crc :
  0 <= frame_number < 2 ^ 32 ->
  bytes_to_int (slice (wire header frame_number x y payload_bin crc) 4 8)
  = frame_number.
Proof.
  intro H. unfold wire, slice.
  cbn [START_MAGIC_WORD le_bytes app skipn Nat.sub firstn].
  change (bytes_to_int ?l) with (le_value l).
  match goal with
  | |- le_value ?l = _ => change l with (le_bytes 4 frame_number)
  end.
  rewrite le_value_le_bytes. apply Z.mod_small. cbn. lia.
Qed.

Lemma wire_end header frame_number x y payload_bin crc :
  skipn (18 + length payload_bin)
    (wire header frame_number x y payload_bin crc)
  = END_MAGIC_WORD.
Proof.
  rewrite wire_split.
  set (pre := START_MAGIC_WORD ++ _).
  assert (P : length pre = 16%nat)
    by (subst pre; rewrite !length_app, !length_le_bytes; reflexivity).
  rewrite !app_assoc.
  assert (Q : length ((pre ++ payload_bin) ++ le_bytes 2 crc)
              = (18 + length payload_bin)%nat)
    by (rewrite !length_app, P, length_le_bytes; lia).
  rewrite skipn_app, skipn_all2, Q, Nat.sub_diag by lia.
  reflexivity.
Qed.

(** A packet made from well-formed arguments serializes, to 22 bytes more
    than its payload: the start word, 13 bytes of header, the payload as it
    is, its CRC and the end word. *)
Theorem serialize_layout (frame_number : Z) (t : PacketType)
  (payload : ndarray) :
  well_formed frame_number payload = true ->
  exists p raw,
    init frame_number t payload = Return p
    /\ serialize p = Return raw
    /\ length raw = (22 + length (tobytes payload))%nat
    /\ firstn 3 raw = START_MAGIC_WORD
    /\ bytes_to_int (slice raw 4 8) = frame_number
    /\ stored_payload_length raw = length (tobytes payload)
    /\ payload_bytes raw = tobytes payload
    /\ stored_crc raw = arc (tobytes payload)
    /\ skipn (18 + length (tobytes payload)) raw = END_MAGIC_WORD.
Proof.
  intro WF.
  destruct (serialize_init frame_number t payload WF)
    as (h & w & c & pd & Hn & Hh & Hw & Hc & Hshape & Ht & Hlen & Hl & I & S).
  eexists _, _. split; [exact I|]. split; [exact S|]. unfold tobytes.
  split; [apply length_wire|]. split; [reflexivity|].
  split; [now apply wire_frame_number|].
  split; [now apply stored_payload_length_wire|].
  split; [now apply payload_bytes_wire|].
  split; [apply stored_crc_wire; auto using arc_range | apply wire_end].
Qed.

Lemma serialize_layout_witness :
  well_formed 0xFA S1_payload = true
  /\ exists p raw,
      init 0xFA FRAME S1_payload = Return p
      /\ serialize p = Return raw
      /\ length raw = (22 + length (tobytes S1_payload))%nat
      /\ firstn 3 raw = START_MAGIC_WORD
      /\ bytes_to_int (slice raw 4 8) = 0xFA
      /\ stored_payload_length raw = length (tobytes S1_payload)
      /\ payload_bytes raw = tobytes S1_payload
      /\ stored_crc raw = arc (tobytes S1_payload)
      /\ skipn (18 + length (tobytes S1_payload)) raw = END_MAGIC_WORD.
Proof.
  split; [reflexivity|].
  apply (serialize_layout 0xFA FRAME S1_payload). reflexivity.
Defined.

Lemma lor_range (n a b : Z) :
  0 <= n -> 0 <= a < 2 ^ n -> 0 <= b < 2 ^ n -> 0 <= Z.lor a b < 2 ^ n.
Proof.
  intros Hn Ha Hb. split; [apply Z.lor_nonneg; lia|].
  destruct (Z.eq_dec a 0) as [->|Na]; [now rewrite Z.lor_0_l|].
  destruct (Z.eq_dec b 0) as [->|Nb]; [now rewrite Z.lor_0_r|].
  assert (0 <= Z.lor a b) by (apply Z.lor_nonneg; lia).
  destruct (Z.eq_dec (Z.lor a b) 0) as [->|Nx]; [lia|].
  apply Z.log2_lt_pow2; [lia|].
  rewrite Z.log2_lor by lia.
  assert (Z.log2 a < n) by (apply Z.log2_lt_pow2; lia).
  assert (Z.log2 b < n) by (apply Z.log2_lt_pow2; lia).
  lia.
Qed.

Lemma header_byte_fits (t : PacketType) (c : Z) (d : PacketDataType) :
  0 <= c < 64 ->
  0 <= header_byte (PacketType_value t) c (bin_form d) < 256.
Proof.
  intro H. unfold header_byte. change 256 with (2 ^ 8).
  repeat apply lor_range; try lia.
  - vm_compute. split; [discriminate | reflexivity].
  - rewrite Z.shiftl_mul_pow2 by lia. destruct t; cbn; lia.
  - rewrite Z.shiftl_mul_pow2 by lia. change (2 ^ 2) with 4.
    change (2 ^ 8) with 256. lia.
  - destruct d; cbn; lia.
Qed.

Lemma int_to_bytes_header (h : Z) :
  0 <= h < 256 -> int_to_bytes h 1 BYTE_ORDER = Return [byte_of_Z h].
Proof.
  intro H. unfold int_to_bytes.
  destruct (Z.leb_spec 0 h); [|lia].
  destruct (Z.ltb_spec h (256 ^ Z.of_nat 1)); [|cbn in *; lia].
  reflexivity.
Qed.

Lemma pack_uint_out_of_range (order : byteorder) (len : nat) (n : Z) :
  ~ 0 <= n < 256 ^ Z.of_nat len -> pack_uint order len n = Raise StructError.
Proof.
  intro H. unfold pack_uint.
  destruct (Z.leb_spec 0 n); [|reflexivity].
  destruct (Z.ltb_spec n (256 ^ Z.of_nat len)); [lia | reflexivity].
Qed.

(** [serialize] raises struct.error on a frame number that is negative or
    does not fit 32 bits. *)
Theorem serialize_frame_number_out_of_range (p : Packet) :
  0 <= frame_channel_count p < 64 ->
  ~ 0 <= CommProtocol.frame_number p < 2 ^ 32 ->
  serialize p = Raise StructError.
Proof.
  intros Hc Hn. unfold serialize.
  rewrite (int_to_bytes_header _
             (header_byte_fits (packet_type p) _ (payload_dtype p) Hc)).
  cbn [bind]. unfold pack.
  destruct (frame_shape p) as [|a [|b rest]]; [reflexivity | reflexivity |].
  cbn [PACKING_FORMAT_START PACKING_FORMAT_END compute_payload_ser_format
       LEN_START_MAGIC_WORD LEN_END_MAGIC_WORD LEN_PROVER_PTYPE_CCOUNT_DTYPE
       LEN_FRAME_XY_SHAPE START_MAGIC_WORD END_MAGIC_WORD
       Nat.div Nat.divmod fst repeat app length Nat.eqb firstn map
       pack_items pack_item bind].
  rewrite (pack_uint_out_of_range Little 4) by (cbn; lia).
  reflexivity.
Qed.

Lemma serialize_frame_number_out_of_range_witness :
  serialize (mk_Packet (-1) OK U8_INT [0; 0] 1 empty_payload 0)
  = Raise StructError.
Proof.
  apply (serialize_frame_number_out_of_range
           (mk_Packet (-1) OK U8_INT [0; 0] 1 empty_payload 0)).
  - cbn. lia.
  - cbn. lia.
Defined.

(** A payload with fewer than two dimensions, other than the empty array of
    shape (0,), makes a packet that [serialize] cannot pack: struct.error
    for a missing argument. *)
Theorem serialize_needs_two_dimensions (frame_number : Z) (t : PacketType)
  (payload : ndarray) :
  (length (shape payload) < 2)%nat ->
  shape_eqb (shape payload) [0] = false ->
  supported (dtype_of payload) = true ->
  exists p,
    init frame_number t payload = Return p
    /\ serialize p = Raise StructError.
Proof.
  intros Hs Hz Hd. destruct (from_dtype_supported _ Hd) as (pd & Hpd & _).
  unfold init. rewrite Hpd, Hz. cbn [bind].
  destruct (Nat.leb_spec (length (shape payload)) 2); [|lia].
  eexists. split; [reflexivity|]. unfold serialize.
  cbn [packet_type frame_channel_count payload_dtype frame_shape].
  rewrite (int_to_bytes_header _ (header_byte_fits t 1 pd ltac:(lia))).
  cbn [bind]. unfold pack.
  destruct (shape payload) as [|a [|b rest]]; [reflexivity | reflexivity |].
  cbn [length] in Hs. lia.
Qed.

Lemma serialize_needs_two_dimensions_witness :
  exists p,
    init 0 FRAME (mk_ndarray [3] uint8 [x01; x02; x03]) = Return p
    /\ serialize p = Raise StructError.
Proof.
  apply (serialize_needs_two_dimensions 0 FRAME
           (mk_ndarray [3] uint8 [x01; x02; x03])).
  - cbn. lia.
  - reflexivity.
  - reflexivity.
Defined.

Lemma wire_dimensions header frame_number x y payload_bin crc :
  0 <= x < 2 ^ 16 -> 0 <= y < 2 ^ 16 ->
  bytes_to_int (slice (wire header frame_number x y payload_bin crc) 8 10) = x
  /\ bytes_to_int (slice (wire header frame_number x y payload_bin crc) 10 12)
     = y.
Proof.
  intros Hx Hy. unfold wire, slice.
  cbn [START_MAGIC_WORD le_bytes app skipn Nat.sub firstn].
  change (bytes_to_int ?l) with (le_value l).
  change [byte_of_Z x; byte_of_Z (x / 256)] with (le_bytes 2 x).
  change [byte_of_Z y; byte_of_Z (y / 256)] with (le_bytes 2 y).
  rewrite !le_value_le_bytes, !Z.mod_small by (cbn; lia). auto.
Qed.

Lemma wire_header header frame_number x y payload_bin crc :
  slice (wire header frame_number x y payload_bin crc) 3 4
  = [byte_of_Z header].
Proof. reflexivity. Qed.

(** [decode_unpacked] on the header byte of a packet type, a channel count
    of 2 bits and an element type. *)
Lemma decode_unpacked_header (t : PacketType) (c : Z) (d : PacketDataType)
  (fn x y : Z) (pb : list byte) (crc : Z) :
  0 <= c <= 3 ->
  decode_unpacked [byte_of_Z (header_byte (PacketType_value t) c (bin_form d))]
    fn x y pb crc
  = (a <- frombuffer pb (type_ d) ;;
     b <- reshape a (decoded_shape x y c) ;;
     Return (Some (mk_decoded t c fn (decoded_shape x y c) b d pb crc))).
Proof.
  intro Hc. unfold decode_unpacked.
  rewrite bytes_to_int_single
    by (pose proof (header_byte_range t c d Hc); lia).
  destruct (parse_header t c d Hc) as (P1 & P2 & P3 & P4).
  cbv zeta in P1, P2, P3, P4.
  rewrite P1. cbn [bind]. rewrite Z.eqb_refl. cbn [negb].
  rewrite P2. cbn [bind]. rewrite PacketType_of_value_value. cbn [bind].
  rewrite P3. cbn [bind]. rewrite P4. cbn [bind].
  rewrite from_bin_form_bin_form. cbn [bind]. reflexivity.
Qed.

Lemma header_byte_four_channels (t : PacketType) (d : PacketDataType) :
  header_byte (PacketType_value t) 4 (bin_form d)
  = header_byte (PacketType_value (spilled t)) 0 (bin_form d).
Proof. destruct t, d; reflexivity. Qed.

Lemma serialize_packet_wide (frame_number : Z) (t : PacketType)
  (pd : PacketDataType) (h w c : Z) (payload : ndarray) (crc : Z) :
  0 <= frame_number < 2 ^ 32 ->
  0 <= h < 2 ^ 16 -> 0 <= w < 2 ^ 16 -> 0 <= c < 64 ->
  Z.of_nat (length (buffer payload)) < 2 ^ 32 ->
  0 <= crc < 2 ^ 16 ->
  serialize (mk_Packet frame_number t pd [h; w] c payload crc)
  = Return (wire (header_byte (PacketType_value t) c (bin_form pd))
              frame_number h w (buffer payload) crc).
Proof.
  intros Hn Hh Hw Hc Hl Hcrc. unfold serialize.
  cbn [packet_type frame_channel_count payload_dtype
       CommProtocol.frame_number frame_shape CommProtocol.payload
       payload_crc payload_length tobytes].
  rewrite (int_to_bytes_header _ (header_byte_fits t c pd Hc)).
  cbn [bind firstn map app].
  apply (pack_wire _ frame_number h w (buffer payload) crc Hn Hh Hw Hl Hcrc).
Qed.

(** A non-empty payload with four channels serializes, and [deserialize]
    of the result raises ValueError: the header byte announces a payload
    without channels, to which the bytes cannot be reshaped. *)
Theorem four_channels_cannot_be_decoded (frame_number : Z) (t : PacketType)
  (payload : ndarray) (h w : Z) :
  0 <= frame_number < 2 ^ 32 ->
  shape payload = [h; w; 4] ->
  0 < h < 2 ^ 16 -> 0 < w < 2 ^ 16 ->
  supported (dtype_of payload) = true ->
  Z.of_nat (length (buffer payload))
  = h * w * 4 * Z.of_nat (itemsize (dtype_of payload)) ->
  Z.of_nat (length (buffer payload)) < 2 ^ 32 ->
  exists p raw,
    init frame_number t payload = Return p
    /\ frame_channel_count p = 4
    /\ serialize p = Return raw
    /\ deserialize raw = Raise ValueError.
Proof.
  intros Hn Hs Hh Hw Hd Hlen Hl.
  destruct (from_dtype_supported _ Hd) as (pd & Hpd & Ht).
  assert (I : init frame_number t payload
              = Return (mk_Packet frame_number t pd [h; w] 4 payload
                          (arc (buffer payload)))).
  { unfold init. rewrite Hpd, Hs.
    cbn [bind shape_eqb length Nat.leb nth firstn].
    destruct (h =? 0); reflexivity. }
  eexists _, _. split; [exact I|]. split; [reflexivity|].
  split.
  { apply serialize_packet_wide; auto using arc_range; lia. }
  rewrite header_byte_four_channels.
  set (hb := header_byte _ 0 _).
  unfold deserialize.
  rewrite deserialize_fields_slices_eq
    by (rewrite length_wire, stored_payload_length_wire by exact Hl;
        reflexivity).
  rewrite wire_header, wire_frame_number by exact Hn.
  destruct (wire_dimensions hb frame_number h w (buffer payload)
              (arc (buffer payload)) ltac:(lia) ltac:(lia)) as [-> ->].
  rewrite payload_bytes_wire by exact Hl.
  rewrite stored_crc_wire by auto using arc_range.
  subst hb. rewrite decode_unpacked_header by lia.
  unfold frombuffer.
  assert (M : Nat.modulo (length (buffer payload)) (itemsize (type_ pd))
              = 0%nat).
  { apply Nat2Z.inj. rewrite Nat2Z.inj_mod, Hlen, Ht. apply Z.mod_mul.
    pose proof (itemsize_pos (dtype_of payload)). lia. }
  rewrite M. cbn [Nat.eqb bind]. unfold reshape, size, decoded_shape.
  cbn [shape prod fold_right Z.eqb].
  rewrite Nat2Z.inj_div, Hlen, Ht, Z.div_mul
    by (pose proof (itemsize_pos (dtype_of payload)); lia).
  destruct (Z.eqb_spec (h * (w * (0 * 1))) (h * w * 4 * 1)) as [E|N];
    [nia | reflexivity].
Qed.

Lemma four_channels_cannot_be_decoded_witness :
  exists p raw,
    init 0 OK (mk_ndarray [1; 1; 4] uint8 [x01; x02; x03; x04]) = Return p
    /\ frame_channel_count p = 4
    /\ serialize p = Return raw
    /\ deserialize raw = Raise ValueError.
Proof.
  apply (four_channels_cannot_be_decoded 0 OK
           (mk_ndarray [1; 1; 4] uint8 [x01; x02; x03; x04]) 1 1);
    cbn; try reflexivity; lia.
Defined.

(** The round trip is exact on the bytes: for well-formed arguments, NaN or
    not, [deserialize(serialize(p))] returns a packet with the frame
    number, the type, the element type, the CRC and the payload bytes of
    [p]; only the shape may differ, by the dropped axis of a single
    channel. *)
Theorem round_trip_is_exact (frame_number : Z) (t : PacketType)
  (payload : ndarray) :
  well_formed frame_number payload = true ->
  exists p raw q,
    init frame_number t payload = Return p
    /\ serialize p = Return raw
    /\ deserialize raw = Return (Some q)
    /\ CommProtocol.frame_number q = frame_number
    /\ packet_type q = t
    /\ payload_dtype q = payload_dtype p
    /\ payload_crc q = payload_crc p
    /\ tobytes (CommProtocol.payload q) = tobytes payload
    /\ dtype_of (CommProtocol.payload q) = dtype_of payload
    /\ (single_channel_3d payload = false ->
        CommProtocol.payload q = payload).
Proof.
  intro WF.
  destruct (serialize_init frame_number t payload WF)
    as (h & w & c & pd & Hn & Hh & Hw & Hc & Hshape & Ht & Hlen & Hl & I & S).
  eexists _, _, _. split; [exact I|]. split; [exact S|].
  assert (Hsize : Z.of_nat (length (buffer payload))
                  = prod (decoded_shape h w c)
                    * Z.of_nat (itemsize (type_ pd)))
    by (rewrite prod_decoded_shape, Ht; exact Hlen).
  rewrite (deserialize_wire t c pd frame_number h w (buffer payload)
             (arc (buffer payload)) Hc Hn Hh Hw Hl (arc_range _) Hsize).
  rewrite Z.eqb_refl. split; [reflexivity|].
  cbn [CommProtocol.frame_number packet_type payload_dtype payload_crc
       CommProtocol.payload tobytes buffer dtype_of].
  repeat (split; [reflexivity || exact Ht|]).
  unfold single_channel_3d. destruct payload as [sh dt buf].
  cbn [shape dtype_of buffer] in *. subst dt.
  destruct Hshape as [[-> ->] | ->].
  - reflexivity.
  - unfold decoded_shape. destruct (c =? 1); [discriminate | reflexivity].
Qed.

Lemma round_trip_is_exact_witness :
  exists p raw q,
    init 0xFA FRAME S1_payload = Return p
    /\ serialize p = Return raw
    /\ deserialize raw = Return (Some q)
    /\ CommProtocol.frame_number q = 0xFA
    /\ packet_type q = FRAME
    /\ payload_dtype q = payload_dtype p
    /\ payload_crc q = payload_crc p
    /\ tobytes (CommProtocol.payload q) = tobytes S1_payload
    /\ dtype_of (CommProtocol.payload q) = dtype_of S1_payload
    /\ (single_channel_3d S1_payload = false ->
        CommProtocol.payload q = S1_payload).
Proof.
  apply (round_trip_is_exact 0xFA FRAME S1_payload). reflexivity.
Defined.

Lemma wire_frame_number_bytes header frame_number x y payload_bin crc :
  wire header frame_number x y payload_bin crc
  = firstn 4 (wire header 0 x y payload_bin crc)
      ++ le_bytes 4 frame_number
      ++ skipn 8 (wire header 0 x y payload_bin crc).
Proof. reflexivity. Qed.

(** The CRC does not cover the header: when the four frame number bytes of
    a serialized packet are replaced by those of another 32-bit number,
    [deserialize] accepts the buffer and returns a packet with that frame
    number. *)
Theorem frame_number_is_not_protected (frame_number other : Z)
  (t : PacketType) (payload : ndarray) :
  well_formed frame_number payload = true ->
  0 <= other < 2 ^ 32 ->
  exists p raw q,
    init frame_number t payload = Return p
    /\ serialize p = Return raw
    /\ deserialize (firstn 4 raw ++ le_bytes 4 other ++ skipn 8 raw)
       = Return (Some q)
    /\ CommProtocol.frame_number q = other
    /\ payload_crc q = payload_crc p
    /\ tobytes (CommProtocol.payload q) = tobytes payload.
Proof.
  intros WF Ho.
  destruct (serialize_init frame_number t payload WF)
    as (h & w & c & pd & Hn & Hh & Hw & Hc & Hshape & Ht & Hlen & Hl & I & S).
  eexists _, _, _. split; [exact I|]. split; [exact S|].
  assert (Hsize : Z.of_nat (length (buffer payload))
                  = prod (decoded_shape h w c)
                    * Z.of_nat (itemsize (type_ pd)))
    by (rewrite prod_decoded_shape, Ht; exact Hlen).
  change (firstn 4 (wire ?hb frame_number h w ?pl ?crc)
            ++ le_bytes 4 other
            ++ skipn 8 (wire ?hb frame_number h w ?pl ?crc))
    with (wire hb other h w pl crc).
  rewrite (deserialize_wire t c pd other h w (buffer payload)
             (arc (buffer payload)) Hc Ho Hh Hw Hl (arc_range _) Hsize).
  rewrite Z.eqb_refl. repeat split.
Qed.

Lemma frame_number_is_not_protected_witness :
  exists p raw q,
    init 0xFA FRAME S1_payload = Return p
    /\ serialize p = Return raw
    /\ deserialize (firstn 4 raw ++ le_bytes 4 7 ++ skipn 8 raw)
       = Return (Some q)
    /\ CommProtocol.frame_number q = 7
    /\ payload_crc q = payload_crc p
    /\ tobytes (CommProtocol.payload q) = tobytes S1_payload.
Proof.
  apply (frame_number_is_not_protected 0xFA 7 FRAME S1_payload);
    [reflexivity | lia].
Defined.

End CodecMore.

(** ** The older codec: what comes back from its own serialization *)

Module OldCodecFacts.
Import Py PyFacts Struct StructFacts Crc CrcFacts Np.
Import RaspberryProtocol.

Lemma ccitt_bit_range (c : Z) : word16 c -> word16 (ccitt_bit c).
Proof.
  intro H. unfold ccitt_bit, word16.
  assert (M : 0 <= Z.land (Z.shiftl c 1) 0xFFFF < 2 ^ 16).
  { change 0xFFFF with (Z.ones 16). rewrite Z.land_ones by lia.
    apply Z.mod_pos_bound. lia. }
  destruct (Z.testbit c 15); [|exact M].
  apply lxor_range; [lia | exact M | vm_compute; split; congruence].
Qed.

Lemma ccitt_byte_range (c : Z) (b : byte) : word16 c -> word16 (ccitt_byte c b).
Proof.
  intro H. unfold ccitt_byte.
  assert (W : word16 (Z.lxor c (Z.shiftl (Z_of_byte b) 8))).
  { apply lxor_range; [lia | exact H |].
    pose proof (Z_of_byte_range b). rewrite Z.shiftl_mul_pow2 by lia.
    change (2 ^ 8) with 256. change (2 ^ 16) with 65536. lia. }
  generalize dependent (Z.lxor c (Z.shiftl (Z_of_byte b) 8)).
  intros s W. generalize 8%nat. intro n.
  induction n as [|n IH]; cbn [Nat.iter]; [exact W|].
  now apply ccitt_bit_range.
Qed.

Lemma fold_ccitt_range (data : list byte) (c : Z) :
  word16 c -> word16 (fold_left ccitt_byte data c).
Proof.
  revert c. induction data as [|b r IH]; intros c H; cbn [fold_left];
    [exact H|].
  apply IH. now apply ccitt_byte_range.
Qed.

Lemma ccitt_range (data : list byte) : 0 <= ccitt data < 2 ^ 16.
Proof.
  apply fold_ccitt_range. unfold word16. change (2 ^ 16) with 65536. lia.
Qed.

(** The checksum of a string of null bytes is 0. *)
Lemma ccitt_zeros (n : nat) : ccitt (repeat x00 n) = 0.
Proof.
  unfold ccitt. induction n as [|n IH]; cbn [repeat fold_left]; [reflexivity|].
  change (ccitt_byte 0 x00) with 0. exact IH.
Qed.

Lemma old_pack_uint_ok (len : nat) (n : Z) :
  0 <= n < 256 ^ Z.of_nat len ->
  pack_uint Big len n = Return (rev (le_bytes len n)).
Proof.
  intro R. unfold pack_uint.
  destruct (Z.leb_spec 0 n); [|lia].
  destruct (Z.ltb_spec n (256 ^ Z.of_nat len)); [|lia].
  reflexivity.
Qed.

Lemma old_packet_values_exact header frame_number x y payload_bin crc :
  Forall2 exact (packet_format (length payload_bin))
    (packet_values header frame_number x y payload_bin crc).
Proof.
  unfold packet_format, packet_values. cbn.
  repeat constructor.
Qed.

Lemma old_pack_wire header frame_number x y payload_bin crc :
  0 <= frame_number < 2 ^ 32 ->
  0 <= x < 2 ^ 16 -> 0 <= y < 2 ^ 16 ->
  Z.of_nat (length payload_bin) < 2 ^ 32 ->
  pack Big (packet_format (length payload_bin))
    (packet_values header frame_number x y payload_bin crc)
  = Return (wire header frame_number x y payload_bin crc).
Proof.
  intros Hn Hx Hy Hl.
  unfold pack, packet_format, packet_values, wire.
  cbn [PACKING_FORMAT_START PACKING_FORMAT_END compute_payload_ser_format
       LEN_START_MAGIC_WORD LEN_END_MAGIC_WORD LEN_PROVER_PTYPE_CCOUNT
       LEN_FRAME_XY_SHAPE LEN_PAYLOAD_CRC START_MAGIC_WORD END_MAGIC_WORD
       Nat.div Nat.divmod fst repeat app length Nat.eqb
       pack_items pack_item bind].
  rewrite (old_pack_uint_ok 4 frame_number) by (cbn; lia).
  rewrite (old_pack_uint_ok 2 x) by (cbn; lia).
  rewrite (old_pack_uint_ok 2 y) by (cbn; lia).
  rewrite (old_pack_uint_ok 4 (Z.of_nat (length payload_bin))) by (cbn; lia).
  rewrite (fit_exact (length payload_bin) payload_bin eq_refl).
  change LEN_PAYLOAD_CRC with 2%nat.
  rewrite (fit_exact 2 (le_bytes 2 crc)) by apply length_le_bytes.
  cbn [bind fit firstn app repeat le_bytes rev].
  rewrite app_nil_r. reflexivity.
Qed.

Lemma old_stored_payload_length_wire header frame_number x y payload_bin crc :
  Z.of_nat (length payload_bin) < 2 ^ 32 ->
  stored_payload_length (wire header frame_number x y payload_bin crc)
  = length payload_bin.
Proof.
  intro Hl. unfold stored_payload_length, wire, slice.
  cbn [START_MAGIC_WORD le_bytes rev app skipn Nat.sub firstn].
  unfold bytes_to_int, int_from_bytes. cbn [BYTE_ORDER ordered].
  match goal with
  | |- Z.to_nat (le_value (rev ?l)) = _ =>
      change l with (rev (le_bytes 4 (Z.of_nat (length payload_bin))))
  end.
  rewrite rev_involutive, le_value_le_bytes, Z.mod_small by (cbn; lia).
  apply Nat2Z.id.
Qed.

Lemma old_channel_cases (c : Z) :
  0 <= c <= 3 -> c = 0 \/ c = 1 \/ c = 2 \/ c = 3.
Proof. lia. Qed.

Lemma old_header_byte_range (t : PacketType) (c : Z) :
  0 <= c <= 3 -> 128 <= header_byte (PacketType_value t) c < 192.
Proof.
  intro H.
  destruct (old_channel_cases c H) as [-> | [-> | [-> | ->]]];
    destruct t; vm_compute; split; congruence.
Qed.

Lemma old_parse_header (t : PacketType) (c : Z) :
  0 <= c <= 3 ->
  let s := bin_digits (header_byte (PacketType_value t) c) in
  int_base2 (slice s 0 BIT_LEN_PROTOCOL_VER) = Return PROTOCOL_VER
  /\ int_base2
       (slice s BIT_LEN_PROTOCOL_VER
          (BIT_LEN_PROTOCOL_VER + BIT_LEN_PACKET_TYPE))
     = Return (PacketType_value t)
  /\ int_base2
       (slice s (BIT_LEN_PROTOCOL_VER + BIT_LEN_PACKET_TYPE)
          (BIT_LEN_PROTOCOL_VER + BIT_LEN_PACKET_TYPE
           + BIT_LEN_CHANNEL_COUNT))
     = Return c.
Proof.
  intro H.
  destruct (old_channel_cases c H) as [-> | [-> | [-> | ->]]];
    destruct t; vm_compute; repeat split.
Qed.

Lemma old_PacketType_of_value_value (t : PacketType) :
  PacketType_of_value (PacketType_value t) = Return t.
Proof. destruct t; reflexivity. Qed.

Lemma old_bytes_to_int_single (z : Z) :
  0 <= z < 256 -> bytes_to_int [byte_of_Z z] = z.
Proof.
  intro R. unfold bytes_to_int, int_from_bytes.
  cbn [BYTE_ORDER ordered rev app le_value].
  rewrite Z_of_byte_of_Z, Z.mod_small; lia.
Qed.

(** What the older [deserialize] does with a buffer in the layout of the
    older [serialize]. *)
Lemma old_deserialize_wire (t : PacketType) (c frame_number x y : Z)
  (payload_bin : list byte) (crc : Z) :
  0 <= c <= 3 ->
  0 <= frame_number < 2 ^ 32 ->
  0 <= x < 2 ^ 16 -> 0 <= y < 2 ^ 16 ->
  Z.of_nat (length payload_bin) < 2 ^ 32 ->
  Z.of_nat (length payload_bin) = x * y * c * 8 ->
  deserialize
    (wire (header_byte (PacketType_value t) c) frame_number x y payload_bin
       crc)
  = if crc_as_read crc =? ccitt payload_bin
    then Return None
    else Return (Some (decoded_packet frame_number t x y c payload_bin)).
Proof.
  intros Hc Hn Hx Hy Hl Hsize.
  set (hb := header_byte (PacketType_value t) c).
  unfold deserialize, deserialize_fields.
  change (Z.to_nat
            (bytes_to_int
               (slice ?r PAYLOAD_LEN_IDX
                  (PAYLOAD_LEN_IDX + LEN_PAYLOAD_LENGTH))))
    with (stored_payload_length r).
  rewrite old_stored_payload_length_wire by exact Hl.
  fold (packet_format (length payload_bin)).
  rewrite (unpack_pack Big _ _ _
             (old_packet_values_exact hb frame_number x y payload_bin crc)
             (old_pack_wire hb frame_number x y payload_bin crc Hn Hx Hy Hl)).
  unfold packet_values. cbn [bind].
  rewrite old_bytes_to_int_single
    by (pose proof (old_header_byte_range t c Hc); subst hb; lia).
  destruct (old_parse_header t c Hc) as (P1 & P2 & P3).
  cbv zeta in P1, P2, P3. fold hb in P1, P2, P3.
  rewrite P1. cbn [bind]. rewrite Z.eqb_refl. cbn [negb].
  rewrite P2. cbn [bind]. rewrite old_PacketType_of_value_value. cbn [bind].
  rewrite P3. cbn [bind].
  unfold frombuffer. change (itemsize int_) with 8%nat.
  assert (M : Nat.modulo (length payload_bin) 8 = 0%nat).
  { apply Nat2Z.inj. rewrite Nat2Z.inj_mod, Hsize. apply Z.mod_mul. lia. }
  rewrite M. cbn [Nat.eqb bind]. unfold reshape, size.
  cbn [shape prod fold_right dtype_of buffer].
  rewrite Nat2Z.inj_div, Hsize, Z.div_mul by lia.
  replace (x * (y * (c * 1)) =? x * y * c * 1) with true
    by (symmetry; apply Z.eqb_eq; lia).
  cbn [bind]. unfold deserialize_checked.
  cbn [d_payload_crc d_payload_bin d_frame_number d_packet_type d_shape
       d_frame_channel_count d_payload].
  fold (crc_as_read crc).
  destruct (crc_as_read crc =? ccitt payload_bin); reflexivity.
Qed.

Lemma crc_as_read_value (crc : Z) :
  0 <= crc < 2 ^ 16 -> crc_as_read crc = 256 * (crc mod 256) + crc / 256.
Proof.
  intro H. unfold crc_as_read, bytes_to_int, int_from_bytes.
  cbn [BYTE_ORDER ordered le_bytes rev app le_value].
  rewrite !Z_of_byte_of_Z.
  rewrite (Z.mod_small (crc / 256)); [lia|].
  change (2 ^ 16) with (256 * 256) in H.
  split; [apply Z.div_pos; lia | apply Z.div_lt_upper_bound; lia].
Qed.

Lemma crc_as_read_same (crc : Z) :
  0 <= crc < 2 ^ 16 ->
  (crc_as_read crc =? crc) = (crc mod 256 =? crc / 256).
Proof.
  intro H. rewrite (crc_as_read_value crc H).
  pose proof (Z.div_mod crc 256 ltac:(lia)) as D.
  pose proof (Z.mod_pos_bound crc 256 ltac:(lia)) as M.
  destruct (Z.eqb_spec (crc mod 256) (crc / 256)) as [E|N].
  - apply Z.eqb_eq. lia.
  - apply Z.eqb_neq. lia.
Qed.

Lemma old_well_formed_inv (frame_number : Z) (payload : ndarray) :
  well_formed frame_number payload = true ->
  exists h w c,
    dims_of (shape payload) = Some (h, w, c)
    /\ 0 <= frame_number < 2 ^ 32
    /\ 0 <= h < 2 ^ 16 /\ 0 <= w < 2 ^ 16 /\ 0 <= c <= 3
    /\ Z.of_nat (length (buffer payload)) = h * w * c * 8
    /\ Z.of_nat (length (buffer payload)) < 2 ^ 32.
Proof.
  unfold well_formed. intro H.
  repeat (apply andb_true_iff in H; destruct H as [H ?]).
  destruct (dims_of (shape payload)) as [[[h w] c]|]; [|discriminate].
  unfold dimension in *.
  repeat match goal with
         | H : _ && _ = true |- _ => apply andb_true_iff in H; destruct H
         end.
  exists h, w, c. repeat split; try reflexivity; lia.
Qed.

(** What the older [serialize] produces for a packet made by [init]. *)
Lemma old_serialize_init (frame_number : Z) (t : PacketType)
  (payload : ndarray) (h w c : Z) :
  dims_of (shape payload) = Some (h, w, c) ->
  0 <= frame_number < 2 ^ 32 ->
  0 <= h < 2 ^ 16 -> 0 <= w < 2 ^ 16 -> 0 <= c <= 3 ->
  Z.of_nat (length (buffer payload)) < 2 ^ 32 ->
  serialize (init frame_number t payload)
  = Return (wire (header_byte (PacketType_value t) c) frame_number h w
              (buffer payload) (ccitt (buffer payload))).
Proof.
  intros D Hn Hh Hw Hc Hl.
  unfold serialize, init, payload_length, compute_crc_of, tobytes.
  cbn [packet_type frame_channel_count RaspberryProtocol.frame_number
       frame_shape RaspberryProtocol.payload payload_crc].
  assert (S : firstn 2 (shape payload) = [h; w]
              /\ (if (length (shape payload) <=? 2)%nat then 1
                  else nth 2 (shape payload) 0) = c).
  { unfold dims_of in D.
    destruct (shape payload) as [|a [|b [|e [|? ?]]]]; try discriminate;
      injection D as -> -> ->; split; reflexivity. }
  destruct S as [-> ->]. fold (header_byte (PacketType_value t) c).
  pose proof (old_header_byte_range t c Hc) as Hb.
  pose proof (ccitt_range (buffer payload)) as Hcrc.
  unfold int_to_bytes.
  destruct (Z.leb_spec 0 (header_byte (PacketType_value t) c)); [|lia].
  destruct (Z.ltb_spec (header_byte (PacketType_value t) c)
              (256 ^ Z.of_nat 1)); [|cbn in *; lia].
  destruct (Z.leb_spec 0 (ccitt (buffer payload))); [|lia].
  destruct (Z.ltb_spec (ccitt (buffer payload))
              (256 ^ Z.of_nat LEN_PAYLOAD_CRC)); [|cbn in *; lia].
  cbn [andb bind ordered le_bytes rev firstn map app].
  apply (old_pack_wire _ frame_number h w (buffer payload) _ Hn Hh Hw Hl).
Qed.

(** For well-formed arguments the older [deserialize] gives back None from
    the bytes of the older [serialize] exactly when the two bytes of the
    checksum are equal, and otherwise a packet with the frame number, the
    dimensions and the payload bytes of the original, the name of its type
    and the checksum of the placeholder. *)
Theorem old_round_trip (frame_number : Z) (t : PacketType)
  (payload : ndarray) :
  well_formed frame_number payload = true ->
  exists h w c raw,
    dims_of (shape payload) = Some (h, w, c)
    /\ serialize (init frame_number t payload) = Return raw
    /\ deserialize raw
       = if ccitt (buffer payload) mod 256 =? ccitt (buffer payload) / 256
         then Return None
         else Return (Some (decoded_packet frame_number t h w c
                              (buffer payload))).
Proof.
  intro WF.
  destruct (old_well_formed_inv _ _ WF)
    as (h & w & c & D & Hn & Hh & Hw & Hc & Hsize & Hl).
  exists h, w, c. eexists. split; [exact D|].
  split; [now apply (old_serialize_init _ _ _ h w c)|].
  rewrite old_deserialize_wire by assumption.
  now rewrite crc_as_read_same by apply ccitt_range.
Qed.

(** A payload of null bytes only never comes back: the older [deserialize]
    returns None for the bytes the older [serialize] made of it. *)
Theorem old_zero_payload_is_rejected (frame_number : Z) (t : PacketType)
  (payload : ndarray) (n : nat) :
  well_formed frame_number payload = true ->
  buffer payload = repeat x00 n ->
  exists raw,
    serialize (init frame_number t payload) = Return raw
    /\ deserialize raw = Return None.
Proof.
  intros WF Z0.
  destruct (old_well_formed_inv _ _ WF)
    as (h & w & c & D & Hn & Hh & Hw & Hc & Hsize & Hl).
  eexists. split; [now apply (old_serialize_init _ _ _ h w c)|].
  rewrite old_deserialize_wire by assumption.
  rewrite Z0, ccitt_zeros. reflexivity.
Qed.

Lemma old_round_trip_witness :
  exists h w c raw,
    dims_of [1; 1; 1] = Some (h, w, c)
    /\ serialize
         (init 7 FRAME (mk_ndarray [1; 1; 1] int64 (x01 :: repeat x00 7)))
       = Return raw
    /\ deserialize raw
       = if ccitt (x01 :: repeat x00 7) mod 256
            =? ccitt (x01 :: repeat x00 7) / 256
         then Return None
         else Return (Some (decoded_packet 7 FRAME h w c
                              (x01 :: repeat x00 7))).
Proof.
  apply (old_round_trip 7 FRAME
           (mk_ndarray [1; 1; 1] int64 (x01 :: repeat x00 7))).
  vm_compute. reflexivity.
Defined.

Lemma old_zero_payload_is_rejected_witness :
  exists raw,
    serialize (init 0xFA FRAME (mk_ndarray [2; 2; 3] int64 (repeat x00 96)))
    = Return raw
    /\ deserialize raw = Return None.
Proof.
  apply (old_zero_payload_is_rejected 0xFA FRAME
           (mk_ndarray [2; 2; 3] int64 (repeat x00 96)) 96).
  - vm_compute. reflexivity.
  - reflexivity.
Defined.

End OldCodecFacts.

(** ** The request handler: order of the frames, failures, halting *)

Module ServerMore.
Import Py PyFacts Np CommProtocol CodecFacts Server ServerFacts Scenario.

Lemma send_frame_bytes (s : server) (i : item) (data : list byte) :
  current_data_to_send s = Some i ->
  frame_bytes i = Return data ->
  _send_current_data s = Return (sendall data s).
Proof.
  intros C F. unfold _send_current_data. rewrite C.
  destruct i as [frame_number image]. unfold frame_bytes in F.
  cbn [fst snd] in F.
  destruct (init frame_number FRAME image) as [p|]; [|discriminate].
  cbn [bind] in F |- *. rewrite F. reflexivity.
Qed.

(** An OK request on a queue that is not empty: the head is taken, made
    the current data and sent. *)
Lemma dispatch_ok_step (raw : list byte) (q : Packet) (s : server)
  (env : list wait) (i : item) (rest : list item) (data : list byte) :
  deserialize raw = Return (Some q) ->
  packet_type q = OK ->
  frames_queue s = i :: rest ->
  frame_bytes i = Return data ->
  dispatch raw s env
  = Return (sendall data
              (set_current (Some i) (set_queue rest (set_current None s))),
            env, Continue).
Proof.
  intros D T Q F. unfold dispatch. rewrite D. cbn [bind]. rewrite T.
  unfold _update_new_data_to_send.
  rewrite (acquire_nonempty (set_current None s) env i rest Q).
  cbn [current_data_to_send set_current set_queue].
  rewrite (send_frame_bytes _ i data); [reflexivity | reflexivity | exact F].
Qed.

(** As many OK requests as there are items at the head of the queue: the
    items are sent in the order of the queue, one per request, and taken
    off the queue. *)
Theorem ok_requests_send_queue_in_order (items : list item) :
  forall (oks : list (list byte)) (datas : list (list byte))
         (rest : list item) (s : server) (env : list wait),
    Forall is_ok_request oks ->
    length oks = length items ->
    Forall2 (fun i data => frame_bytes i = Return data) items datas ->
    frames_queue s = items ++ rest ->
    exists s',
      handle (map Framed oks) s env = Return (s', Continue)
      /\ frames_queue s' = rest
      /\ sent s' = sent s ++ datas
      /\ current_data_to_send s'
         = match rev items with
           | [] => current_data_to_send s
           | i :: _ => Some i
           end.
Proof.
  induction items as [|i items IH]; intros oks datas rest s env Ok L F Q.
  - destruct oks; [|discriminate]. inversion F; subst.
    exists s. cbn. rewrite app_nil_r. auto.
  - destruct oks as [|raw oks]; [discriminate|].
    inversion F as [|i' data items' datas' Fi Fs]; subst.
    inversion Ok as [|raw' oks' [q [D T]] Oks]; subst.
    cbn [map handle].
    rewrite (dispatch_ok_step raw q s env i (items ++ rest) data D T Q Fi).
    cbn [bind].
    destruct (IH oks datas' rest
                (sendall data
                   (set_current (Some i)
                      (set_queue (items ++ rest) (set_current None s))))
                env Oks ltac:(cbn in L; lia) Fs eq_refl)
      as (s' & H & Q' & S' & C').
    exists s'. split; [exact H|]. split; [exact Q'|]. split.
    + rewrite S'. cbn [sent sendall set_current set_queue].
      now rewrite <- app_assoc.
    + rewrite C'. cbn [rev current_data_to_send sendall set_current].
      destruct (rev items) as [|j r]; reflexivity.
Qed.

Lemma ok_requests_send_queue_in_order_witness :
  exists s',
    handle (map Framed [ok_request; ok_request]) S4_server []
    = Return (s', Continue)
    /\ frames_queue s' = []
    /\ sent s'
       = sent S4_server
           ++ [[x49; x4e; x55; x94; x00; x00; x00; x00; x01; x00; x01; x00;
                x01; x00; x00; x00; x07; x41; xc2; x4e; x45; x4b; x4f];
               [x49; x4e; x55; x94; x01; x00; x00; x00; x01; x00; x01; x00;
                x01; x00; x00; x00; x08; x01; xc6; x4e; x45; x4b; x4f]]
    /\ current_data_to_send s'
       = match rev [(0, pixel x07); (1, pixel x08)] with
         | [] => current_data_to_send S4_server
         | i :: _ => Some i
         end.
Proof.
  apply (ok_requests_send_queue_in_order [(0, pixel x07); (1, pixel x08)]
           [ok_request; ok_request] _ [] S4_server []).
  - repeat constructor; eexists; split; vm_compute; reflexivity.
  - reflexivity.
  - repeat constructor; vm_compute; reflexivity.
  - reflexivity.
Defined.

Lemma follows_refl (s : server) : follows s s.
Proof.
  repeat split; auto; [exists 0%nat | exists []]; cbn;
    [reflexivity | now rewrite app_nil_r].
Qed.

Lemma follows_trans (a b c : server) :
  follows a b -> follows b c -> follows a c.
Proof.
  intros ([k K] & [n N] & H & S) ([k' K'] & [n' N'] & H' & S').
  repeat split.
  - exists (k' + k)%nat. now rewrite K', K, skipn_skipn.
  - exists (n ++ n'). now rewrite N', N, app_assoc.
  - auto.
  - congruence.
Qed.

Lemma acquire_follows (env : list wait) :
  forall (s s' : server) (env' : list wait),
    acquire s env = Some (s', env') -> follows s s'.
Proof.
  induction env as [|w env IH]; intros s s' env' H.
  - cbn [acquire] in H. destruct (frames_queue s) as [|i q] eqn:Q;
      [discriminate|].
    injection H as <- _. repeat split; cbn; auto.
    + exists 1%nat. now rewrite Q.
    + exists []. now rewrite app_nil_r.
  - cbn [acquire] in H. destruct (frames_queue s) as [|i q] eqn:Q.
    + destruct w as [i|h].
      * injection H as <- _. repeat split; cbn; auto.
        -- exists 0%nat. now rewrite Q.
        -- exists []. now rewrite app_nil_r.
      * cbn [halt_server_event set_halt] in H.
        assert (F : follows s (set_halt (halt_server_event s || h) s)).
        { repeat split; cbn; auto.
          - exists 0%nat. reflexivity.
          - exists []. now rewrite app_nil_r.
          - intros ->. reflexivity. }
        destruct (halt_server_event s || h).
        -- injection H as <- _. exact F.
        -- apply (follows_trans _ _ _ F). eapply IH. exact H.
    + injection H as <- _. repeat split; cbn; auto.
      * exists 1%nat. now rewrite Q.
      * exists []. now rewrite app_nil_r.
Qed.

Lemma send_follows (s s' : server) :
  _send_current_data s = Return s' -> follows s s'.
Proof.
  unfold _send_current_data.
  destruct (current_data_to_send s) as [[frame_number image]|];
    [|discriminate].
  destruct (init frame_number FRAME image) as [p|]; [|discriminate].
  cbn [bind]. destruct (serialize p) as [data|]; [|discriminate].
  cbn [bind]. intro H. injection H as <-.
  repeat split; cbn; auto; [exists 0%nat | exists [data]]; reflexivity.
Qed.

Lemma dispatch_follows (raw : list byte) (s s' : server)
  (env env' : list wait) (c : control) :
  dispatch raw s env = Return (s', env', c) ->
  (c = Break /\ s' = close_socket s) \/ (c <> Break /\ follows s s').
Proof.
  unfold dispatch.
  destruct (deserialize raw) as [[q|]|]; try discriminate. cbn [bind].
  assert (N : follows s (set_current None s)).
  { repeat split; cbn; auto; [exists 0%nat | exists []]; cbn;
      [reflexivity | now rewrite app_nil_r]. }
  destruct (packet_type q).
  - unfold _update_new_data_to_send.
    destruct (acquire (set_current None s) env) as [[s1 env1]|] eqn:A.
    + apply acquire_follows in A.
      destruct (current_data_to_send s1).
      * destruct (_send_current_data s1) as [s2|] eqn:S; [|discriminate].
        cbn [bind]. intro H. injection H as <- _ <-. right.
        split; [discriminate|].
        apply send_follows in S. eauto using follows_trans.
      * intro H. injection H as <- _ <-. right.
        split; [discriminate|]. eauto using follows_trans.
    + intro H. injection H as <- _ <-. right. split; [discriminate | exact N].
  - intro H. injection H as <- _ <-. right.
    split; [discriminate | apply follows_refl].
  - destruct (_send_current_data s) as [s1|] eqn:S; [|discriminate].
    cbn [bind]. intro H. injection H as <- _ <-. right.
    split; [discriminate | now apply send_follows].
  - intro H. injection H as <- _ <-. left. auto.
Qed.

(** Whatever the requests, when [handle] returns: the queue has only lost
    items at its head, the sent data has only grown, a raised halt event is
    still raised, and the socket has been closed exactly when the handler
    stopped on a HALT. *)
Theorem handle_keeps (reqs : list inbound) :
  forall (s s' : server) (env : list wait) (c : control),
    handle reqs s env = Return (s', c) ->
    (exists k, frames_queue s' = skipn k (frames_queue s))
    /\ (exists new, sent s' = sent s ++ new)
    /\ (halt_server_event s = true -> halt_server_event s' = true)
    /\ (socket_closed s = false -> (socket_closed s' = true <-> c = Break)).
Proof.
  assert (G : forall s s' env c,
             handle reqs s env = Return (s', c) ->
             (c = Break /\ exists s1, follows s s1 /\ s' = close_socket s1)
             \/ (c <> Break /\ follows s s')).
  { induction reqs as [|r reqs IH]; intros s s' env c H.
    - cbn [handle] in H. injection H as <- <-. right.
      split; [discriminate | apply follows_refl].
    - cbn [handle] in H. destruct r as [| |raw]; [now apply IH in H.. |].
      destruct (dispatch raw s env) as [[[s1 env1] c1]|] eqn:D;
        [|discriminate].
      cbn [bind] in H. apply dispatch_follows in D.
      destruct c1.
      + destruct D as [[D _]|[_ D]]; [discriminate|].
        apply IH in H. destruct H as [[-> (s2 & F & ->)]|[N F]].
        * left. split; [reflexivity|]. exists s2.
          split; [eauto using follows_trans | reflexivity].
        * right. split; [exact N | eauto using follows_trans].
      + injection H as <- <-. destruct D as [[_ ->]|[N _]]; [|contradiction].
        left. split; [reflexivity|]. exists s.
        split; [apply follows_refl | reflexivity].
      + injection H as <- <-. destruct D as [[D _]|[_ D]]; [discriminate|].
        right. split; [discriminate | exact D]. }
  intros s s' env c H.
  destruct (G s s' env c H)
    as [[-> (s1 & (K & N & Hh & Sc) & ->)]|[Nb (K & N & Hh & Sc)]].
  - cbn [close_socket frames_queue sent halt_server_event socket_closed].
    repeat split; auto.
  - repeat split; auto; try congruence.
Qed.

Lemma handle_keeps_witness :
  exists s',
    handle [Framed ok_request; Framed request_request; Framed halt_request]
      S4_server [] = Return (s', Break)
    /\ (exists k, frames_queue s' = skipn k (frames_queue S4_server))
    /\ (exists new, sent s' = sent S4_server ++ new)
    /\ (halt_server_event S4_server = true -> halt_server_event s' = true)
    /\ (socket_closed S4_server = false ->
        (socket_closed s' = true <-> Break = Break)).
Proof.
  eexists. split; [vm_compute; reflexivity|].
  apply (handle_keeps
           [Framed ok_request; Framed request_request; Framed halt_request]
           S4_server _ [] Break).
  vm_compute. reflexivity.
Defined.

Lemma acquire_waits (n : nat) :
  forall (s : server) (i : item) (env : list wait),
    frames_queue s = [] ->
    halt_server_event s = false ->
    exists s',
      acquire s (repeat (TimesOut false) n ++ Arrives i :: env)
      = Some (s', env)
      /\ current_data_to_send s' = Some i
      /\ frames_queue s' = []
      /\ halt_server_event s' = false
      /\ sent s' = sent s
      /\ socket_closed s' = socket_closed s.
Proof.
  induction n as [|n IH]; intros s i env Q H.
  - cbn [repeat app acquire]. rewrite Q. eexists. split; [reflexivity|].
    cbn. auto.
  - cbn [repeat app acquire]. rewrite Q, H.
    cbn [orb halt_server_event set_halt].
    destruct (IH (set_halt false s) i env Q eq_refl)
      as (s' & A & C & Q' & H' & S' & K').
    exists s'. repeat split; assumption.
Qed.

(** An OK request on an empty queue, no halt raised: the handler waits
    through any number of timeouts and sends the first item the producer
    puts, without keeping it on the queue. *)
Theorem ok_request_waits_for_a_frame (raw : list byte) (q : Packet)
  (s : server) (n : nat) (i : item) (env : list wait) (data : list byte) :
  deserialize raw = Return (Some q) ->
  packet_type q = OK ->
  frames_queue s = [] ->
  halt_server_event s = false ->
  frame_bytes i = Return data ->
  exists s',
    dispatch raw s (repeat (TimesOut false) n ++ Arrives i :: env)
    = Return (s', env, Continue)
    /\ sent s' = sent s ++ [data]
    /\ current_data_to_send s' = Some i
    /\ frames_queue s' = [].
Proof.
  intros D T Q H F. unfold dispatch. rewrite D. cbn [bind]. rewrite T.
  unfold _update_new_data_to_send.
  destruct (acquire_waits n (set_current None s) i env Q H)
    as (s1 & A & C & Q1 & H1 & S1 & K1).
  rewrite A, C. rewrite (send_frame_bytes s1 i data C F). cbn [bind].
  eexists. split; [reflexivity|]. cbn [sent sendall current_data_to_send
                                        frames_queue].
  rewrite S1. cbn [sent set_current]. auto.
Qed.

Lemma ok_request_waits_for_a_frame_witness :
  exists s',
    dispatch ok_request
      (mk_server [] false None false [])
      (repeat (TimesOut false) 3 ++ Arrives (0, pixel x07) :: [])
    = Return (s', [], Continue)
    /\ sent s'
       = sent (mk_server [] false None false [])
           ++ [[x49; x4e; x55; x94; x00; x00; x00; x00; x01; x00; x01; x00;
                x01; x00; x00; x00; x07; x41; xc2; x4e; x45; x4b; x4f]]
    /\ current_data_to_send s' = Some (0, pixel x07)
    /\ frames_queue s' = [].
Proof.
  eapply (ok_request_waits_for_a_frame ok_request _
            (mk_server [] false None false []) 3 (0, pixel x07) []);
    vm_compute; reflexivity.
Defined.

(** When the queue is empty and the halt event is raised, an OK request
    sends nothing and leaves no current data; a REQUEST that follows ends
    the handler with TypeError. *)
Theorem request_after_halted_ok_fails (ok rq : list byte) (p q : Packet)
  (reqs : list inbound) (s : server) (h : bool) (env : list wait) :
  deserialize ok = Return (Some p) -> packet_type p = OK ->
  deserialize rq = Return (Some q) -> packet_type q = REQUEST ->
  frames_queue s = [] ->
  halt_server_event s || h = true ->
  (exists s',
      dispatch ok s (TimesOut h :: env) = Return (s', env, Continue)
      /\ sent s' = sent s /\ current_data_to_send s' = None)
  /\ handle (Framed ok :: Framed rq :: reqs) s (TimesOut h :: env)
     = Raise TypeError.
Proof.
  intros Dp Tp Dq Tq Q H.
  assert (E : dispatch ok s (TimesOut h :: env)
              = Return (set_halt true (set_current None s), env, Continue)).
  { unfold dispatch. rewrite Dp. cbn [bind]. rewrite Tp.
    unfold _update_new_data_to_send. cbn [acquire].
    cbn [frames_queue set_current halt_server_event]. rewrite Q, H.
    cbn [set_halt halt_server_event current_data_to_send]. reflexivity. }
  split.
  - eexists. split; [exact E|]. cbn. auto.
  - cbn [handle]. rewrite E. cbn [bind handle].
    unfold dispatch. rewrite Dq. cbn [bind]. rewrite Tq. reflexivity.
Qed.

Lemma request_after_halted_ok_fails_witness :
  (exists s',
      dispatch ok_request (mk_server [] true None false []) [TimesOut false]
      = Return (s', [], Continue)
      /\ sent s' = sent (mk_server [] true None false [])
      /\ current_data_to_send s' = None)
  /\ handle [Framed ok_request; Framed request_request]
       (mk_server [] true None false []) [TimesOut false]
     = Raise TypeError.
Proof.
  eapply (request_after_halted_ok_fails ok_request request_request _ _ []
            (mk_server [] true None false []) false []);
    vm_compute; reflexivity.
Defined.

End ServerMore.

(** ** The reader thread: what it puts, when it stops *)

Module ReaderMore.
Import Py Np Reader Scenario ReaderFacts.

(** With no event set, whatever the readers of the queue do: the inner
    loop puts a beginning of the frames that are left, and all of them
    when it is left. *)
Lemma read_frames_quiet_any (taken : consumer) (n : nat) :
  forall (frame_id : Z) (r : reader),
    isOpened (_video_feed r) = true ->
    (length (remaining (_video_feed r)) < n)%nat ->
    _loop (fst (read_frames n quiet taken frame_id r)) = _loop r
    /\ (exists k : nat,
           puts (fst (read_frames n quiet taken frame_id r))
           = puts r
               ++ numbered frame_id (firstn k (remaining (_video_feed r))))
    /\ (snd (read_frames n quiet taken frame_id r) = true ->
        puts (fst (read_frames n quiet taken frame_id r))
        = puts r ++ numbered frame_id (remaining (_video_feed r))).
Proof.
  intros frame_id r O L.
  destruct (read_frames_puts n quiet taken frame_id r) as (Lp & _ & k & T).
  split; [exact Lp|]. split.
  - exists k. rewrite (puts_of_trace _ _ _ T). now rewrite put_items_Put.
  - clear Lp k T. revert frame_id r O L.
    induction n as [|n IH]; intros frame_id r O L; [lia|].
    cbn [read_frames]. rewrite O, may_continue_quiet.
    unfold read. cbn [tick _video_feed].
    destruct (remaining (_video_feed r)) as [|f rest] eqn:R.
    + intros _. cbn [fst numbered]. now rewrite app_nil_r.
    + set (c := mk_capture (source (_video_feed r)) rest
                  (opened (_video_feed r))).
      destruct (put (frame_id, f) taken (with_feed c (tick (tick r))))
        as [r1|] eqn:Q; [|discriminate].
      apply put_returns in Q. destruct Q as (F1 & _ & T1 & _).
      cbn [with_feed tick _video_feed trace] in F1, T1.
      intro S. rewrite (IH (frame_id + 1) r1).
      * rewrite F1. subst c. cbn [remaining numbered].
        rewrite (puts_of_trace r r1 _ T1). cbn. now rewrite <- app_assoc.
      * rewrite F1. exact O.
      * rewrite F1. subst c. cbn [remaining]. cbn [length] in L. lia.
      * exact S.
Qed.

(** When nothing is taken off a bounded queue with [free] places left, the
    inner loop puts [free] frames, and it is left only when these are all
    the frames. *)
Lemma read_frames_nobody (taken : consumer) (n : nat) :
  (forall j : nat, taken j = 0%nat) ->
  forall (free : nat) (frame_id : Z) (r : reader),
    isOpened (_video_feed r) = true ->
    (length (remaining (_video_feed r)) < n)%nat ->
    0 < maxsize (_frames_queue r) ->
    qsize (_frames_queue r) + Z.of_nat free = maxsize (_frames_queue r) ->
    exists r',
      read_frames n quiet taken frame_id r
      = (r', negb (free <? length (remaining (_video_feed r)))%nat)
      /\ trace r'
         = trace r
             ++ map Put
                  (numbered frame_id
                     (firstn free (remaining (_video_feed r))))
      /\ opened (_video_feed r') = true
      /\ _loop r' = _loop r.
Proof.
  intro N. induction n as [|n IH]; intros free frame_id r O L M Q; [lia|].
  cbn [read_frames]. rewrite O, may_continue_quiet.
  unfold read. cbn [tick _video_feed].
  unfold isOpened in O.
  destruct (remaining (_video_feed r)) as [|f rest] eqn:R.
  - eexists. split; [reflexivity|].
    cbn [with_feed trace _video_feed tick _loop].
    rewrite firstn_nil. cbn [numbered map]. rewrite app_nil_r. auto.
  - set (c := mk_capture (source (_video_feed r)) rest
                (opened (_video_feed r))).
    unfold put. cbn [with_feed tick _frames_queue _video_feed _is_video
                      _loop _frames_shape trace clock].
    rewrite N. unfold Queue_put, taken_off, no_room, qsize in *.
    cbn [skipn maxsize items].
    replace (0 <? maxsize (_frames_queue r)) with true
      by (symmetry; apply Z.ltb_lt; exact M).
    cbn [andb]. destruct free as [|free].
    + replace (maxsize (_frames_queue r)
               <=? Z.of_nat (length (items (_frames_queue r)))) with true
        by (symmetry; apply Z.leb_le; lia).
      eexists. split; [reflexivity|].
      cbn [with_feed trace _video_feed tick _loop firstn numbered map].
      rewrite app_nil_r. subst c. auto.
    + replace (maxsize (_frames_queue r)
               <=? Z.of_nat (length (items (_frames_queue r)))) with false
        by (symmetry; apply Z.leb_gt; lia).
      set (r1 := mk_reader _ _ _ _ _ _ _).
      destruct (IH free (frame_id + 1) r1) as (r' & E & T & Op & Lp).
      * exact O.
      * subst r1 c. cbn [_video_feed remaining]. cbn [length] in L. lia.
      * exact M.
      * subst r1. cbn [_frames_queue maxsize items]. rewrite length_app.
        cbn [length]. lia.
      * exists r'. split; [exact E|]. rewrite T, Lp. subst r1 c.
        cbn [trace _video_feed remaining firstn numbered map _loop].
        rewrite <- app_assoc. auto.
Qed.

(** A reader that does not loop and sees no event: it finishes or stays
    in a [put], and it has put a beginning of the frames that are left,
    all of them when it finishes. It finishes when the readers of the
    queue keep up. *)
Lemma quiet_run_puts (passes : nat) (taken : consumer) (r : reader) :
  _loop r = false ->
  isOpened (_video_feed r) = true ->
  exists (r' : reader) (s : status),
    _run (S passes) quiet taken r = (r', s)
    /\ (exists k : nat,
           puts r'
           = puts r ++ numbered 0 (firstn k (remaining (_video_feed r))))
    /\ (s = Finished ->
        puts r' = puts r ++ numbered 0 (remaining (_video_feed r)))
    /\ (keeps_up taken (_frames_queue r) -> s = Finished).
Proof.
  intros L O. cbn [_run].
  destruct (read_frames_quiet_any taken
              (S (length (remaining (_video_feed r)))) 0 r O ltac:(lia))
    as (Lp & K & A).
  pose proof (read_frames_quiet taken
                (S (length (remaining (_video_feed r)))) 0 r O ltac:(lia))
    as U.
  destruct (read_frames _ quiet taken 0 r) as [r1 left].
  cbn [fst snd] in Lp, K, A. destruct left.
  - rewrite Lp, L. eexists _, _. split; [reflexivity|].
    unfold puts in *. cbn [with_feed trace]. auto.
  - eexists _, _. split; [reflexivity|]. split; [exact K|].
    split; [discriminate|]. intro Q.
    destruct (U Q) as (r' & E & _). discriminate.
Qed.

(** A reader that does not loop and sees no event. When the readers of
    the queue keep up, it puts all the frames that are left, in their
    order and numbered from 0, releases the feed and finishes in one
    pass. When nothing is taken off a bounded queue with [free] places
    left, it puts [free] frames; if more frames are left it stays in
    [put] for the next one and the feed is not released. *)
Theorem quiet_run_puts_every_frame (passes : nat) (taken : consumer)
  (r : reader) :
  _loop r = false ->
  isOpened (_video_feed r) = true ->
  (keeps_up taken (_frames_queue r) ->
   exists r',
     _run (S passes) quiet taken r = (r', Finished)
     /\ puts r' = puts r ++ numbered 0 (remaining (_video_feed r))
     /\ isOpened (_video_feed r') = false)
  /\ (forall free : nat,
         (forall j : nat, taken j = 0%nat) ->
         0 < maxsize (_frames_queue r) ->
         qsize (_frames_queue r) + Z.of_nat free
         = maxsize (_frames_queue r) ->
         exists r',
           _run (S passes) quiet taken r
           = (r', if (free <? length (remaining (_video_feed r)))%nat
                  then Blocked else Finished)
           /\ puts r'
              = puts r
                  ++ numbered 0 (firstn free (remaining (_video_feed r)))
           /\ isOpened (_video_feed r')
              = (free <? length (remaining (_video_feed r)))%nat).
Proof.
  intros L O. split.
  - intro K. cbn [_run].
    destruct (read_frames_quiet taken
                (S (length (remaining (_video_feed r)))) 0 r O ltac:(lia) K)
      as (r1 & E & T & _ & _ & _ & Lp & _).
    rewrite E, Lp, L. eexists. split; [reflexivity|].
    split; [|reflexivity].
    unfold puts. cbn [with_feed trace].
    now rewrite T, flat_map_app, put_items_Put.
  - intros free N M Q. cbn [_run].
    destruct (read_frames_nobody taken
                (S (length (remaining (_video_feed r)))) N free 0 r O
                ltac:(lia) M Q) as (r1 & E & T & Op & Lp).
    rewrite E.
    destruct (free <? length (remaining (_video_feed r)))%nat;
      cbn [negb].
    + exists r1. split; [reflexivity|]. split; [|exact Op].
      rewrite (puts_of_trace r _ _ T). now rewrite put_items_Put.
    + rewrite Lp, L. eexists. split; [reflexivity|].
      split; [|reflexivity].
      unfold puts. cbn [with_feed trace].
      now rewrite T, flat_map_app, put_items_Put.
Qed.

Lemma quiet_run_puts_every_frame_witness :
  (exists r',
      _run 1 quiet one_each plain_reader = (r', Finished)
      /\ puts r'
         = puts plain_reader
             ++ numbered 0 (remaining (_video_feed plain_reader))
      /\ isOpened (_video_feed r') = false)
  /\ (exists r',
         _run 1 quiet nobody narrow_reader = (r', Blocked)
         /\ puts r' = [(0, mk_ndarray [1; 1] uint8 [x07])]
         /\ isOpened (_video_feed r') = true).
Proof.
  split.
  - apply (proj1 (quiet_run_puts_every_frame 0 one_each plain_reader
                    eq_refl eq_refl)).
    right. split; [vm_compute; discriminate | intro n; apply le_n].
  - apply (proj2 (quiet_run_puts_every_frame 0 nobody narrow_reader
                    eq_refl eq_refl) 1%nat).
    + reflexivity.
    + reflexivity.
    + reflexivity.
Defined.

(** A looping reader that sees no event never finishes, whatever the
    readers of the queue do. *)
Theorem looping_reader_never_finishes (passes : nat) (taken : consumer) :
  forall r : reader,
    _loop r = true -> snd (_run passes quiet taken r) <> Finished.
Proof.
  induction passes as [|passes IH]; intros r L; [discriminate|].
  cbn [_run].
  destruct (read_frames_puts (S (length (remaining (_video_feed r)))) quiet
              taken 0 r) as (Lp & _ & _).
  destruct (read_frames _ quiet taken 0 r) as [r1 left]. cbn [fst] in Lp.
  destruct left; [|discriminate].
  rewrite Lp, L, may_continue_quiet. apply IH.
  cbn [rewound _loop tick]. now rewrite Lp.
Qed.

Lemma looping_reader_never_finishes_witness :
  snd (_run 7 quiet nobody looping_reader) <> Finished.
Proof.
  apply (looping_reader_never_finishes 7 nobody looping_reader).
  reflexivity.
Defined.

Lemma may_continue_clock (w : signals) (r : reader) :
  (clock r < clock (snd (may_continue w r)))%nat.
Proof.
  unfold may_continue.
  destruct (halt_is_set w (clock r)); [cbn; lia|].
  destruct (reset_is_set w (S (clock r))); cbn; lia.
Qed.

Lemma read_frames_clock (n : nat) (w : signals) (taken : consumer) :
  forall (frame_id : Z) (r : reader),
    (clock r <= clock (fst (read_frames n w taken frame_id r)))%nat.
Proof.
  induction n as [|n IH]; intros frame_id r; cbn [read_frames fst]; [lia|].
  destruct (isOpened (_video_feed r)); [|cbn [fst]; lia].
  pose proof (may_continue_clock w r) as C.
  destruct (may_continue w r) as [go r0]. cbn [snd] in C.
  destruct go; [|cbn [fst]; lia].
  destruct (read (_video_feed r0)) as [[f|] c].
  - destruct (put (frame_id, f) taken (with_feed c r0)) as [r1|] eqn:Q.
    + apply put_returns in Q. destruct Q as (_ & _ & _ & C1 & _).
      cbn [with_feed clock] in C1.
      etransitivity; [|apply IH]. lia.
    + cbn. lia.
  - cbn. lia.
Qed.

(** With readers of the queue that keep up, the inner loop is left, and
    they still keep up. *)
Lemma read_frames_keeps_up (n : nat) (w : signals) (taken : consumer) :
  forall (frame_id : Z) (r : reader),
    keeps_up taken (_frames_queue r) ->
    snd (read_frames n w taken frame_id r) = true
    /\ keeps_up taken (_frames_queue (fst (read_frames n w taken frame_id r))).
Proof.
  induction n as [|n IH]; intros frame_id r K; cbn [read_frames];
    [auto|].
  destruct (isOpened (_video_feed r)); [|auto].
  destruct (may_continue_keeps w r) as (_ & _ & _ & Q0).
  destruct (may_continue w r) as [go r0]. cbn [snd] in Q0.
  rewrite <- Q0 in K.
  destruct go; [|auto].
  destruct (read (_video_feed r0)) as [[f|] c]; [|auto].
  destruct (put_keeps_up (frame_id, f) taken (with_feed c r0) K)
    as (r1 & -> & K1).
  apply IH. exact K1.
Qed.

(** Once one of the two events stays set, [may_continue] says no. *)
Lemma may_continue_stops (w : signals) (k : nat) (r : reader) :
  stays_set (halt_is_set w) k \/ stays_set (reset_is_set w) k ->
  (k <= clock r)%nat ->
  fst (may_continue w r) = false.
Proof.
  intros [H|H] K; unfold may_continue.
  - rewrite (H (clock r)) by lia. reflexivity.
  - destruct (halt_is_set w (clock r)); [reflexivity|].
    rewrite (H (S (clock r))) by lia. reflexivity.
Qed.

Lemma run_step (passes : nat) (w : signals) (taken : consumer)
  (r : reader) :
  _run (S passes) w taken r
  = match
      read_frames (S (length (remaining (_video_feed r)))) w taken 0 r
    with
    | (r, false) => (r, Blocked)
    | (r, true) =>
        if _loop r then
          let (go, r) := may_continue w r in
          if go
          then _run passes w taken (rewound r)
          else (with_feed (release (_video_feed r)) r, Finished)
        else (with_feed (release (_video_feed r)) r, Finished)
    end.
Proof. reflexivity. Qed.

(** When the halt event or the reset event stays set from some call of
    [is_set] on, the thread does not go on running, also when it loops:
    within one pass per call that finds no event set, and one more, it has
    finished or it stays in a [put]; it has finished when the readers of
    the queue keep up. *)
Theorem run_finishes_once_stopped (w : signals) (taken : consumer)
  (k : nat) :
  stays_set (halt_is_set w) k \/ stays_set (reset_is_set w) k ->
  forall (m : nat) (r : reader),
    (k - clock r <= m)%nat ->
    snd (_run (S m) w taken r) <> Running
    /\ (keeps_up taken (_frames_queue r) ->
        snd (_run (S m) w taken r) = Finished).
Proof.
  intro H. induction m as [|m IH]; intros r K; rewrite run_step;
    pose proof (read_frames_clock (S (length (remaining (_video_feed r)))) w
                  taken 0 r) as C;
    pose proof (read_frames_keeps_up
                  (S (length (remaining (_video_feed r)))) w taken 0 r)
      as U;
    destruct (read_frames _ w taken 0 r) as [r1 left];
    cbn [fst snd] in C, U.
  - destruct left.
    2:{ split; [discriminate|]. intro Q. destruct (U Q). discriminate. }
    destruct (_loop r1); [|split; [discriminate | reflexivity]].
    pose proof (may_continue_stops w k r1 H ltac:(lia)) as G.
    destruct (may_continue w r1) as [go r2]. cbn [fst] in G. subst go.
    split; [discriminate | reflexivity].
  - destruct left.
    2:{ split; [discriminate|]. intro Q. destruct (U Q). discriminate. }
    destruct (_loop r1); [|split; [discriminate | reflexivity]].
    pose proof (may_continue_clock w r1) as C2.
    destruct (may_continue_keeps w r1) as (_ & _ & _ & Q2).
    destruct (may_continue w r1) as [go r2]. cbn [snd] in C2, Q2.
    destruct go; [|split; [discriminate | reflexivity]].
    destruct (IH (rewound r2)) as [A B]; [cbn [rewound clock]; lia|].
    split; [exact A|]. intro Q. apply B. cbn [rewound _frames_queue].
    rewrite Q2. apply U. exact Q.
Qed.

Lemma run_finishes_once_stopped_witness :
  snd (_run (S 11) (reset_from 11) one_each looping_reader) <> Running
  /\ snd (_run (S 11) (reset_from 11) one_each looping_reader) = Finished.
Proof.
  assert (H : stays_set (halt_is_set (reset_from 11)) 11
              \/ stays_set (reset_is_set (reset_from 11)) 11).
  { right. intros n Hn. unfold reset_from. cbn [reset_is_set].
    apply Nat.leb_le. exact Hn. }
  assert (K : (11 - clock looping_reader <= 11)%nat) by (cbn; lia).
  split.
  - apply (proj1 (run_finishes_once_stopped (reset_from 11) one_each 11 H
                    11%nat looping_reader K)).
  - apply (proj2 (run_finishes_once_stopped (reset_from 11) one_each 11 H
                    11%nat looping_reader K)).
    right. split; [vm_compute; discriminate | intro n; apply le_n].
Defined.

(** [change_feed] once the running thread has finished: IOError when the
    new feed does not open; otherwise, with no event set and no looping,
    the new thread puts the frames of the new feed from the first one on,
    numbered from 0, after the items of the old thread: all of them when
    it finishes, which it does when the readers of the queue keep up. *)
Theorem change_feed_starts_at_first_frame (passes : nat) (old : signals)
  (taken : consumer) (r : reader) (feed_origin : origin)
  (is_video : bool) :
  snd (_run (S passes) old taken r) = Finished ->
  (opens feed_origin = false ->
   change_feed (S passes) old quiet taken r feed_origin is_video false
   = Raise IOError)
  /\ (opens feed_origin = true ->
      exists (r' : reader) (s : status),
        change_feed (S passes) old quiet taken r feed_origin is_video false
        = Return (Some (r', s))
        /\ (exists k : nat,
               puts r'
               = puts (fst (_run (S passes) old taken r))
                   ++ numbered 0 (firstn k (content feed_origin)))
        /\ (s = Finished ->
            puts r'
            = puts (fst (_run (S passes) old taken r))
                ++ numbered 0 (content feed_origin))
        /\ (keeps_up taken
              (_frames_queue (fst (_run (S passes) old taken r))) ->
            s = Finished)).
Proof.
  intro F. unfold change_feed.
  destruct (_run (S passes) old taken r) as [r1 fin]. cbn [snd fst] in *.
  subst fin. unfold _initialize_reader, isOpened, VideoCapture.
  cbn [opened]. split; intro O; rewrite O; [reflexivity|].
  cbn [bind with_feed _video_feed _frames_shape _frames_queue trace].
  set (r2 := mk_reader _ _ _ _ _ _ _).
  destruct (quiet_run_puts passes taken r2 eq_refl eq_refl)
    as (r' & s & R & K & A & U).
  exists r', s. rewrite R. split; [reflexivity|]. auto.
Qed.

Lemma change_feed_starts_at_first_frame_witness :
  exists (r' : reader) (s : status),
    change_feed 5 (reset_from 3) quiet one_each plain_reader two_frames true
      false
    = Return (Some (r', s))
    /\ (exists k : nat,
           puts r'
           = puts (fst (_run 5 (reset_from 3) one_each plain_reader))
               ++ numbered 0 (firstn k (content two_frames)))
    /\ (s = Finished ->
        puts r'
        = puts (fst (_run 5 (reset_from 3) one_each plain_reader))
            ++ numbered 0 (content two_frames))
    /\ (keeps_up one_each
          (_frames_queue (fst (_run 5 (reset_from 3) one_each plain_reader)))
        -> s = Finished).
Proof.
  apply (proj2 (change_feed_starts_at_first_frame 4 (reset_from 3) one_each
                  plain_reader two_frames true
                  ltac:(vm_compute; reflexivity))).
  reflexivity.
Defined.

(** The constructor reads the first frame of the feed for its shape and
    does not give it back: IOError when the feed does not open,
    AttributeError when it has no frame; otherwise [get_shape] is the shape
    of the first frame, and a thread that sees no event and does not loop
    puts the frames from the second one on, numbered from 0: all of them
    when it finishes, which it does when the readers of the queue keep
    up. *)
Theorem init_consumes_first_frame (base : reader) (feed_origin : origin)
  (is_video : bool) (taken : consumer) :
  (opens feed_origin = false ->
   init base feed_origin is_video false = Raise IOError)
  /\ (opens feed_origin = true -> content feed_origin = [] ->
      init base feed_origin is_video false = Raise AttributeError)
  /\ (forall (f : frame) (fs : list frame) (passes : nat),
         opens feed_origin = true ->
         content feed_origin = f :: fs ->
         exists (r r' : reader) (s : status),
           init base feed_origin is_video false = Return r
           /\ get_shape r = shape f
           /\ _run (S passes) quiet taken r = (r', s)
           /\ (exists k : nat,
                  puts r' = puts base ++ numbered 0 (firstn k fs))
           /\ (s = Finished -> puts r' = puts base ++ numbered 0 fs)
           /\ (keeps_up taken (_frames_queue base) -> s = Finished)).
Proof.
  unfold init, _initialize_reader, isOpened, VideoCapture. cbn [opened].
  split; [|split].
  - intros ->. reflexivity.
  - intros -> ->. reflexivity.
  - intros f fs passes -> ->.
    cbn [bind with_feed _video_feed read remaining _is_video _loop trace
         clock source opened andb _frames_queue _frames_shape].
    set (r := mk_reader _ _ _ _ _ _ _).
    destruct (quiet_run_puts passes taken r eq_refl eq_refl)
      as (r' & s & R & K & A & U).
    exists r, r', s. repeat split; assumption.
Qed.

Lemma init_consumes_first_frame_witness :
  exists (r r' : reader) (s : status),
    init plain_reader two_frames true false = Return r
    /\ get_shape r = shape (mk_ndarray [1; 1] uint8 [x07])
    /\ _run 1 quiet one_each r = (r', s)
    /\ (exists k : nat,
           puts r'
           = puts plain_reader
               ++ numbered 0 (firstn k [mk_ndarray [1; 1] uint8 [x08]]))
    /\ (s = Finished ->
        puts r'
        = puts plain_reader ++ numbered 0 [mk_ndarray [1; 1] uint8 [x08]])
    /\ (keeps_up one_each (_frames_queue plain_reader) -> s = Finished).
Proof.
  apply (proj2 (proj2 (init_consumes_first_frame plain_reader two_frames
                         true one_each))
           (mk_ndarray [1; 1] uint8 [x07]) [mk_ndarray [1; 1] uint8 [x08]]
           0%nat); reflexivity.
Defined.

End ReaderMore.

(** ** Regions of interest and the plain video reader *)

Module UtilsMore.
Import Py Np Utils UtilsFacts.

(** A region that lies inside the image is returned as it is: [h] rows of
    [w] columns, starting at row [y] and column [x]; the column [x + w] and
    the row [y + h] are not part of it. *)
Theorem get_roi_inside {A} (img : image A) (x w y h : Z) :
  0 <= x -> 0 <= y -> 0 <= w -> 0 <= h ->
  x + w <= width img -> y + h <= height img ->
  height (get_roi img x w y h) = h
  /\ width (get_roi img x w y h) = w
  /\ forall row col,
       at_ (get_roi img x w y h) row col = at_ img (y + row) (x + col).
Proof.
  intros Hx Hy Hw Hh Wx Hy'. unfold get_roi, crop, slice_bound.
  cbn [height width at_].
  repeat match goal with
         | |- context [?a <? ?b] => destruct (Z.ltb_spec a b); try lia
         end.
  repeat split; intros; try (f_equal; lia); lia.
Qed.

Lemma get_roi_inside_witness :
  height (get_roi (mk_image 10 20 (fun r c => 100 * r + c)) 3 5 2 4) = 4
  /\ width (get_roi (mk_image 10 20 (fun r c => 100 * r + c)) 3 5 2 4) = 5
  /\ forall row col,
       at_ (get_roi (mk_image 10 20 (fun r c => 100 * r + c)) 3 5 2 4)
         row col
       = at_ (mk_image 10 20 (fun r c => 100 * r + c)) (2 + row) (3 + col).
Proof.
  apply (get_roi_inside (mk_image 10 20 (fun r c => 100 * r + c)) 3 5 2 4);
    cbn; lia.
Defined.

(** A region whose far edges are not before the image is clipped to the
    image: what is returned is the part of the region inside the image. *)
Theorem get_roi_clipped {A} (img : image A) (x w y h : Z) :
  0 <= width img -> 0 <= height img ->
  0 <= x + w -> 0 <= y + h ->
  height (get_roi img x w y h)
  = Z.max 0 (Z.min (y + h) (height img) - Z.max y 0)
  /\ width (get_roi img x w y h)
     = Z.max 0 (Z.min (x + w) (width img) - Z.max x 0)
  /\ forall row col,
       Z.max y 0 <= height img -> Z.max x 0 <= width img ->
       at_ (get_roi img x w y h) row col
       = at_ img (Z.max y 0 + row) (Z.max x 0 + col).
Proof.
  intros Wp Hp Ex Ey. unfold get_roi, crop, slice_bound.
  cbn [height width at_].
  repeat match goal with
         | |- context [?a <? ?b] => destruct (Z.ltb_spec a b); try lia
         end.
  all: repeat split; intros; try (f_equal; lia); lia.
Qed.

Lemma get_roi_clipped_witness :
  height (get_roi (mk_image 10 20 (fun r c => 100 * r + c)) (-2) 5 8 4)
  = Z.max 0 (Z.min (8 + 4) 10 - Z.max 8 0)
  /\ width (get_roi (mk_image 10 20 (fun r c => 100 * r + c)) (-2) 5 8 4)
     = Z.max 0 (Z.min (-2 + 5) 20 - Z.max (-2) 0)
  /\ forall row col,
       Z.max 8 0 <= 10 -> Z.max (-2) 0 <= 20 ->
       at_ (get_roi (mk_image 10 20 (fun r c => 100 * r + c)) (-2) 5 8 4)
         row col
       = at_ (mk_image 10 20 (fun r c => 100 * r + c))
           (Z.max 8 0 + row) (Z.max (-2) 0 + col).
Proof.
  apply (get_roi_clipped (mk_image 10 20 (fun r c => 100 * r + c))
           (-2) 5 8 4); cbn; lia.
Defined.

(** A region that ends before the first column is not empty: its far edge,
    a negative number, is taken as a column counted from the right, and
    what is returned starts at column 0 and leaves out the last
    [- (x + w)] columns of the image. *)
Theorem get_roi_left_of_image {A} (img : image A) (x w y h : Z) :
  0 <= w -> x + w < 0 -> - width img <= x + w ->
  0 <= y -> 0 <= h -> y + h <= height img ->
  height (get_roi img x w y h) = h
  /\ width (get_roi img x w y h) = width img + (x + w)
  /\ forall row col,
       at_ (get_roi img x w y h) row col = at_ img (y + row) col.
Proof.
  intros Hw Ex Wx Hy Hh Hy'. unfold get_roi, crop, slice_bound.
  cbn [height width at_].
  repeat match goal with
         | |- context [?a <? ?b] => destruct (Z.ltb_spec a b); try lia
         end.
  all: repeat split; intros; try (f_equal; lia); lia.
Qed.

Lemma get_roi_left_of_image_witness :
  height (get_roi (mk_image 10 20 (fun r c => 100 * r + c)) (-10) 5 0 10)
  = 10
  /\ width (get_roi (mk_image 10 20 (fun r c => 100 * r + c)) (-10) 5 0 10)
     = 20 + (-10 + 5)
  /\ forall row col,
       at_ (get_roi (mk_image 10 20 (fun r c => 100 * r + c)) (-10) 5 0 10)
         row col
       = at_ (mk_image 10 20 (fun r c => 100 * r + c)) (0 + row) col.
Proof.
  apply (get_roi_left_of_image (mk_image 10 20 (fun r c => 100 * r + c))
           (-10) 5 0 10); cbn; lia.
Defined.

(** What the loop of [video_reader] has handed to [put] is a beginning of
    the frames that are left, numbered from [frame_id] on; the loop does
    not touch the halt event. *)
Lemma video_reader_loop_written (n : nat) (halt_is_set : nat -> bool)
  (taken : Reader.consumer) :
  forall (frame_id : Z) (s : reading),
    halt_set (fst (video_reader_loop n halt_is_set taken frame_id s))
    = halt_set s
    /\ exists k : nat,
        written (fst (video_reader_loop n halt_is_set taken frame_id s))
        = written s
            ++ Reader.numbered frame_id
                 (firstn k (Reader.remaining (video s))).
Proof.
  induction n as [|n IH]; intros frame_id s.
  - split; [reflexivity|]. exists 0%nat. cbn. now rewrite app_nil_r.
  - cbn [video_reader_loop].
    destruct (Reader.isOpened (video s));
      [|split; [reflexivity|]; exists 0%nat; cbn; now rewrite app_nil_r].
    destruct (halt_is_set (observed s)).
    + split; [reflexivity|]. exists 0%nat. cbn. now rewrite app_nil_r.
    + unfold Reader.read.
      destruct (Reader.remaining (video s)) as [|f rest] eqn:R.
      * split; [reflexivity|]. exists 0%nat. cbn. now rewrite app_nil_r.
      * destruct (Reader.Queue_put _ _ _) as [q|].
        -- set (s1 := mk_reading _ _ _ _ _).
           destruct (IH (frame_id + 1) s1) as (H & k & W).
           rewrite H, W. split; [reflexivity|]. exists (S k).
           subst s1. cbn [written video Reader.remaining firstn
                            Reader.numbered].
           now rewrite <- app_assoc.
        -- split; [reflexivity|]. exists 0%nat. cbn.
           now rewrite app_nil_r.
Qed.

(** When no call of [is_set] finds the halt event set, the loop is left
    only after the last frame. *)
Lemma video_reader_loop_all (n : nat) (halt_is_set : nat -> bool)
  (taken : Reader.consumer) :
  (forall j : nat, halt_is_set j = false) ->
  forall (frame_id : Z) (s : reading),
    Reader.isOpened (video s) = true ->
    (length (Reader.remaining (video s)) < n)%nat ->
    snd (video_reader_loop n halt_is_set taken frame_id s) = true ->
    written (fst (video_reader_loop n halt_is_set taken frame_id s))
    = written s ++ Reader.numbered frame_id (Reader.remaining (video s)).
Proof.
  intro Q. induction n as [|n IH]; intros frame_id s O L; [lia|].
  cbn [video_reader_loop]. rewrite O, Q. unfold Reader.read.
  destruct (Reader.remaining (video s)) as [|f rest] eqn:R.
  - intros _. cbn. now rewrite app_nil_r.
  - destruct (Reader.Queue_put _ _ _) as [q|]; [|discriminate].
    set (s1 := mk_reading _ _ _ _ _). intro E.
    rewrite (IH (frame_id + 1) s1).
    + subst s1. cbn [written video Reader.remaining Reader.numbered].
      now rewrite <- app_assoc.
    + exact O.
    + subst s1. cbn [video Reader.remaining]. cbn [length] in L. lia.
    + exact E.
Qed.

(** With readers of the queue that keep up, the loop is left. *)
Lemma video_reader_loop_keeps_up (n : nat) (halt_is_set : nat -> bool)
  (taken : Reader.consumer) :
  forall (frame_id : Z) (s : reading),
    Reader.keeps_up taken (w_read_frames_q s) ->
    snd (video_reader_loop n halt_is_set taken frame_id s) = true.
Proof.
  induction n as [|n IH]; intros frame_id s K; cbn [video_reader_loop];
    [reflexivity|].
  destruct (Reader.isOpened (video s)); [|reflexivity].
  destruct (halt_is_set (observed s)); [reflexivity|].
  destruct (Reader.read (video s)) as [[f|] c]; [|reflexivity].
  destruct (ReaderFacts.Queue_put_keeps_up (frame_id, f) taken
              (length (written s)) _ K) as (q & -> & K1).
  apply IH. exact K1.
Qed.

(** When nothing is taken off a bounded queue with [free] places left and
    the halt event is never found set, the loop puts [free] frames, and
    it is left only when these are all the frames. *)
Lemma video_reader_loop_nobody (n : nat) (halt_is_set : nat -> bool)
  (taken : Reader.consumer) :
  (forall j : nat, halt_is_set j = false) ->
  (forall j : nat, taken j = 0%nat) ->
  forall (free : nat) (frame_id : Z) (s : reading),
    Reader.isOpened (video s) = true ->
    (length (Reader.remaining (video s)) < n)%nat ->
    0 < Reader.maxsize (w_read_frames_q s) ->
    Reader.qsize (w_read_frames_q s) + Z.of_nat free
    = Reader.maxsize (w_read_frames_q s) ->
    snd (video_reader_loop n halt_is_set taken frame_id s)
    = negb (free <? length (Reader.remaining (video s)))%nat
    /\ written (fst (video_reader_loop n halt_is_set taken frame_id s))
       = written s
           ++ Reader.numbered frame_id
                (firstn free (Reader.remaining (video s))).
Proof.
  intros Q N. induction n as [|n IH]; intros free frame_id s O L M E;
    [lia|].
  cbn [video_reader_loop]. rewrite O, Q. unfold Reader.read.
  destruct (Reader.remaining (video s)) as [|f rest] eqn:R.
  - cbn [fst snd written]. rewrite firstn_nil. cbn.
    now rewrite app_nil_r.
  - rewrite N.
    unfold Reader.Queue_put, Reader.taken_off, Reader.no_room,
      Reader.qsize in *.
    cbn [skipn Reader.maxsize Reader.items].
    replace (0 <? Reader.maxsize (w_read_frames_q s)) with true
      by (symmetry; apply Z.ltb_lt; exact M).
    cbn [andb]. destruct free as [|free].
    + replace (Reader.maxsize (w_read_frames_q s)
               <=? Z.of_nat (length (Reader.items (w_read_frames_q s))))
        with true by (symmetry; apply Z.leb_le; lia).
      cbn. now rewrite app_nil_r.
    + replace (Reader.maxsize (w_read_frames_q s)
               <=? Z.of_nat (length (Reader.items (w_read_frames_q s))))
        with false by (symmetry; apply Z.leb_gt; lia).
      set (s1 := mk_reading _ _ _ _ _).
      destruct (IH free (frame_id + 1) s1) as (A & W).
      * exact O.
      * subst s1. cbn [video Reader.remaining]. cbn [length] in L. lia.
      * exact M.
      * subst s1. cbn [w_read_frames_q Reader.maxsize Reader.items].
        rewrite length_app. cbn [length]. lia.
      * rewrite A, W. subst s1.
        cbn [video written Reader.remaining firstn Reader.numbered length].
        rewrite <- app_assoc. split; reflexivity.
Qed.

(** [video_reader] hands to [put] a beginning of the frames that are left,
    numbered from 0 in their order, and sets the halt event exactly when
    it returns; it returns when the readers of the queue keep up. When no
    call of [is_set] finds the halt event set, it returns only after it
    has put all the frames; and when nothing is taken off a bounded queue
    with [free] places left, it puts [free] frames and, if more are left,
    stays in [put] without setting the halt event. *)
Theorem video_reader_written (video : Reader.capture) (q : Reader.Queue)
  (halt_is_set : nat -> bool) (taken : Reader.consumer) :
  (exists k : nat,
      written (fst (video_reader video q halt_is_set taken))
      = Reader.numbered 0 (firstn k (Reader.remaining video)))
  /\ halt_set (fst (video_reader video q halt_is_set taken))
     = snd (video_reader video q halt_is_set taken)
  /\ (Reader.keeps_up taken q ->
      snd (video_reader video q halt_is_set taken) = true)
  /\ ((forall j : nat, halt_is_set j = false) ->
      Reader.isOpened video = true ->
      (snd (video_reader video q halt_is_set taken) = true ->
       written (fst (video_reader video q halt_is_set taken))
       = Reader.numbered 0 (Reader.remaining video))
      /\ (forall free : nat,
             (forall j : nat, taken j = 0%nat) ->
             0 < Reader.maxsize q ->
             Reader.qsize q + Z.of_nat free = Reader.maxsize q ->
             snd (video_reader video q halt_is_set taken)
             = negb (free <? length (Reader.remaining video))%nat
             /\ written (fst (video_reader video q halt_is_set taken))
                = Reader.numbered 0
                    (firstn free (Reader.remaining video)))).
Proof.
  unfold video_reader.
  set (s0 := mk_reading video q [] false 0).
  set (n := S (length (Reader.remaining video))).
  destruct (video_reader_loop_written n halt_is_set taken 0 s0)
    as (H & k & W).
  pose proof (video_reader_loop_all n halt_is_set taken) as A.
  pose proof (video_reader_loop_keeps_up n halt_is_set taken 0 s0) as K.
  pose proof (video_reader_loop_nobody n halt_is_set taken) as B.
  destruct (video_reader_loop n halt_is_set taken 0 s0) as [s left] eqn:E.
  cbn [fst snd] in H, W, K.
  assert (Ws : written (fst (if left
                             then (mk_reading (Utils.video s)
                                     (Utils.w_read_frames_q s) (written s)
                                     true (observed s), true)
                             else (s, false))) = written s)
    by (destruct left; reflexivity).
  assert (Ss : snd (if left
                    then (mk_reading (Utils.video s)
                            (Utils.w_read_frames_q s) (written s) true
                            (observed s), true)
                    else (s, false)) = left)
    by (destruct left; reflexivity).
  change (match left with
          | true => ?a
          | false => ?b
          end) with (if left then a else b).
  rewrite Ws, Ss. split; [exists k; exact W|]. split.
  - destruct left; [reflexivity | exact H].
  - split; [exact K|]. intros Q O. split.
    + intro L. specialize (A Q 0 s0 O ltac:(subst n s0; cbn; lia)).
      rewrite E in A. apply A. exact L.
    + intros free N M F.
      specialize (B Q N free 0 s0 O ltac:(subst n s0; cbn; lia) M F).
      rewrite E in B. exact B.
Qed.

Lemma video_reader_written_witness :
  snd (video_reader (Reader.VideoCapture Scenario.two_frames)
         (Reader.mk_Queue 30 []) (fun _ => false) Reader.one_each) = true
  /\ (snd (video_reader (Reader.VideoCapture Scenario.two_frames)
             (Reader.mk_Queue 1 []) (fun _ => false) Reader.nobody)
      = false
      /\ written (fst (video_reader
                         (Reader.VideoCapture Scenario.two_frames)
                         (Reader.mk_Queue 1 []) (fun _ => false)
                         Reader.nobody))
         = [(0, mk_ndarray [1; 1] uint8 [x07])]).
Proof.
  split.
  - apply (proj1 (proj2 (proj2 (video_reader_written
                                  (Reader.VideoCapture Scenario.two_frames)
                                  (Reader.mk_Queue 30 []) (fun _ => false)
                                  Reader.one_each)))).
    right. split; [vm_compute; discriminate | intro n; apply le_n].
  - apply (proj2 (proj2 (proj2 (proj2 (video_reader_written
                                  (Reader.VideoCapture Scenario.two_frames)
                                  (Reader.mk_Queue 1 []) (fun _ => false)
                                  Reader.nobody)))
                    (fun _ => eq_refl) eq_refl) 1%nat).
    + reflexivity.
    + reflexivity.
    + reflexivity.
Defined.

Lemma normalize_region_value (x1 y1 x2 y2 : Z) :
  normalize_region [x1; y1] [x2; y2]
  = Return [[Z.min x1 x2; Z.min y1 y2]; [Z.max x1 x2; Z.max y1 y2]].
Proof.
  unfold normalize_region. cbn [getitem nth_error bind].
  destruct (min_by_pair x1 x2) as [-> ->].
  destruct (min_by_pair y1 y2) as [-> ->]. reflexivity.
Qed.

(** The region [normalize_region] returns is a valid one, its first point
    not after its second in either coordinate, and normalizing the two
    points of a region already normalized gives the same region. *)
Theorem normalize_region_idempotent (x1 y1 x2 y2 : Z) :
  exists a b c d,
    normalize_region [x1; y1] [x2; y2] = Return [[a; b]; [c; d]]
    /\ a <= c /\ b <= d
    /\ normalize_region [a; b] [c; d] = Return [[a; b]; [c; d]]
    /\ normalize_region [c; d] [a; b] = Return [[a; b]; [c; d]].
Proof.
  exists (Z.min x1 x2), (Z.min y1 y2), (Z.max x1 x2), (Z.max y1 y2).
  split; [apply normalize_region_value|].
  split; [lia|]. split; [lia|].
  rewrite !normalize_region_value.
  set (a := Z.min x1 x2). set (b := Z.min y1 y2).
  set (c := Z.max x1 x2). set (d := Z.max y1 y2).
  assert (Hac : a <= c) by (subst a c; lia).
  assert (Hbd : b <= d) by (subst b d; lia).
  rewrite (Z.min_l a c), (Z.max_r a c), (Z.min_l b d), (Z.max_r b d),
    (Z.min_r c a), (Z.max_l c a), (Z.min_r d b), (Z.max_l d b) by lia.
  split; reflexivity.
Qed.

(** No check is done on the points: one with fewer than two coordinates
    makes [normalize_region] raise IndexError. *)
Theorem normalize_region_short_points (pt1 pt2 : list Z) :
  (length pt1 < 2)%nat \/ (length pt2 < 2)%nat ->
  normalize_region pt1 pt2 = Raise IndexError.
Proof.
  intro H. unfold normalize_region.
  destruct pt1 as [|a [|b pt1]], pt2 as [|c [|d pt2]];
    cbn [getitem nth_error bind]; try reflexivity;
    cbn [length] in H; lia.
Qed.

Lemma normalize_region_short_points_witness :
  normalize_region [3; 4] [1] = Raise IndexError.
Proof.
  apply (normalize_region_short_points [3; 4] [1]). right. cbn. lia.
Defined.

End UtilsMore.
